(** * HSN tariff pipeline: level assignment, hierarchy building, flattening

    A shallow embedding of three functions of the [hsn_agent] tools:

    - [compute_hierarchy_levels]        (tools/clean_norm.py)
    - [build_hierarchy]                 (tools/excel_to_hierarchy.py)
    - [flatten_hsn_json_with_inherited] (tools/json_flatten.py)

    Conventions of the embedding:

    - Scalars held by table cells and JSON fields are values of the type
      [value]; text is a Rocq string, read as ASCII text, and the text
      operations ([strip], [lower], the regular expressions) are the ASCII
      cases of the Python ones.
    - A float is a finite binary fraction; [nan], which pandas uses for a
      missing cell, is a value of its own.
    - Exceptions are the result [None] of an [option]-valued function;
      the two assignments that open [build_hierarchy], which write to the
      caller's table before they can raise, name their exception.
    - The dictionaries that [build_hierarchy] creates are shared between
      the result list, the [children] lists and the [level_nodes] table and
      are mutated through all three, so the builder runs over an explicit
      store of cells addressed by creation index; the nested objects it
      returns are read off the store at the end.
    - The first part of the file holds the definitions, the second the
      lemmas and theorems. *)

From Stdlib Require Import ZArith Ascii String List.
From stdpp Require Import base option list gmap strings pretty.

Local Open Scope string_scope.
Local Open Scope list_scope.
Local Open Scope Z_scope.

(* ================================================================== *)
(** * Python text operations *)
(* ================================================================== *)

Module PyText.

(** [str.isspace] on ASCII: TAB, LF, VT, FF, CR, FS, GS, RS, US, space.
    The same class is what [\s] matches in a [str] pattern. *)
Definition is_space (c : ascii) : bool :=
  let n := nat_of_ascii c in
  ((9 <=? n)%nat && (n <=? 13)%nat) || ((28 <=? n)%nat && (n <=? 32)%nat).

Definition is_digit (c : ascii) : bool :=
  let n := nat_of_ascii c in (48 <=? n)%nat && (n <=? 57)%nat.

Definition is_upper (c : ascii) : bool :=
  let n := nat_of_ascii c in (65 <=? n)%nat && (n <=? 90)%nat.

Definition is_lower (c : ascii) : bool :=
  let n := nat_of_ascii c in (97 <=? n)%nat && (n <=? 122)%nat.

(** [\w] on ASCII: letters, digits and the underscore. *)
Definition is_word (c : ascii) : bool :=
  is_upper c || is_lower c || is_digit c || Ascii.eqb c "_".

Definition lower_char (c : ascii) : ascii :=
  if is_upper c then ascii_of_nat (nat_of_ascii c + 32) else c.

Fixpoint map_chars (f : ascii -> ascii) (s : string) : string :=
  match s with
  | EmptyString => EmptyString
  | String c s' => String (f c) (map_chars f s')
  end.

Fixpoint all_chars (p : ascii -> bool) (s : string) : bool :=
  match s with
  | EmptyString => true
  | String c s' => p c && all_chars p s'
  end.

Fixpoint filter_chars (p : ascii -> bool) (s : string) : string :=
  match s with
  | EmptyString => EmptyString
  | String c s' =>
      if p c then String c (filter_chars p s') else filter_chars p s'
  end.

Fixpoint lstrip_chars (l : list ascii) : list ascii :=
  match l with
  | [] => []
  | c :: l' => if is_space c then lstrip_chars l' else l
  end.

(** [s.strip()] *)
Definition strip (s : string) : string :=
  string_of_list_ascii
    (rev (lstrip_chars (rev (lstrip_chars (list_ascii_of_string s))))).

(** [s.lower()] *)
Definition lower (s : string) : string := map_chars lower_char s.

(** [s.startswith(p)] *)
Definition startswith (p s : string) : bool := String.prefix p s.

(** [len(s)] *)
Definition len (s : string) : Z := Z.of_nat (String.length s).

(** [re.fullmatch(r"-+", s)] *)
Definition fullmatch_hyphens (s : string) : bool :=
  match s with
  | EmptyString => false
  | _ => all_chars (fun c => Ascii.eqb c "-") s
  end.

(** [re.fullmatch(r"\d{4}", s)] *)
Definition fullmatch_4digits (s : string) : bool :=
  (String.length s =? 4)%nat && all_chars is_digit s.

(** [re.sub(r"\s+", "", s)] : every whitespace character is removed. *)
Definition remove_whitespace (s : string) : string :=
  filter_chars (fun c => negb (is_space c)) s.

(** [s.replace(" ", "_")] *)
Definition spaces_to_underscores (s : string) : string :=
  map_chars (fun c => if Ascii.eqb c " " then "_"%char else c) s.

(** [re.sub(r"[^\w]", "_", s)] *)
Definition nonword_to_underscores (s : string) : string :=
  map_chars (fun c => if is_word c then c else "_"%char) s.

(** [sep.join(parts)] *)
Fixpoint join (sep : string) (parts : list string) : string :=
  match parts with
  | [] => ""
  | [p] => p
  | p :: ps => (p ++ sep ++ join sep ps)%string
  end.

End PyText.

(* ================================================================== *)
(** * Python values held in table cells and JSON fields *)
(* ================================================================== *)

Module PyValue.
Import PyText.

(** A finite float, [fl_man * 2 ^ fl_exp], together with the text that
    [repr] prints for it (the shortest decimal that reads back as the same
    number; it is carried as data, not recomputed). *)
Record pyfloat : Type := mkFloat {
  fl_man : Z;
  fl_exp : Z;
  fl_repr : string
}.

(** The scalars a cell can hold.  [VNaN] is the float [nan], which pandas
    uses for a missing cell; [VNone] is Python's [None] (JSON [null]). *)
Inductive value : Type :=
| VNone
| VBool (b : bool)
| VInt (z : Z)
| VNaN
| VFloat (f : pyfloat)
| VStr (s : string).

(** [str(v)] *)
Definition py_str (v : value) : string :=
  match v with
  | VNone => "None"
  | VBool true => "True"
  | VBool false => "False"
  | VInt z => pretty z
  | VNaN => "nan"
  | VFloat f => fl_repr f
  | VStr s => s
  end.

(** [bool(v)] : [None], [False], zero and the empty string are false;
    [nan] is true. *)
Definition py_truthy (v : value) : bool :=
  match v with
  | VNone => false
  | VBool b => b
  | VInt z => negb (z =? 0)
  | VNaN => true
  | VFloat f => negb (fl_man f =? 0)
  | VStr s => negb (String.eqb s "")
  end.

(** [a or b] *)
Definition py_or (a b : value) : value := if py_truthy a then a else b.

(** [int(f)] on a finite float: truncation towards zero. *)
Definition float_trunc (f : pyfloat) : Z :=
  if 0 <=? fl_exp f then fl_man f * 2 ^ fl_exp f
  else Z.quot (fl_man f) (2 ^ (- fl_exp f)).

(** [isinstance(v, (int, float))]; [bool] is a subclass of [int]. *)
Definition is_int_or_float (v : value) : bool :=
  match v with
  | VBool _ | VInt _ | VNaN | VFloat _ => true
  | VNone | VStr _ => false
  end.

(** [isinstance(v, float) and np.isnan(v)] *)
Definition is_float_nan (v : value) : bool :=
  match v with VNaN => true | _ => false end.

(** [pd.notna(v)] on a scalar *)
Definition pd_notna (v : value) : bool :=
  match v with VNone | VNaN => false | _ => true end.

(** [int(v)] where [v] is a number that is not [nan]. *)
Definition py_int (v : value) : Z :=
  match v with
  | VBool b => if b then 1 else 0
  | VInt z => z
  | VFloat f => float_trunc f
  | _ => 0
  end.

(** [v == k] for an integer literal [k]. *)
Definition eq_int (v : value) (k : Z) : bool :=
  match v with
  | VBool b => (if b then 1 else 0) =? k
  | VInt z => z =? k
  | VFloat f =>
      if 0 <=? fl_exp f then fl_man f * 2 ^ fl_exp f =? k
      else fl_man f =? k * 2 ^ (- fl_exp f)
  | _ => false
  end.

(** [v in (0, 1)] *)
Definition in_0_1 (v : value) : bool := eq_int v 0 || eq_int v 1.

(** [isinstance(v, str)] projected to the text. *)
Definition as_str (v : value) : option string :=
  match v with VStr s => Some s | _ => None end.

End PyValue.

(* ================================================================== *)
(** * Level Assigner: [compute_hierarchy_levels] *)
(* ================================================================== *)

Module CleanNorm.
Import PyText PyValue.

(** The four columns of a table row that [compute_hierarchy_levels]
    reads.  [level] is the raw marker cell as it comes in. *)
Record Row : Type := mkRow {
  item_description : value;
  level : value;
  remark : value;
  hs_code : value
}.

(** A row of the returned table: the input cells, the preserved marker
    ([df["raw_level"]]) and the numeric value of the new [df["level"]]
    cell, [None] when the cell is left unset. *)
Record Annotated : Type := mkAnnotated {
  source : Row;
  raw_level : value;
  new_level : option Z
}.

(** [desc = str(row["item_description"] or "").strip().lower()] *)
Definition desc_of (r : Row) : string :=
  lower (strip (py_str (py_or (item_description r) (VStr "")))).

(** The nested function [seed_level], applied to each row. *)
Definition seed_level (raw : value) (r : Row) : option Z :=
  if startswith "chapter" (desc_of r) then Some 0
  else
    match raw with
    | VStr s =>
        if fullmatch_hyphens (strip s) then Some (len (strip s)) else None
    | _ => None
    end.

(** [df["remark"].astype(str).eq("Tariff")] *)
Definition is_tariff (r : Row) : bool :=
  String.eqb (py_str (remark r)) "Tariff".

(** [is_tariff & df["hs_code"].astype(str).str.fullmatch(r"\d{4}")] *)
Definition mask_4d (r : Row) : bool :=
  is_tariff r && fullmatch_4digits (py_str (hs_code r)).

(** [is_tariff & df["raw_level"].astype(str).str.fullmatch(r"-+")] *)
Definition mask_hyph (raw : value) (r : Row) : bool :=
  is_tariff r && fullmatch_hyphens (py_str raw).

(** [is_tariff & ~mask_4d & ~mask_hyph] *)
Definition mask_other (raw : value) (r : Row) : bool :=
  is_tariff r && negb (mask_4d r) && negb (mask_hyph raw r).

(** Step a): [df.loc[mask_4d, "level"] = 1] *)
Definition override_4d (r : Row) (lvl : option Z) : option Z :=
  if mask_4d r then Some 1 else lvl.

(** Step b): [df.loc[mask_hyph, "level"] = raw_level.apply(len(s.strip()) + 1)].
    The cells selected by [mask_hyph] are texts: nothing else prints as a
    run of hyphens. *)
Definition override_hyph (raw : value) (r : Row) (lvl : option Z) : option Z :=
  if mask_hyph raw r then
    match raw with
    | VStr s => Some (len (strip s) + 1)
    | _ => lvl
    end
  else lvl.

(** Step c): [df.loc[mask_other, "level"] = 1] *)
Definition override_other (raw : value) (r : Row) (lvl : option Z) : option Z :=
  if mask_other raw r then Some 1 else lvl.

(** The new level of one row: the seed, then the three assignments in the
    order in which the function performs them. *)
Definition level_of_row (r : Row) : option Z :=
  let raw := level r in
  override_other raw r (override_hyph raw r (override_4d r (seed_level raw r))).

Definition annotate (r : Row) : Annotated :=
  {| source := r; raw_level := level r; new_level := level_of_row r |}.

(** The function works row by row on a copy of the table. *)
Definition compute_hierarchy_levels (df : list Row) : list Annotated :=
  map annotate df.

End CleanNorm.

(* ================================================================== *)
(** * The forest: nested node objects, as written to and read from JSON *)
(* ================================================================== *)

Module Tree.
Import PyValue.

#[local] Unset Elimination Schemes.

(** A node object.  [attrs] holds its scalar fields in key order; the two
    list-valued keys ["notes"] and ["children"] are kept apart.  A node
    read from JSON without one of these keys has the empty list there
    (the flattener reads both with the default [[]]). *)
Inductive Node : Type :=
| mkNode (attrs : list (string * value)) (notes : list string)
         (children : list Node).
#[local] Set Elimination Schemes.

Definition attrs (n : Node) : list (string * value) :=
  match n with mkNode a _ _ => a end.
Definition notes (n : Node) : list string :=
  match n with mkNode _ ns _ => ns end.
Definition children (n : Node) : list Node :=
  match n with mkNode _ _ cs => cs end.

(** First value stored under a key. *)
Fixpoint assoc (k : string) (kvs : list (string * value)) : option value :=
  match kvs with
  | [] => None
  | (k', v) :: kvs' => if String.eqb k' k then Some v else assoc k kvs'
  end.

(** [node.get(key)] : the value, or [None] when the key is missing. *)
Definition get (n : Node) (key : string) : value :=
  default VNone (assoc key (attrs n)).

End Tree.

(* ================================================================== *)
(** * Hierarchy Builder: [build_hierarchy] *)
(* ================================================================== *)

Module ExcelToHierarchy.
Import PyText PyValue Tree.

(** A table: its column labels and its rows of cells, one cell per
    column.  Labels other than the code label are taken to be pairwise
    distinct once normalised (a label lookup returns the first match);
    a repeated code label is an error of the call, see [assign_codes]. *)
Record DataFrame : Type := mkDataFrame {
  columns : list string;
  data : list (list value)
}.

(** The keyword arguments of [build_hierarchy]. *)
Record Config : Type := mkConfig {
  level_col : string;
  remark_col : string;
  note_text_cols : option (list string);
  hs_code_col : string
}.

Definition default_config : Config :=
  {| level_col := "level"; remark_col := "remark";
     note_text_cols := None; hs_code_col := "hs_code" |}.

(** [df.columns.str.strip().str.lower().str.replace(" ", "_")
      .str.replace(r"[^\w]", "_", regex=True)] *)
Definition normalize_header (c : string) : string :=
  nonword_to_underscores (spaces_to_underscores (lower (strip c))).

(** [col.strip().lower().replace(" ", "_")] *)
Definition normalize_note_col (c : string) : string :=
  spaces_to_underscores (lower (strip c)).

(** [note_text_cols] after defaulting and normalisation. *)
Definition prepared_note_cols (cfg : Config) : list string :=
  map normalize_note_col
    (match note_text_cols cfg with
     | None => ["item_description"]
     | Some cols => cols
     end).

(** [astype(str).str.replace(r"\s+", "", regex=True)] on one cell. *)
Definition normalize_hs_cell (v : value) : value :=
  VStr (remove_whitespace (py_str v)).

(** Rewrite the cell of a row that stands under the label [key]. *)
Fixpoint set_column (cols : list string) (key : string)
         (f : value -> value) (cells : list value) : list value :=
  match cols, cells with
  | c :: cols', v :: cells' =>
      if String.eqb c key then f v :: cells'
      else v :: set_column cols' key f cells'
  | _, _ => cells
  end.

(** One row as [iterrows] yields it: the cells indexed by the labels. *)
Definition Series : Type := list (string * value).

Definition iterrows (df : DataFrame) : list Series :=
  map (fun cells => zip (columns df) cells) (data df).

(** [row.get(key, dflt)] *)
Definition row_get (row : Series) (key : string) (dflt : value) : value :=
  default dflt (assoc key row).

(** A node dictionary in the store.  [c_children] lists the store
    addresses of the child dictionaries. *)
Record Cell : Type := mkCell {
  c_attrs : list (string * value);
  c_notes : list string;
  c_children : list nat
}.

(** The local variables of the loop: the store of node dictionaries
    created so far (address = creation index), the list [root] and the
    dictionary [level_nodes], both holding addresses. *)
Record State : Type := mkState {
  heap : list Cell;
  root : list nat;
  level_nodes : gmap Z nat
}.

Definition initial : State :=
  {| heap := []; root := []; level_nodes := ∅ |}.

(** [int(raw_lvl) if pd.notna(raw_lvl) and isinstance(raw_lvl, (int, float))
     else 0] *)
Definition depth_of (raw_lvl : value) : Z :=
  if pd_notna raw_lvl && is_int_or_float raw_lvl then py_int raw_lvl else 0.

(** The two keys of a node dictionary that hold lists. *)
Definition is_list_key (k : string) : bool :=
  String.eqb k "notes" || String.eqb k "children".

(** [None if isinstance(val, float) and np.isnan(val) else val] *)
Definition nan_to_none (v : value) : value :=
  if is_float_nan v then VNone else v.

(** The node dictionary built from a row: every cell under its label,
    [nan] replaced by [None]; the keys ["notes"] and ["children"] are then
    set to fresh empty lists. *)
Definition new_cell (row : Series) : Cell :=
  {| c_attrs :=
       List.filter (fun kv => negb (is_list_key (fst kv)))
                   (map (fun kv => (fst kv, nan_to_none (snd kv))) row);
     c_notes := [];
     c_children := [] |}.

(** [[d for d in level_nodes if d < depth]] (order is immaterial: only
    emptiness and the maximum are used). *)
Definition ancestors (lm : gmap Z nat) (depth : Z) : list Z :=
  List.filter (fun d => d <? depth) (map fst (map_to_list lm)).

(** [max(l)] of a non-empty list. *)
Definition py_max (l : list Z) : option Z :=
  match l with
  | [] => None
  | d :: ds => Some (foldr Z.max d ds)
  end.

(** [parent["children"].append(node)] through the store. *)
Definition append_child (child : nat) (c : Cell) : Cell :=
  {| c_attrs := c_attrs c; c_notes := c_notes c;
     c_children := c_children c ++ [child] |}.

(** [target["notes"].append(t)] for each [t] in turn. *)
Definition append_notes (ts : list string) (c : Cell) : Cell :=
  {| c_attrs := c_attrs c; c_notes := c_notes c ++ ts;
     c_children := c_children c |}.

(** The branch [remark != "notes"].  [max(ancestors)] is a key of
    [level_nodes], so the lookup of the parent always succeeds. *)
Definition step_node (cfg : Config) (st : State) (row : Series) : State :=
  let depth := depth_of (row_get row (level_col cfg) VNone) in
  let node := length (heap st) in
  let attached : list Cell * list nat :=
    if depth =? 0 then (heap st, root st ++ [node])
    else
      match py_max (ancestors (level_nodes st) depth) with
      | Some d =>
          match level_nodes st !! d with
          | Some parent => (alter (append_child node) parent (heap st), root st)
          | None => (heap st, root st)
          end
      | None => (heap st, root st ++ [node])
      end in
  {| heap := fst attached ++ [new_cell row];
     root := snd attached;
     level_nodes := <[depth := node]> (level_nodes st) |}.

(** The texts a note row contributes, in column order. *)
Definition note_texts (cols note_cols : list string) (row : Series)
  : list string :=
  flat_map
    (fun col =>
       if bool_decide (col ∈ cols) then
         let text := row_get row col VNone in
         if is_float_nan text then [] else [strip (py_str text)]
       else [])
    note_cols.

(** [level_nodes[1]] if [1 in level_nodes], else [level_nodes[0]] if
    [0 in level_nodes], else no target ([continue]). *)
Definition note_target (lm : gmap Z nat) : option nat :=
  match lm !! 1 with
  | Some t => Some t
  | None => lm !! 0
  end.

(** The branch [remark == "notes"]. *)
Definition step_note (cfg : Config) (cols : list string) (st : State)
           (row : Series) : State :=
  match note_target (level_nodes st) with
  | None => st
  | Some t =>
      {| heap := alter (append_notes
                          (note_texts cols (prepared_note_cols cfg) row))
                       t (heap st);
         root := root st;
         level_nodes := level_nodes st |}
  end.

(** [str(row.get(remark_col, "")).strip().lower()] *)
Definition remark_of (cfg : Config) (row : Series) : string :=
  lower (strip (py_str (row_get row (remark_col cfg) (VStr "")))).

Definition is_note_row (cfg : Config) (row : Series) : bool :=
  String.eqb (remark_of cfg row) "notes".

(** One iteration of the loop over the rows. *)
Definition step (cfg : Config) (cols : list string) (st : State)
           (row : Series) : State :=
  if is_note_row cfg row then step_note cfg cols st row
  else step_node cfg st row.

(** The exceptions that the two assignments opening the function can
    raise. *)
Inductive PyError : Type := KeyError | AttributeError.

(** [df.columns = df.columns.str.strip().str.lower()...] : the caller's
    table object with its labels rewritten. *)
Definition rename_columns (df : DataFrame) : DataFrame :=
  {| columns := map normalize_header (columns df); data := data df |}.

(** [df[hs_code_col] = df[hs_code_col].astype(str).str.replace(r"\s+", "",
    regex=True)] on a table object.  The selection [df[hs_code_col]]
    raises [KeyError] when no column carries the label; when several
    columns carry it the selection is a table, not a column, and its
    [.str] raises [AttributeError].  In both cases nothing is assigned. *)
Definition assign_codes (cfg : Config) (df : DataFrame)
  : PyError + DataFrame :=
  match List.filter (String.eqb (hs_code_col cfg)) (columns df) with
  | [] => inl KeyError
  | [_] =>
      inr {| columns := columns df;
             data := map (set_column (columns df) (hs_code_col cfg)
                            normalize_hs_cell)
                         (data df) |}
  | _ :: _ :: _ => inl AttributeError
  end.

(** The table object after the two in-place assignments that open the
    function, when neither raises. *)
Definition normalize_table (cfg : Config) (df : DataFrame)
  : option DataFrame :=
  match assign_codes cfg (rename_columns df) with
  | inr df' => Some df'
  | inl _ => None
  end.

(** The caller's table object when the call has ended, by a return or by
    an exception: the labels have been rewritten in either case, the code
    column only when its assignment did not raise.  The loop does not
    write to the table. *)
Definition table_after (cfg : Config) (df : DataFrame) : DataFrame :=
  match assign_codes cfg (rename_columns df) with
  | inr df' => df'
  | inl _ => rename_columns df
  end.

(** The loop, from the empty state. *)
Definition run (cfg : Config) (df : DataFrame) : State :=
  foldl (step cfg (columns df)) initial (iterrows df).

(** The nested object that an address of the store stands for.  Children
    are always created after their parent, so [length heap] levels of
    unfolding reach every node. *)
Fixpoint reify (fuel : nat) (h : list Cell) (i : nat) : Node :=
  match fuel with
  | O => mkNode [] [] []
  | S fuel' =>
      match h !! i with
      | Some c =>
          mkNode (c_attrs c) (c_notes c) (map (reify fuel' h) (c_children c))
      | None => mkNode [] [] []
      end
  end.

Definition forest_of (st : State) : list Node :=
  map (reify (length (heap st)) (heap st)) (root st).

(** [build_hierarchy(df, ...)] when the call returns: the state of the
    caller's table object after the call, and the returned list [root] as
    nested objects.  [None] when the call raises; [table_after] gives the
    table object in that case too. *)
Definition build_hierarchy (cfg : Config) (df : DataFrame)
  : option (DataFrame * list Node) :=
  match normalize_table cfg df with
  | Some df' => Some (df', forest_of (run cfg df'))
  | None => None
  end.

End ExcelToHierarchy.

(* ================================================================== *)
(** * Inheritance Flattener: [flatten_hsn_json_with_inherited] *)
(* ================================================================== *)

Module JsonFlatten.
Import PyText PyValue Tree.

(** One flattened document, with the keys of the dictionary that
    [traverse] appends to [docs]. *)
Record Doc : Type := mkDoc {
  id : value;
  text : value;
  level : value;
  parent_id : value;
  parent_text : value;
  breadcrumb : string;
  doc_notes : list string;
  unit : value;
  remark : value;
  basic_duty_sch : value;
  basic_duty_ntfn : value;
  igst : value;
  sws_10pct : value;
  total_duty_sws_10pct_on_bcd : value;
  pref_duty : value;
  import_policy : value;
  export_policy : value
}.

(** [ancestors[-1] if ancestors else None], then [parent.get(key) if
    parent else None]. *)
Definition parent_field (ancestors : list Node) (key : string) : value :=
  match last ancestors with
  | Some parent => get parent key
  | None => VNone
  end.

(** [" > ".join(path)] raises [TypeError] unless every item of the path is
    a [str]. *)
Definition join_path (path : list value) : option string :=
  match mapM as_str path with
  | Some parts => Some (join " > " parts)
  | None => None
  end.

(** The loop over [ancestors] that extends [inherited_notes]. *)
Fixpoint inherited_notes (ancestors : list Node) : list string :=
  match ancestors with
  | [] => []
  | anc :: rest =>
      if in_0_1 (get anc "level") then notes anc ++ inherited_notes rest
      else inherited_notes rest
  end.

(** The loop [for anc in reversed(ancestors)] with its [break]: [scan]
    walks the reversed chain and stops at the first true value; [current]
    is what the variable holds if it never stops. *)
Fixpoint scan (key : string) (current : value) (chain : list Node) : value :=
  match chain with
  | [] => current
  | anc :: rest =>
      let v := get anc key in
      if py_truthy v then v else scan key current rest
  end.

Definition inherit_policy (key : string) (node : Node)
           (ancestors : list Node) : value :=
  let own := get node key in
  if negb (py_truthy own) then scan key own (rev ancestors) else own.

(** The dictionary appended by one call of [traverse]; [None] when the
    breadcrumb cannot be joined. *)
Definition make_doc (node : Node) (ancestors : list Node) : option Doc :=
  match join_path (map (fun anc => get anc "item_description") ancestors
                     ++ [get node "item_description"]) with
  | None => None
  | Some crumb =>
      Some {| id := get node "hs_code";
              text := get node "item_description";
              level := get node "level";
              parent_id := parent_field ancestors "hs_code";
              parent_text := parent_field ancestors "item_description";
              breadcrumb := crumb;
              doc_notes := notes node ++ inherited_notes ancestors;
              unit := get node "unit";
              remark := get node "remark";
              basic_duty_sch := get node "basic_duty_sch_pct_display";
              basic_duty_ntfn := get node "basic_duty_ntfn_pct_display";
              igst := get node "igst_pct_display";
              sws_10pct := get node "sws_10pct_display";
              total_duty_sws_10pct_on_bcd :=
                get node "total_duty_sws_10pct_on_bcd_display";
              pref_duty := get node "pref_duty_a_pct_display";
              import_policy :=
                inherit_policy "import_policy_text" node ancestors;
              export_policy :=
                inherit_policy "export_policy_text" node ancestors |}
  end.

(** [traverse(node, ancestors)] : the documents it appends to [docs], in
    order; [None] when an exception leaves the function. *)
Fixpoint traverse (node : Node) (ancestors : list Node) {struct node}
  : option (list Doc) :=
  match node with
  | mkNode _ _ kids =>
      match make_doc node ancestors with
      | None => None
      | Some doc =>
          let chain := ancestors ++ [node] in
          match
            (fix each (cs : list Node) : option (list Doc) :=
               match cs with
               | [] => Some []
               | child :: cs' =>
                   match traverse child chain with
                   | None => None
                   | Some ds =>
                       match each cs' with
                       | None => None
                       | Some ds' => Some (ds ++ ds')
                       end
                   end
               end) kids
          with
          | None => None
          | Some below => Some (doc :: below)
          end
      end
  end.

(** The loop [for child in node.get("children", [])] on its own: the
    documents appended by the calls [traverse(child, chain)], in order. *)
Fixpoint traverse_each (cs : list Node) (chain : list Node)
  : option (list Doc) :=
  match cs with
  | [] => Some []
  | child :: cs' =>
      match traverse child chain with
      | None => None
      | Some ds =>
          match traverse_each cs' chain with
          | None => None
          | Some ds' => Some (ds ++ ds')
          end
      end
  end.

(** The loop [for root in data: traverse(root, [])]. *)
Fixpoint traverse_all (data : list Node) : option (list Doc) :=
  match data with
  | [] => Some []
  | r :: data' =>
      match traverse r [] with
      | None => None
      | Some ds =>
          match traverse_all data' with
          | None => None
          | Some ds' => Some (ds ++ ds')
          end
      end
  end.

(** [flatten_hsn_json_with_inherited], applied to the parsed content of
    the input file. *)
Definition flatten_hsn_json_with_inherited (data : list Node)
  : option (list Doc) :=
  traverse_all data.

End JsonFlatten.

(* ================================================================== *)
(** * Vocabulary of the builder's specification *)
(* ================================================================== *)

Module BuilderSpec.
Import PyText PyValue Tree ExcelToHierarchy.

(** [d] is an open depth of the table [lm], with node [p] open there,
    strictly less than [depth], and no open depth strictly less than
    [depth] is larger: the nearest shallower open ancestor. *)
Definition nearest_open (lm : gmap Z nat) (depth d : Z) (p : nat) : Prop :=
  lm !! d = Some p /\ d < depth /\
  forall d', is_Some (lm !! d') -> d' < depth -> d' <= d.

(** No depth strictly less than [depth] is open. *)
Definition none_open_below (lm : gmap Z nat) (depth : Z) : Prop :=
  forall d', is_Some (lm !! d') -> ~ d' < depth.

(** The depth the builder computes for a row. *)
Definition row_depth (cfg : Config) (row : Series) : Z :=
  depth_of (row_get row (level_col cfg) VNone).

(** The texts of a note row, said in words: the cells under the configured
    note columns that exist in the table, without the [nan] cells, each
    rendered with [str] and stripped. *)
Definition harvested (cols note_cols : list string) (row : Series)
  : list string :=
  map (fun v => strip (py_str v))
    (List.filter (fun v => negb (is_float_nan v))
       (map (fun col => row_get row col VNone)
          (List.filter (fun col => bool_decide (col ∈ cols)) note_cols))).

(** Truncation towards zero of the rational [m / q], [q > 0], said by its
    defining property. *)
Definition truncates (m q t : Z) : Prop :=
  Z.abs (t * q) <= Z.abs m < Z.abs (t * q) + q /\ 0 <= t * m.

(** No cell of the row under a note column of the table is [None]. *)
Definition note_cells_set (cols note_cols : list string) (row : Series)
  : Prop :=
  forall col, In col note_cols -> col ∈ cols ->
    row_get row col VNone <> VNone.

(** A code cell that the builder's normalisation leaves as it is: a text
    without whitespace. *)
Definition clean_code (v : value) : Prop :=
  exists s, v = VStr s /\ remove_whitespace s = s.

(** The store [h'] is [h] with [texts] appended to the notes of the node
    at address [t], and nothing else changed. *)
Definition notes_appended (h h' : list Cell) (t : nat) (texts : list string)
  : Prop :=
  length h' = length h /\
  (forall c, h !! t = Some c ->
     h' !! t = Some {| c_attrs := c_attrs c;
                       c_notes := c_notes c ++ texts;
                       c_children := c_children c |}) /\
  (forall q, q <> t -> h' !! q = h !! q).

End BuilderSpec.

(* ================================================================== *)
(** * Vocabulary of the flattener's specification *)
(* ================================================================== *)

Module FlattenSpec.
Import PyText PyValue Tree JsonFlatten.

(** [visits top chain0 node chain] : the call [traverse(top, chain0)]
    leads to the call [traverse(node, chain)].  Every child is visited
    with the chain of its parent extended by the parent. *)
Inductive visits : Node -> list Node -> Node -> list Node -> Prop :=
| visits_here (top : Node) (chain0 : list Node) :
    visits top chain0 top chain0
| visits_child (top : Node) (chain0 : list Node) (child node : Node)
               (chain : list Node) :
    In child (children top) ->
    visits child (chain0 ++ [top]) node chain ->
    visits top chain0 node chain.

(** An ancestor whose [level] is 0 or 1. *)
Definition qualifies (anc : Node) : bool := in_0_1 (get anc "level").

(** The notes a node inherits: those of every qualifying ancestor, in
    chain order, nothing removed. *)
Definition ancestor_notes (chain : list Node) : list string :=
  concat (map notes (List.filter qualifies chain)).

(** A value that is present and non-empty. *)
Definition non_empty (v : value) : bool := py_truthy v.

(** The policy rule said in words: the node's own value when it is present
    and non-empty; otherwise the first non-empty value met on the chain
    read from the nearest ancestor to the farthest; otherwise what the node
    itself holds under the key. *)
Definition policy_rule (key : string) (node : Node) (chain : list Node)
  : value :=
  if non_empty (get node key) then get node key
  else
    match List.find non_empty (map (fun anc => get anc key) (rev chain)) with
    | Some v => v
    | None => get node key
    end.

End FlattenSpec.

(* ================================================================== *)
(** * The pipeline and the vocabulary of its round trip *)
(* ================================================================== *)

Module Pipeline.
Import PyText PyValue Tree ExcelToHierarchy.

(** The two stages as the driver chains them: the forest returned by the
    builder is written to a JSON file and read back by the flattener.  The
    builder has replaced every [nan] by [None], so writing and reading
    gives back the same nested objects. *)
Definition pipeline (cfg : Config) (df : DataFrame)
  : option (list JsonFlatten.Doc) :=
  match build_hierarchy cfg df with
  | Some (_, forest) => JsonFlatten.flatten_hsn_json_with_inherited forest
  | None => None
  end.

(** The structural (non-note) rows of a table, in table order. *)
Definition structural_rows (cfg : Config) (df : DataFrame) : list Series :=
  List.filter (fun row => negb (is_note_row cfg row)) (iterrows df).

(** What the node built from a row holds under a key. *)
Definition node_field (key : string) (row : Series) : value :=
  default VNone (assoc key (c_attrs (new_cell row))).

(** The children of an address of the store. *)
Definition children_of (h : list Cell) (i : nat) : list nat :=
  match h !! i with
  | Some c => c_children c
  | None => []
  end.

(** The addresses met by a depth-first, parent-first walk from [i]. *)
Fixpoint preorder (fuel : nat) (h : list Cell) (i : nat) : list nat :=
  match fuel with
  | O => []
  | S fuel' => i :: flat_map (preorder fuel' h) (children_of h i)
  end.

(** What the node at an address holds under a key. *)
Definition cell_field (key : string) (h : list Cell) (i : nat) : value :=
  from_option (fun c => default VNone (assoc key (c_attrs c))) VNone (h !! i).

(** A node whose description is a text. *)
Definition has_text_description (n : Node) : Prop :=
  exists s, get n "item_description" = VStr s.

(** The store is a forest: children are younger than their parent, every
    address is held exactly once by the root list or by a [children] list,
    and the open-ancestor table points into the store. *)
Definition forest_store (st : State) : Prop :=
  (forall i c j, heap st !! i = Some c -> In j (c_children c) -> (i < j)%nat) /\
  root st ++ concat (map c_children (heap st))
    ≡ₚ seq 0 (length (heap st)) /\
  (forall d p, level_nodes st !! d = Some p -> (p < length (heap st))%nat).

(** The store holds, in order, the nodes built from the given rows. *)
Definition tracks (st : State) (rows : list Series) : Prop :=
  map c_attrs (heap st) = map (fun row => c_attrs (new_cell row)) rows.

End Pipeline.

(* ================================================================== *)
(** * Concrete rows and tables used below *)
(* ================================================================== *)

Module Inputs.
Import PyText PyValue CleanNorm.

(** A tariff heading with a 4-digit code and the marker ["--"]. *)
Definition heading_with_marker : Row :=
  {| item_description := VStr "Salt; pure sodium chloride";
     level := VStr "--";
     remark := VStr "Tariff";
     hs_code := VStr "2501" |}.

(** A tariff row that opens a chapter. *)
Definition tariff_chapter_row : Row :=
  {| item_description := VStr "  Chapter 25 - Salt; sulphur";
     level := VNaN;
     remark := VStr "Tariff";
     hs_code := VStr "25" |}.

(** The column labels of a small annotated table, already normalised. *)
Definition cols4 : list string :=
  ["hs_code"; "item_description"; "level"; "remark"].

Definition chapter_cells : list value :=
  [VStr "25"; VStr "Chapter 25"; VFloat (mkFloat 0 0 "0.0"); VNaN].

Definition heading_cells : list value :=
  [VStr "2501"; VStr "Salt"; VFloat (mkFloat 1 0 "1.0"); VStr "Tariff"].

Definition deep_cells : list value :=
  [VStr "25010010"; VStr "Common salt"; VFloat (mkFloat 2 0 "2.0");
   VStr "Tariff"].

(** A digit string where the level should be. *)
Definition text_level_cells : list value :=
  [VStr "2502"; VStr "Unroasted iron pyrites"; VStr "2"; VStr "Tariff"].

(** The level 2.75, that is 11 * 2 ^ -2. *)
Definition fraction_level_cells : list value :=
  [VStr "2503"; VStr "Sulphur"; VFloat (mkFloat 11 (-2) "2.75");
   VStr "Tariff"].

(** A note row whose description cell is the empty text. *)
Definition blank_note_cells : list value :=
  [VStr "nan"; VStr ""; VNaN; VStr "Notes"].

Definition heading_row : ExcelToHierarchy.Series := zip cols4 heading_cells.

(** The state of the loop after the chapter row alone. *)
Definition chapter_open : ExcelToHierarchy.State :=
  ExcelToHierarchy.run ExcelToHierarchy.default_config
    (ExcelToHierarchy.mkDataFrame cols4 [chapter_cells]).

(** Depths 0 then 2: a discontinuity that skips depth 1. *)
Definition skip_level_table : ExcelToHierarchy.DataFrame :=
  ExcelToHierarchy.mkDataFrame cols4 [chapter_cells; deep_cells].

(** A chapter followed by a note row with an empty description. *)
Definition blank_note_table : ExcelToHierarchy.DataFrame :=
  ExcelToHierarchy.mkDataFrame cols4 [chapter_cells; blank_note_cells].

(** A root node whose own policy text is present but empty. *)
Definition empty_policy_node : Tree.Node :=
  Tree.mkNode
    [("hs_code", VStr "25"); ("item_description", VStr "Chapter 25");
     ("level", VInt 0); ("import_policy_text", VStr "")]
    [] [].

(** The chain A (level 0, notes x) > B (level 1, notes y) > C (level 2). *)
Definition node_C : Tree.Node :=
  Tree.mkNode
    [("hs_code", VStr "25010010"); ("item_description", VStr "C");
     ("level", VInt 2)]
    [] [].

Definition node_B : Tree.Node :=
  Tree.mkNode
    [("hs_code", VStr "2501"); ("item_description", VStr "B");
     ("level", VInt 1); ("import_policy_text", VStr "Free")]
    ["y"] [node_C].

Definition node_A : Tree.Node :=
  Tree.mkNode
    [("hs_code", VStr "25"); ("item_description", VStr "A");
     ("level", VInt 0); ("import_policy_text", VStr "Restricted")]
    ["x"] [node_B].

(** A table as read from the spreadsheet: raw headers, a code with
    blanks. *)
Definition raw_table : ExcelToHierarchy.DataFrame :=
  ExcelToHierarchy.mkDataFrame
    ["HS Code"; "Item Description"; "Level"; "Remark"]
    [[VStr "2501 00 10"; VStr "Common salt"; VFloat (mkFloat 0 0 "0.0");
      VStr "Tariff"]].

(** Two structural rows whose codes differ only by a blank. *)
Definition spaced_codes_table : ExcelToHierarchy.DataFrame :=
  ExcelToHierarchy.mkDataFrame cols4
    [[VStr "2501 00"; VStr "Salt"; VFloat (mkFloat 1 0 "1.0"); VStr "Tariff"];
     [VStr "250100"; VStr "Salt, other"; VFloat (mkFloat 1 0 "1.0");
      VStr "Tariff"]].

(** A chapter followed by a blank separator row: every cell missing. *)
Definition blank_row_table : ExcelToHierarchy.DataFrame :=
  ExcelToHierarchy.mkDataFrame cols4 [chapter_cells; [VNaN; VNaN; VNaN; VNaN]].

(** A chapter, a note on it, and a heading. *)
Definition noted_table : ExcelToHierarchy.DataFrame :=
  ExcelToHierarchy.mkDataFrame cols4
    [chapter_cells;
     [VNaN; VStr "1. This chapter covers salt."; VNaN; VStr "Notes"];
     heading_cells].

End Inputs.

(* ================================================================== *)
(** * Policy links: [extract_policy_links] and [attach_policy_links] *)
(* ================================================================== *)

Module PolicyLinks.
Import PyText PyValue.

(** The character class [[\*\d,]]. *)
Definition is_marker (c : ascii) : bool :=
  Ascii.eqb c "*" || is_digit c || Ascii.eqb c ",".

(** The longest prefix of a list whose characters all satisfy [p], and the
    rest. *)
Fixpoint span (p : ascii -> bool) (l : list ascii)
  : list ascii * list ascii :=
  match l with
  | [] => ([], [])
  | c :: l' =>
      if p c then (c :: fst (span p l'), snd (span p l')) else ([], l)
  end.

(** [re.match(r"^(?P<text>.*?)(?P<refs>[\*\d,]+)$", s)] on a stripped
    text: the groups [text] and [refs].  The lazy [text] is the shortest
    prefix after which only marker characters follow, so [refs] is the
    longest trailing run of marker characters; it must not be empty, and
    [.] does not match a line feed. *)
Definition match_trailing_refs (s : string) : option (string * string) :=
  let parts := span is_marker (rev (list_ascii_of_string s)) in
  match fst parts with
  | [] => None
  | _ :: _ =>
      if existsb (Ascii.eqb "010") (snd parts) then None
      else Some (string_of_list_ascii (rev (snd parts)),
                 string_of_list_ascii (rev (fst parts)))
  end.

(** [refs.split(",")] on the characters. *)
Fixpoint split_commas (l : list ascii) : list (list ascii) :=
  match l with
  | [] => [[]]
  | c :: l' =>
      if Ascii.eqb c "," then [] :: split_commas l'
      else
        match split_commas l' with
        | part :: parts => (c :: part) :: parts
        | [] => [[c]]
        end
  end.

(** [list(part)] : the characters as one-character texts. *)
Definition chars_of (s : string) : list string :=
  map (fun c => String c EmptyString) (list_ascii_of_string s).

(** [set(part) == {"*"}] *)
Definition only_stars (s : string) : bool :=
  match s with
  | EmptyString => false
  | _ => all_chars (fun c => Ascii.eqb c "*") s
  end.

(** The body of the loop over the parts: what one part adds to [tokens]. *)
Definition tokens_of_part (part : string) : list string :=
  match part with
  | EmptyString => []
  | _ =>
      let part' := strip part in
      if only_stars part' then repeat "*" (String.length part')
      else chars_of part'
  end.

(** [extract_policy_links(cell)] : the pair (text, tokens). *)
Definition extract_policy_links (cell : value) : value * list string :=
  match cell with
  | VStr c =>
      let s := strip c in
      match match_trailing_refs s with
      | None => (VStr s, [])
      | Some (text, refs) =>
          (VStr (strip text),
           flat_map (fun part => tokens_of_part (string_of_list_ascii part))
                    (split_commas (list_ascii_of_string refs)))
      end
  | _ => (VNone, [])
  end.

(** The two columns that [attach_policy_links] computes from one policy
    column: the extracted pairs, transposed with [zip] and unpacked into
    the texts and the token lists.  The unpacking raises [ValueError] when
    the column has no rows. *)
Definition policy_columns (col : list value)
  : option (list value * list (list string)) :=
  match col with
  | [] => None
  | _ :: _ =>
      Some (map (fun cell => fst (extract_policy_links cell)) col,
            map (fun cell => snd (extract_policy_links cell)) col)
  end.

End PolicyLinks.

(* ================================================================== *)
(** * Further vocabulary: levels *)
(* ================================================================== *)

Module LevelSpec.
Import PyText PyValue CleanNorm.

(** The description, trimmed and lower-cased, starts with "chapter". *)
Definition starts_chapter (r : Row) : bool :=
  startswith "chapter" (desc_of r).

(** The raw marker is a text that, once stripped, is a run of hyphens. *)
Definition marker_run (raw : value) : bool :=
  match raw with
  | VStr s => fullmatch_hyphens (strip s)
  | _ => false
  end.

(** Only a text prints as a run of hyphens.  This holds of every Python
    value; here it is a condition on the printed form that a float
    carries. *)
Definition hyphen_run_is_text (raw : value) : Prop :=
  fullmatch_hyphens (py_str raw) = true -> exists s, raw = VStr s.

(** A text with whitespace around a run of hyphens. *)
Definition padded_run (s : string) : Prop :=
  fullmatch_hyphens (strip s) = true /\ strip s <> s.

End LevelSpec.

(* ================================================================== *)
(** * Further vocabulary: policy links *)
(* ================================================================== *)

Module PolicySpec.
Import PyText PyValue PolicyLinks.

(** The last character of a text is a marker character. *)
Definition ends_with_marker (s : string) : bool :=
  match rev (list_ascii_of_string s) with
  | c :: _ => is_marker c
  | [] => false
  end.

(** The text contains a line feed. *)
Definition has_line_feed (s : string) : bool :=
  existsb (Ascii.eqb "010") (list_ascii_of_string s).

(** The characters of a text other than commas, one text each. *)
Definition without_commas (refs : string) : list string :=
  chars_of (filter_chars (fun c => negb (Ascii.eqb c ",")) refs).

(** A token: one character, an asterisk or a digit. *)
Definition single_marker (t : string) : Prop :=
  exists c, t = String c EmptyString /\ (c = "*"%char \/ is_digit c = true).

End PolicySpec.

(* ================================================================== *)
(** * Further vocabulary: tables and forests *)
(* ================================================================== *)

Module ForestSpec.
Import PyText PyValue Tree ExcelToHierarchy Pipeline.

(** What the three character replacements of [normalize_header] do to one
    character, in their order: lower-case, blank to underscore, non-word
    character to underscore. *)
Definition header_char (c : ascii) : ascii :=
  let c1 := lower_char c in
  let c2 := if Ascii.eqb c1 " " then "_"%char else c1 in
  if is_word c2 then c2 else "_"%char.

(** A row of the caller's table as the loop of [build_hierarchy] reads it:
    under the normalised labels, with the code cell normalised. *)
Definition read_row (cfg : Config) (cols : list string) (cells : list value)
  : Series :=
  zip (map normalize_header cols)
      (set_column (map normalize_header cols) (hs_code_col cfg)
                  normalize_hs_cell cells).

(** A node and all its descendants, parents first. *)
Fixpoint nodes_of (n : Node) : list Node :=
  match n with
  | mkNode _ _ kids => n :: flat_map nodes_of kids
  end.

Definition forest_nodes (forest : list Node) : list Node :=
  flat_map nodes_of forest.

(** The attributes of the nodes built from the structural rows, in table
    order. *)
Definition row_nodes (cfg : Config) (df : DataFrame)
  : list (list (string * value)) :=
  map (fun row => c_attrs (new_cell row)) (structural_rows cfg df).

(** The nodes [ns] carry attributes of structural rows, in table order. *)
Definition in_row_order (cfg : Config) (df : DataFrame) (ns : list Node)
  : Prop :=
  sublist (map attrs ns) (row_nodes cfg df).

(** A list that does not begin with whitespace. *)
Definition head_ok (l : list ascii) : Prop :=
  match l with
  | c :: _ => is_space c = false
  | [] => True
  end.

(** The attributes stored at an address. *)
Definition cell_attrs (h : list Cell) (i : nat) : list (string * value) :=
  from_option c_attrs [] (h !! i).

(** The root list and every [children] list hold addresses in increasing
    order of creation. *)
Definition ordered_store (st : State) : Prop :=
  sublist (root st) (seq 0 (length (heap st))) /\
  forall i c, heap st !! i = Some c ->
    sublist (c_children c) (seq 0 (length (heap st))).

(** Every note in the store is a stripped text. *)
Definition stripped_store (st : State) : Prop :=
  Forall (fun c => Forall (fun t => strip t = t) (c_notes c)) (heap st).

(** The store of a forest without depth: every node is a root and none has
    children. *)
Definition flat_store (st : State) : Prop :=
  root st = seq 0 (length (heap st)) /\
  Forall (fun c => c_children c = []) (heap st).

(** What a node of the forest has in common with a cell of the store. *)
Definition node_of_cell (h : list Cell) (node : Node) (c : Cell) : Prop :=
  attrs node = c_attrs c /\ notes node = c_notes c /\
  map attrs (children node) = map (cell_attrs h) (c_children c).

End ForestSpec.

(* ================================================================== *)
(** * Further concrete rows and tables *)
(* ================================================================== *)

Module MoreInputs.
Import PyText PyValue Inputs.

(** A note row. *)
Definition note_cells : list value :=
  [VNaN; VStr "1. This chapter covers salt."; VNaN; VStr "Notes"].

(** A second chapter. *)
Definition chapter26_cells : list value :=
  [VStr "26"; VStr "Chapter 26"; VFloat (mkFloat 0 0 "0.0"); VNaN].

(** The state of the loop after a chapter and a heading. *)
Definition heading_open : ExcelToHierarchy.State :=
  ExcelToHierarchy.run ExcelToHierarchy.default_config
    (ExcelToHierarchy.mkDataFrame cols4 [chapter_cells; heading_cells]).

(** A table without a level column. *)
Definition cols3 : list string := ["hs_code"; "item_description"; "remark"].

Definition no_level_table : ExcelToHierarchy.DataFrame :=
  ExcelToHierarchy.mkDataFrame cols3
    [[VStr "25"; VStr "Chapter 25"; VNaN];
     [VNaN; VStr "1. This chapter covers salt."; VStr "Notes"];
     [VStr "2501"; VStr "Salt"; VStr "Tariff"]].

(** A chapter, a heading, a second chapter and a sub-heading. *)
Definition two_chapter_table : ExcelToHierarchy.DataFrame :=
  ExcelToHierarchy.mkDataFrame cols4
    [chapter_cells; heading_cells; chapter26_cells; deep_cells].

(** The table [noted_table] as a call leaves it, and the forest returned
    for it. *)
Definition noted_normalised : ExcelToHierarchy.DataFrame :=
  Eval vm_compute in
    default noted_table
      (fst <$> ExcelToHierarchy.build_hierarchy
                 ExcelToHierarchy.default_config noted_table).

Definition noted_forest : list Tree.Node :=
  Eval vm_compute in
    default []
      (snd <$> ExcelToHierarchy.build_hierarchy
                 ExcelToHierarchy.default_config noted_table).

(** The forests returned for [two_chapter_table] and [skip_level_table]. *)
Definition two_chapter_forest : list Tree.Node :=
  Eval vm_compute in
    default []
      (snd <$> ExcelToHierarchy.build_hierarchy
                 ExcelToHierarchy.default_config two_chapter_table).

Definition skip_level_forest : list Tree.Node :=
  Eval vm_compute in
    default []
      (snd <$> ExcelToHierarchy.build_hierarchy
                 ExcelToHierarchy.default_config skip_level_table).

End MoreInputs.

(* ================================================================== *)
(** * Further vocabulary: the walk of the flattener *)
(* ================================================================== *)

Module WalkSpec.
Import PyText PyValue Tree JsonFlatten.

(** The calls of [traverse] that the call [traverse(n, chain)] leads to,
    itself first, in the order they are made: every node with the chain
    it is visited with. *)
Fixpoint calls (n : Node) (chain : list Node) {struct n}
  : list (Node * list Node) :=
  match n with
  | mkNode _ _ kids =>
      (n, chain) :: flat_map (fun k => calls k (chain ++ [n])) kids
  end.

Definition forest_calls (data : list Node) : list (Node * list Node) :=
  flat_map (fun r => calls r []) data.

(** The document is the one that the call appends. *)
Definition emitted_by (doc : Doc) (call : Node * list Node) : Prop :=
  make_doc (fst call) (snd call) = Some doc.

(** The eleven fields that a document copies from its node. *)
Definition copies (doc : Doc) (node : Node) : Prop :=
  id doc = get node "hs_code" /\
  text doc = get node "item_description" /\
  level doc = get node "level" /\
  unit doc = get node "unit" /\
  remark doc = get node "remark" /\
  basic_duty_sch doc = get node "basic_duty_sch_pct_display" /\
  basic_duty_ntfn doc = get node "basic_duty_ntfn_pct_display" /\
  igst doc = get node "igst_pct_display" /\
  sws_10pct doc = get node "sws_10pct_display" /\
  total_duty_sws_10pct_on_bcd doc
    = get node "total_duty_sws_10pct_on_bcd_display" /\
  pref_duty doc = get node "pref_duty_a_pct_display".

(** A policy value handed down one level: the node's own value when it is
    non-empty, else the value of the parent's document when that one is
    non-empty, else the node's own value. *)
Definition own_or_parent (own handed_down : value) : value :=
  if py_truthy own then own
  else if py_truthy handed_down then handed_down else own.

(** Attributes whose description is a text. *)
Definition text_attrs (a : list (string * value)) : Prop :=
  exists s, default VNone (assoc "item_description" a) = VStr s.

(** The documents of the chain A > B > C. *)
Definition chain_docs : list Doc :=
  Eval vm_compute in
    default [] (flatten_hsn_json_with_inherited [Inputs.node_A]).

End WalkSpec.

(* ================================================================== *)
(** * Tables without depth, as a call leaves them, and their forests *)
(* ================================================================== *)

Module FlatInputs.
Import PyText PyValue Inputs MoreInputs.

Definition blank_row_normalised : ExcelToHierarchy.DataFrame :=
  Eval vm_compute in
    default blank_row_table
      (fst <$> ExcelToHierarchy.build_hierarchy
                 ExcelToHierarchy.default_config blank_row_table).

Definition blank_row_forest : list Tree.Node :=
  Eval vm_compute in
    default []
      (snd <$> ExcelToHierarchy.build_hierarchy
                 ExcelToHierarchy.default_config blank_row_table).

Definition no_level_normalised : ExcelToHierarchy.DataFrame :=
  Eval vm_compute in
    default no_level_table
      (fst <$> ExcelToHierarchy.build_hierarchy
                 ExcelToHierarchy.default_config no_level_table).

Definition no_level_forest : list Tree.Node :=
  Eval vm_compute in
    default []
      (snd <$> ExcelToHierarchy.build_hierarchy
                 ExcelToHierarchy.default_config no_level_table).

End FlatInputs.

(* ================================================================== *)
(** * Further vocabulary: depths in the forest *)
(* ================================================================== *)

Module DepthSpec.
Import PyText PyValue Tree ExcelToHierarchy Inputs MoreInputs.

(** The depth that the builder reads from the level cell that a node
    dictionary holds. *)
Definition cell_depth (cfg : Config) (c : Cell) : Z :=
  depth_of (default VNone (assoc (level_col cfg) (c_attrs c))).

Definition node_depth (cfg : Config) (n : Node) : Z :=
  depth_of (get n (level_col cfg)).

(** Depths in the store: the node open at a depth has that depth, every
    child is strictly deeper than its parent, and only nodes of depth 0 or
    1 hold notes. *)
Definition deepening (cfg : Config) (st : State) : Prop :=
  (forall d p, level_nodes st !! d = Some p ->
     exists c, heap st !! p = Some c /\ cell_depth cfg c = d) /\
  (forall i c j cj,
     heap st !! i = Some c -> In j (c_children c) ->
     heap st !! j = Some cj -> cell_depth cfg c < cell_depth cfg cj) /\
  (forall i c, heap st !! i = Some c -> c_notes c <> [] ->
     cell_depth cfg c = 0 \/ cell_depth cfg c = 1).

(** The chapter of [skip_level_forest] and its only child, and the
    chapter of [noted_forest]. *)
Definition skip_chapter : Node :=
  Eval vm_compute in hd (mkNode [] [] []) skip_level_forest.

Definition skip_child : Node :=
  Eval vm_compute in hd (mkNode [] [] []) (children skip_chapter).

Definition noted_chapter : Node :=
  Eval vm_compute in hd (mkNode [] [] []) noted_forest.

End DepthSpec.

(* ================================================================== *)
(** * Properties of the Level Assigner *)
(* ================================================================== *)

Section LevelAssigner.
Import PyText PyValue CleanNorm Inputs.

(** The three override masks are decided by [is_tariff]: outside tariff
    rows none of them holds. *)
Lemma masks_off_outside_tariff (r : Row) (raw : value) :
  is_tariff r = false ->
  mask_4d r = false /\ mask_hyph raw r = false /\ mask_other raw r = false.
Proof.
  intros Hnt. unfold mask_other, mask_4d, mask_hyph. rewrite Hnt. auto.
Qed.

(** A row that is not a tariff row keeps its seed. *)
Lemma non_tariff_keeps_seed (r : Row) :
  is_tariff r = false -> level_of_row r = seed_level (level r) r.
Proof.
  intros Hnt.
  destruct (masks_off_outside_tariff r (level r) Hnt) as (H4 & Hh & Ho).
  unfold level_of_row, override_other, override_hyph, override_4d.
  now rewrite Ho, Hh, H4.
Qed.

(** On a tariff row whose marker is a hyphen run, assignment b) is the
    last one to write the cell, whatever the code column holds. *)
Lemma tariff_hyphen_run_level (r : Row) (s : string) :
  is_tariff r = true ->
  level r = VStr s ->
  fullmatch_hyphens s = true ->
  level_of_row r = Some (len (strip s) + 1).
Proof.
  intros Ht Hraw Hs.
  unfold level_of_row, override_other, override_hyph, mask_other, mask_hyph.
  rewrite Hraw, Ht. cbn [py_str]. rewrite Hs. cbn.
  now rewrite andb_false_r.
Qed.

(** On a tariff row with a 4-digit code whose marker is not a hyphen
    run, the level is 1. *)
Lemma tariff_4d_no_run_level (r : Row) :
  is_tariff r = true ->
  fullmatch_4digits (py_str (hs_code r)) = true ->
  fullmatch_hyphens (py_str (level r)) = false ->
  level_of_row r = Some 1.
Proof.
  intros Ht H4 Hh.
  unfold level_of_row, override_other, override_hyph, override_4d,
    mask_other, mask_hyph, mask_4d.
  now rewrite Ht, H4, Hh.
Qed.

(** A hyphen run has nothing to strip. *)
Lemma lstrip_chars_hyphens (l : list ascii) :
  Forall (fun c => c = "-"%char) l -> lstrip_chars l = l.
Proof.
  intros Hall. destruct Hall as [|c l -> _]; reflexivity.
Qed.

Lemma all_chars_hyphens (s : string) :
  all_chars (fun c => Ascii.eqb c "-") s = true ->
  Forall (fun c => c = "-"%char) (list_ascii_of_string s).
Proof.
  induction s as [|c s IH]; cbn; [constructor|].
  intros H. apply andb_prop in H as [Hc Hs].
  constructor; [now apply Ascii.eqb_eq | now apply IH].
Qed.

Lemma strip_hyphens (s : string) :
  fullmatch_hyphens s = true -> strip s = s.
Proof.
  intros H.
  assert (Forall (fun c => c = "-"%char) (list_ascii_of_string s)) as Hall.
  { apply all_chars_hyphens. destruct s; [discriminate | exact H]. }
  unfold strip. rewrite (lstrip_chars_hyphens _ Hall).
  rewrite lstrip_chars_hyphens.
  - rewrite rev_involutive. apply string_of_list_ascii_of_string.
  - now apply List.Forall_rev.
Qed.

(** C1 (counterexample).  It is not true that every tariff row with a
    4-digit code gets level 1 whatever its marker: [heading_with_marker],
    with code ["2501"] and marker ["--"], gets level 3. *)
Lemma four_digit_level_one_fails_on_hyphen_run :
  ~ (forall r : Row,
       is_tariff r = true ->
       fullmatch_4digits (py_str (hs_code r)) = true ->
       level_of_row r = Some 1).
Proof.
  intros H. specialize (H heading_with_marker eq_refl eq_refl).
  discriminate H.
Qed.

(** C1 (amended).  A tariff row whose code is exactly four digits gets
    level 1 when its raw marker is not a pure hyphen run; when the marker
    is a pure hyphen run, the hyphen rule is applied after the 4-digit
    rule and the level is the run length plus one. *)
Theorem four_digit_tariff_level (r : Row) :
  is_tariff r = true ->
  fullmatch_4digits (py_str (hs_code r)) = true ->
  (fullmatch_hyphens (py_str (level r)) = false -> level_of_row r = Some 1) /\
  (forall s, level r = VStr s -> fullmatch_hyphens s = true ->
     level_of_row r = Some (len s + 1)).
Proof.
  intros Ht H4. split.
  - intros Hh. now apply tariff_4d_no_run_level.
  - intros s Hraw Hs.
    rewrite (tariff_hyphen_run_level r s Ht Hraw Hs).
    now rewrite strip_hyphens.
Qed.

Lemma four_digit_tariff_level_witness :
  level_of_row heading_with_marker = Some 3 /\
  level_of_row
    {| item_description := VStr "Salt"; level := VNaN;
       remark := VStr "Tariff"; hs_code := VInt 2501 |} = Some 1.
Proof.
  split.
  - apply (proj2 (four_digit_tariff_level heading_with_marker eq_refl eq_refl)
             "--"); reflexivity.
  - apply (proj1 (four_digit_tariff_level
                    {| item_description := VStr "Salt"; level := VNaN;
                       remark := VStr "Tariff"; hs_code := VInt 2501 |}
                    eq_refl eq_refl)); reflexivity.
Defined.

(** C3 (counterexample).  It is not true that every row whose description
    starts with "chapter" gets level 0: the tariff row
    [tariff_chapter_row] gets level 1. *)
Lemma chapter_level_zero_fails_on_tariff :
  ~ (forall r : Row,
       startswith "chapter" (desc_of r) = true -> level_of_row r = Some 0).
Proof.
  intros H. specialize (H tariff_chapter_row eq_refl). discriminate H.
Qed.

(** C3 (amended).  Every row that is not a tariff row and whose
    description, trimmed and lower-cased, starts with "chapter" gets
    level 0. *)
Theorem chapter_level_zero_outside_tariff (r : Row) :
  is_tariff r = false ->
  startswith "chapter" (desc_of r) = true ->
  level_of_row r = Some 0.
Proof.
  intros Hnt Hch. rewrite non_tariff_keeps_seed by assumption.
  unfold seed_level. now rewrite Hch.
Qed.

Lemma chapter_level_zero_outside_tariff_witness :
  level_of_row
    {| item_description := VStr " CHAPTER 1"; level := VStr "-";
       remark := VNaN; hs_code := VNaN |} = Some 0.
Proof.
  apply chapter_level_zero_outside_tariff; reflexivity.
Defined.

End LevelAssigner.

(* ================================================================== *)
(** * Properties of the Hierarchy Builder: one loop iteration *)
(* ================================================================== *)

Section BuilderStep.
Import PyText PyValue Tree ExcelToHierarchy BuilderSpec Inputs.

Lemma py_max_None (l : list Z) : py_max l = None <-> l = [].
Proof. destruct l; cbn; split; congruence. Qed.

Lemma foldr_max_bound (d : Z) (ds : list Z) :
  let m := foldr Z.max d ds in
  (m = d \/ In m ds) /\ d <= m /\ forall x, In x ds -> x <= m.
Proof.
  induction ds as [|a ds IH]; cbn.
  - split; [now left|]. split; [lia|]. intros x [].
  - destruct IH as (Hin & Hd & Hall).
    split; [|split].
    + destruct (Z.max_spec a (foldr Z.max d ds)) as [[_ ->]|[_ ->]].
      * destruct Hin as [->|Hin]; [now left | right; now right].
      * right; now left.
    + lia.
    + intros x [<-|Hx]; [lia|]. specialize (Hall x Hx). lia.
Qed.

Lemma py_max_Some (l : list Z) (k : Z) :
  py_max l = Some k -> In k l /\ forall x, In x l -> x <= k.
Proof.
  destruct l as [|d ds]; cbn; [discriminate|].
  intros [= <-].
  destruct (foldr_max_bound d ds) as (Hin & Hd & Hall).
  split.
  - destruct Hin as [->|Hin]; [now left | now right].
  - intros x [<-|Hx]; [exact Hd | now apply Hall].
Qed.

Lemma in_ancestors (lm : gmap Z nat) (depth d : Z) :
  In d (ancestors lm depth) <-> is_Some (lm !! d) /\ d < depth.
Proof.
  unfold ancestors. rewrite filter_In, in_map_iff, Z.ltb_lt.
  split.
  - intros [[[d' p] [Hfst Hin]] Hlt]. cbn in Hfst. subst d'.
    apply list_elem_of_In, elem_of_map_to_list in Hin.
    split; [eauto | exact Hlt].
  - intros [[p Hp] Hlt]. split; [|exact Hlt].
    exists (d, p). split; [reflexivity|].
    now apply list_elem_of_In, elem_of_map_to_list.
Qed.

(** [max(ancestors)] is the nearest shallower open depth. *)
Lemma py_max_ancestors_Some (lm : gmap Z nat) (depth d : Z) :
  py_max (ancestors lm depth) = Some d ->
  exists p, nearest_open lm depth d p.
Proof.
  intros H. apply py_max_Some in H as [Hin Hmax].
  apply in_ancestors in Hin as [[p Hp] Hlt].
  exists p. split; [exact Hp|]. split; [exact Hlt|].
  intros d' Hd' Hlt'. apply Hmax, in_ancestors. now split.
Qed.

Lemma py_max_ancestors_None (lm : gmap Z nat) (depth : Z) :
  py_max (ancestors lm depth) = None <-> none_open_below lm depth.
Proof.
  rewrite py_max_None. split.
  - intros Hnil d' Hd' Hlt.
    assert (In d' (ancestors lm depth)) as Hin by (apply in_ancestors; now split).
    rewrite Hnil in Hin. exact Hin.
  - intros Hnone. destruct (ancestors lm depth) as [|d ds] eqn:E; [reflexivity|].
    assert (In d (ancestors lm depth)) as Hin by (rewrite E; now left).
    apply in_ancestors in Hin as [Hd Hlt]. now destruct (Hnone d Hd).
Qed.

(** The nearest shallower open depth is unique. *)
Lemma nearest_open_unique (lm : gmap Z nat) (depth d1 d2 : Z) (p1 p2 : nat) :
  nearest_open lm depth d1 p1 -> nearest_open lm depth d2 p2 ->
  d1 = d2 /\ p1 = p2.
Proof.
  intros (H1 & L1 & M1) (H2 & L2 & M2).
  assert (d1 = d2) as ->.
  { apply Z.le_antisymm; [apply M2 | apply M1]; eauto. }
  split; [reflexivity | congruence].
Qed.

Lemma nearest_open_py_max (lm : gmap Z nat) (depth d : Z) (p : nat) :
  nearest_open lm depth d p ->
  py_max (ancestors lm depth) = Some d /\ lm !! d = Some p.
Proof.
  intros Hn. destruct (py_max (ancestors lm depth)) as [d'|] eqn:E.
  - destruct (py_max_ancestors_Some _ _ _ E) as [p' Hn'].
    destruct (nearest_open_unique _ _ _ _ _ _ Hn Hn') as [-> ->].
    split; [reflexivity | apply Hn'].
  - apply py_max_ancestors_None in E. destruct Hn as (Hp & Hlt & _).
    destruct (E d); eauto.
Qed.

(** Either some open depth is the nearest one below [depth], or none is
    open below it. *)
Lemma nearest_or_none (lm : gmap Z nat) (depth : Z) :
  (exists d p, nearest_open lm depth d p) \/ none_open_below lm depth.
Proof.
  destruct (py_max (ancestors lm depth)) as [d|] eqn:E.
  - left. exists d. now apply py_max_ancestors_Some.
  - right. now apply py_max_ancestors_None.
Qed.

(** ** The state after one iteration, case by case *)

Lemma step_structural_zero
      (cfg : Config) (cols : list string) (st : State) (row : Series) :
  is_note_row cfg row = false ->
  row_depth cfg row = 0 ->
  step cfg cols st row =
  {| heap := heap st ++ [new_cell row];
     root := root st ++ [length (heap st)];
     level_nodes := <[0 := length (heap st)]> (level_nodes st) |}.
Proof.
  intros Hnote Hd. unfold step. rewrite Hnote. unfold step_node.
  fold (row_depth cfg row). now rewrite Hd.
Qed.

Lemma step_structural_child
      (cfg : Config) (cols : list string) (st : State) (row : Series)
      (d : Z) (p : nat) :
  is_note_row cfg row = false ->
  row_depth cfg row <> 0 ->
  nearest_open (level_nodes st) (row_depth cfg row) d p ->
  step cfg cols st row =
  {| heap := alter (append_child (length (heap st))) p (heap st)
               ++ [new_cell row];
     root := root st;
     level_nodes := <[row_depth cfg row := length (heap st)]> (level_nodes st) |}.
Proof.
  intros Hnote Hd Hn. unfold step. rewrite Hnote. unfold step_node.
  fold (row_depth cfg row).
  destruct (row_depth cfg row =? 0) eqn:E; [apply Z.eqb_eq in E; contradiction|].
  apply nearest_open_py_max in Hn as [-> ->]. reflexivity.
Qed.

Lemma step_structural_orphan
      (cfg : Config) (cols : list string) (st : State) (row : Series) :
  is_note_row cfg row = false ->
  none_open_below (level_nodes st) (row_depth cfg row) ->
  step cfg cols st row =
  {| heap := heap st ++ [new_cell row];
     root := root st ++ [length (heap st)];
     level_nodes := <[row_depth cfg row := length (heap st)]> (level_nodes st) |}.
Proof.
  intros Hnote Hnone. unfold step. rewrite Hnote. unfold step_node.
  fold (row_depth cfg row).
  apply py_max_ancestors_None in Hnone. rewrite Hnone.
  now destruct (row_depth cfg row =? 0).
Qed.

Lemma step_note_attach
      (cfg : Config) (cols : list string) (st : State) (row : Series) (t : nat) :
  is_note_row cfg row = true ->
  note_target (level_nodes st) = Some t ->
  step cfg cols st row =
  {| heap := alter (append_notes (note_texts cols (prepared_note_cols cfg) row))
                   t (heap st);
     root := root st;
     level_nodes := level_nodes st |}.
Proof.
  intros Hnote Ht. unfold step. rewrite Hnote. unfold step_note. now rewrite Ht.
Qed.

Lemma step_note_drop
      (cfg : Config) (cols : list string) (st : State) (row : Series) :
  is_note_row cfg row = true ->
  note_target (level_nodes st) = None ->
  step cfg cols st row = st.
Proof.
  intros Hnote Ht. unfold step. rewrite Hnote. unfold step_note. now rewrite Ht.
Qed.

Lemma lookup_snoc_new (h : list Cell) (c : Cell) :
  (h ++ [c]) !! length h = Some c.
Proof. now rewrite list_lookup_middle. Qed.

Lemma lookup_snoc_alter (f : Cell -> Cell) (p : nat) (h : list Cell) (c : Cell) :
  (alter f p h ++ [c]) !! length h = Some c.
Proof. apply list_lookup_middle. now rewrite length_alter. Qed.

(** C4.  A structural row with computed depth [d > 0]: when [k] is the
    largest open depth strictly below [d], with node [p] open there, the
    new node (address [n]) is appended to the children of [p] and the root
    list is untouched; when no depth strictly below [d] is open, the new
    node is appended to the root list and no existing node changes; in
    both cases the new node becomes the open ancestor at depth [d]. *)
Theorem structural_row_attachment
        (cfg : Config) (cols : list string) (st : State) (row : Series) :
  is_note_row cfg row = false ->
  0 < row_depth cfg row ->
  let d := row_depth cfg row in
  let n := length (heap st) in
  let st' := step cfg cols st row in
  (forall k p, nearest_open (level_nodes st) d k p ->
     heap st' = alter (append_child n) p (heap st) ++ [new_cell row] /\
     root st' = root st /\
     forall c, heap st !! p = Some c ->
       exists c', heap st' !! p = Some c' /\
                  c_children c' = c_children c ++ [n] /\
                  c_notes c' = c_notes c /\ c_attrs c' = c_attrs c) /\
  (none_open_below (level_nodes st) d ->
     heap st' = heap st ++ [new_cell row] /\ root st' = root st ++ [n]) /\
  level_nodes st' = <[d := n]> (level_nodes st) /\
  heap st' !! n = Some (new_cell row).
Proof.
  intros Hnote Hpos d n st'.
  assert (row_depth cfg row <> 0) as Hnz by lia.
  split; [|split].
  - intros k p Hn. unfold st'.
    rewrite (step_structural_child cfg cols st row k p Hnote Hnz Hn). cbn.
    split; [reflexivity|]. split; [reflexivity|].
    intros c Hc. exists (append_child n c). split; [|now cbn].
    apply lookup_app_l_Some. rewrite list_lookup_alter_eq, Hc. reflexivity.
  - intros Hnone. unfold st'.
    rewrite (step_structural_orphan cfg cols st row Hnote Hnone). now cbn.
  - unfold st'. destruct (nearest_or_none (level_nodes st) d) as [(k & p & Hn)|Hnone].
    + rewrite (step_structural_child cfg cols st row k p Hnote Hnz Hn). cbn.
      split; [reflexivity | apply lookup_snoc_alter].
    + rewrite (step_structural_orphan cfg cols st row Hnote Hnone). cbn.
      split; [reflexivity | apply lookup_snoc_new].
Qed.

(** The heading row arriving while the chapter is open: it goes under the
    chapter (address 0) and becomes the open node at depth 1. *)
Lemma structural_row_attachment_witness :
  is_note_row default_config heading_row = false /\
  0 < row_depth default_config heading_row /\
  root (step default_config cols4 chapter_open heading_row)
    = root chapter_open /\
  c_children <$> heap (step default_config cols4 chapter_open heading_row)
    = [[1%nat]; []] /\
  level_nodes (step default_config cols4 chapter_open heading_row)
    = <[1 := 1%nat]> (level_nodes chapter_open).
Proof.
  destruct (structural_row_attachment default_config cols4 chapter_open
              heading_row eq_refl eq_refl) as (Hchild & _ & Hopen & _).
  destruct (Hchild 0 0%nat) as (Hheap & Hroot & _).
  { split; [reflexivity|]. split; [reflexivity|].
    intros d' [p Hp] _.
    destruct (decide (d' = 0)) as [->|Hne]; [lia|].
    exfalso. revert Hp.
    change (level_nodes chapter_open) with (<[0 := 0%nat]> (∅ : gmap Z nat)).
    rewrite lookup_insert_ne by congruence. now rewrite lookup_empty. }
  split; [reflexivity|]. split; [reflexivity|].
  split; [exact Hroot|]. split; [|exact Hopen].
  rewrite Hheap. reflexivity.
Defined.

(** ** Depth of a row *)

Lemma truncates_quot (m q : Z) : 0 < q -> truncates m q (Z.quot m q).
Proof.
  intros Hq. unfold truncates.
  assert (q <> 0) as Hq0 by lia.
  pose proof (Z.quot_rem' m q) as Hm.
  pose proof (Z.rem_bound_abs m q Hq0) as Hr.
  pose proof (Z.rem_sign_mul m q Hq0) as Hs.
  pose proof (Z.quot_div m q Hq0) as Hd.
  assert (Z.sgn q = 1) as Hsq by (apply Z.sgn_pos; lia).
  assert (0 <= Z.abs m / Z.abs q) as Hnn
    by (apply Z.div_pos; [apply Z.abs_nonneg | lia]).
  rewrite Hsq, Z.mul_1_r in Hd.
  split; [|rewrite Hd; nia].
  destruct (Z.abs_spec (Z.rem m q)) as [[? E]|[? E]];
  destruct (Z.abs_spec m) as [[? E']|[? E']];
  destruct (Z.abs_spec (Z.quot m q * q)) as [[? E'']|[? E'']];
  rewrite ?E' , ?E''; nia.
Qed.

Lemma float_trunc_spec (f : pyfloat) :
  (0 <= fl_exp f -> float_trunc f = fl_man f * 2 ^ fl_exp f) /\
  (fl_exp f < 0 ->
   truncates (fl_man f) (2 ^ (- fl_exp f)) (float_trunc f)).
Proof.
  unfold float_trunc. split; intros He.
  - apply Z.leb_le in He. now rewrite He.
  - assert ((0 <=? fl_exp f) = false) as -> by (apply Z.leb_gt; lia).
    apply truncates_quot. apply Z.pow_pos_nonneg; lia.
Qed.

(** A structural row always opens its node at its depth. *)
Lemma step_structural_opens
      (cfg : Config) (cols : list string) (st : State) (row : Series) :
  is_note_row cfg row = false ->
  level_nodes (step cfg cols st row)
  = <[row_depth cfg row := length (heap st)]> (level_nodes st).
Proof.
  intros Hnote. unfold step. rewrite Hnote. reflexivity.
Qed.

(** C10.  A structural row whose level cell is not of a numeric type (a
    text such as a digit string, or [None]) has depth 0 and its node is
    appended to the root list; a structural row whose level cell is a
    (finite) float has the depth [int] gives, the float truncated towards
    zero, and its node is opened at that depth. *)
Theorem level_cell_type_decides_depth
        (cfg : Config) (cols : list string) (st : State) (row : Series) :
  is_note_row cfg row = false ->
  (is_int_or_float (row_get row (level_col cfg) VNone) = false ->
     row_depth cfg row = 0 /\
     step cfg cols st row =
       {| heap := heap st ++ [new_cell row];
          root := root st ++ [length (heap st)];
          level_nodes := <[0 := length (heap st)]> (level_nodes st) |}) /\
  (forall f, row_get row (level_col cfg) VNone = VFloat f ->
     row_depth cfg row = float_trunc f /\
     level_nodes (step cfg cols st row)
       = <[float_trunc f := length (heap st)]> (level_nodes st) /\
     (0 <= fl_exp f -> float_trunc f = fl_man f * 2 ^ fl_exp f) /\
     (fl_exp f < 0 ->
      truncates (fl_man f) (2 ^ (- fl_exp f)) (float_trunc f))).
Proof.
  intros Hnote. split.
  - intros Hty.
    assert (row_depth cfg row = 0) as Hd.
    { unfold row_depth, depth_of. rewrite Hty. now rewrite andb_false_r. }
    split; [exact Hd | now apply step_structural_zero].
  - intros f Hf.
    assert (row_depth cfg row = float_trunc f) as Hd.
    { unfold row_depth, depth_of. now rewrite Hf. }
    split; [exact Hd|]. split.
    + rewrite step_structural_opens by assumption. now rewrite Hd.
    + apply float_trunc_spec.
Qed.

(** The digit string ["2"] as level gives depth 0 and a root node; the
    float 2.75 gives depth 2. *)
Lemma level_cell_type_decides_depth_witness :
  is_note_row default_config (zip cols4 text_level_cells) = false /\
  row_depth default_config (zip cols4 text_level_cells) = 0 /\
  root (step default_config cols4 chapter_open (zip cols4 text_level_cells))
    = [0%nat; 1%nat].
Proof.
  destruct (level_cell_type_decides_depth default_config cols4 chapter_open
              (zip cols4 text_level_cells) eq_refl) as [Htext _].
  destruct (Htext eq_refl) as [Hd Hst].
  split; [reflexivity|]. split; [exact Hd|].
  rewrite Hst. reflexivity.
Defined.

(** ** A discontinuity in the depths *)

(** C2 (counterexample).  On the table [skip_level_table], whose two rows
    have depths 0 and 2, the builder returns a single root, the depth-0
    node, and the depth-2 node is its child: it is not promoted to the
    root list. *)
Lemma depth_two_goes_under_depth_zero :
  snd <$> build_hierarchy default_config skip_level_table =
  Some [mkNode
          [("hs_code", VStr "25"); ("item_description", VStr "Chapter 25");
           ("level", VFloat (mkFloat 0 0 "0.0")); ("remark", VNone)]
          []
          [mkNode
             [("hs_code", VStr "25010010");
              ("item_description", VStr "Common salt");
              ("level", VFloat (mkFloat 2 0 "2.0"));
              ("remark", VStr "Tariff")]
             [] []]].
Proof. vm_compute. reflexivity. Qed.

(** C2 (amended).  A structural row of depth 0 directly followed by a
    structural row of depth 2, while no node is open at depth 1: the
    depth-0 node is appended to the root list and the depth-2 node is
    appended to the children of the depth-0 node, not to the root list. *)
Theorem depth_two_attaches_to_depth_zero
        (cfg : Config) (cols : list string) (st : State) (r0 r2 : Series) :
  is_note_row cfg r0 = false ->
  is_note_row cfg r2 = false ->
  row_depth cfg r0 = 0 ->
  row_depth cfg r2 = 2 ->
  level_nodes st !! 1 = None ->
  step cfg cols (step cfg cols st r0) r2 =
  {| heap := heap st ++ [append_child (S (length (heap st))) (new_cell r0);
                         new_cell r2];
     root := root st ++ [length (heap st)];
     level_nodes :=
       <[2 := S (length (heap st))]>
         (<[0 := length (heap st)]> (level_nodes st)) |}.
Proof.
  intros Hn0 Hn2 Hd0 Hd2 Hopen1.
  rewrite (step_structural_zero cfg cols st r0 Hn0 Hd0).
  set (n := length (heap st)).
  rewrite (step_structural_child cfg cols _ r2 0 n Hn2).
  - cbn [heap root level_nodes]. rewrite Hd2, length_app. cbn [length].
    fold n. rewrite Nat.add_1_r.
    rewrite alter_app_r_alt by (unfold n; lia).
    unfold n. rewrite Nat.sub_diag. cbn. now rewrite <- app_assoc.
  - rewrite Hd2. discriminate.
  - rewrite Hd2. cbn [level_nodes]. split; [apply lookup_insert_eq|].
    split; [lia|]. intros d' [p Hp] Hlt.
    destruct (decide (d' = 1)) as [->|Hne]; [|lia].
    rewrite lookup_insert_ne in Hp by discriminate. congruence.
Qed.

Lemma depth_two_attaches_to_depth_zero_witness :
  step default_config cols4
    (step default_config cols4 initial (zip cols4 chapter_cells))
    (zip cols4 deep_cells) =
  {| heap := [append_child 1 (new_cell (zip cols4 chapter_cells));
              new_cell (zip cols4 deep_cells)];
     root := [0%nat];
     level_nodes := <[2 := 1%nat]> (<[0 := 0%nat]> ∅) |}.
Proof.
  apply (depth_two_attaches_to_depth_zero default_config cols4 initial
           (zip cols4 chapter_cells) (zip cols4 deep_cells));
    reflexivity.
Defined.

(** ** Note rows *)

Lemma note_texts_harvested (cols note_cols : list string) (row : Series) :
  note_texts cols note_cols row = harvested cols note_cols row.
Proof.
  unfold note_texts, harvested.
  induction note_cols as [|col rest IH]; [reflexivity|].
  cbn [flat_map List.filter]. rewrite IH.
  destruct (bool_decide (col ∈ cols)); [|reflexivity].
  cbn [map List.filter].
  now destruct (is_float_nan (row_get row col VNone)).
Qed.

Lemma alter_notes_appended (h : list Cell) (t : nat) (texts : list string) :
  notes_appended h (alter (append_notes texts) t h) t texts.
Proof.
  split; [apply length_alter|]. split.
  - intros c Hc. now rewrite list_lookup_alter_eq, Hc.
  - intros q Hq. now apply list_lookup_alter_ne.
Qed.

(** C5 (counterexample).  A note row whose description is the empty text
    does contribute a note, the empty text: empty values are not
    skipped. *)
Lemma empty_note_is_appended :
  snd <$> build_hierarchy default_config blank_note_table =
    Some [mkNode
            [("hs_code", VStr "25"); ("item_description", VStr "Chapter 25");
             ("level", VFloat (mkFloat 0 0 "0.0")); ("remark", VNone)]
            [""] []].
Proof. vm_compute. reflexivity. Qed.

(** C5 (amended).  A note row never creates a node and never changes the
    root list or the open-ancestor table.  When none of its cells under
    the configured note columns is [None], its texts are the cells under
    the configured note columns present in the table, skipping only [nan]
    cells (an empty text is appended, as [""]), each rendered with [str]
    and stripped; they are appended to the notes of the node open at depth
    1 if there is one, else to the node open at depth 0.  When no node is
    open at depth 1 or 0 the row changes nothing.  What is appended for a
    [None] cell is left out. *)
Theorem note_row_attachment
        (cfg : Config) (cols : list string) (st : State) (row : Series) :
  is_note_row cfg row = true ->
  length (heap (step cfg cols st row)) = length (heap st) /\
  root (step cfg cols st row) = root st /\
  level_nodes (step cfg cols st row) = level_nodes st /\
  (note_cells_set cols (prepared_note_cols cfg) row ->
   forall t, level_nodes st !! 1 = Some t ->
     notes_appended (heap st) (heap (step cfg cols st row)) t
       (harvested cols (prepared_note_cols cfg) row)) /\
  (note_cells_set cols (prepared_note_cols cfg) row ->
   forall t, level_nodes st !! 1 = None -> level_nodes st !! 0 = Some t ->
     notes_appended (heap st) (heap (step cfg cols st row)) t
       (harvested cols (prepared_note_cols cfg) row)) /\
  (level_nodes st !! 1 = None -> level_nodes st !! 0 = None ->
     step cfg cols st row = st).
Proof.
  intros Hnote.
  assert (forall t, note_target (level_nodes st) = Some t ->
            step cfg cols st row =
            {| heap := alter (append_notes
                                (harvested cols (prepared_note_cols cfg) row))
                             t (heap st);
               root := root st; level_nodes := level_nodes st |}) as Hatt.
  { intros t Ht. rewrite <- note_texts_harvested.
    now apply step_note_attach. }
  split; [|split; [|split; [|split; [|split]]]].
  - destruct (note_target (level_nodes st)) as [t|] eqn:Et.
    + rewrite (Hatt t eq_refl). apply length_alter.
    + now rewrite step_note_drop.
  - destruct (note_target (level_nodes st)) as [t|] eqn:Et.
    + now rewrite (Hatt t eq_refl).
    + now rewrite step_note_drop.
  - destruct (note_target (level_nodes st)) as [t|] eqn:Et.
    + now rewrite (Hatt t eq_refl).
    + now rewrite step_note_drop.
  - intros _ t H1. rewrite (Hatt t).
    + apply alter_notes_appended.
    + unfold note_target. now rewrite H1.
  - intros _ t H1 H0. rewrite (Hatt t).
    + apply alter_notes_appended.
    + unfold note_target. now rewrite H1.
  - intros H1 H0. apply step_note_drop; [assumption|].
    unfold note_target. now rewrite H1.
Qed.

(** The blank note row arriving while only the chapter is open: its empty
    description is appended to the chapter. *)
Lemma note_row_attachment_witness :
  is_note_row default_config (zip cols4 blank_note_cells) = true /\
  length (heap (step default_config cols4 chapter_open
                  (zip cols4 blank_note_cells))) = 1%nat /\
  level_nodes (step default_config cols4 chapter_open
                 (zip cols4 blank_note_cells)) = level_nodes chapter_open /\
  harvested cols4 (prepared_note_cols default_config)
            (zip cols4 blank_note_cells) = [""] /\
  notes_appended (heap chapter_open)
    (heap (step default_config cols4 chapter_open
             (zip cols4 blank_note_cells)))
    0%nat
    (harvested cols4 (prepared_note_cols default_config)
               (zip cols4 blank_note_cells)).
Proof.
  assert (note_cells_set cols4 (prepared_note_cols default_config)
            (zip cols4 blank_note_cells)) as Hset.
  { intros col Hcol _. vm_compute in Hcol. destruct Hcol as [<-|[]].
    vm_compute. discriminate. }
  destruct (note_row_attachment default_config cols4 chapter_open
              (zip cols4 blank_note_cells) eq_refl)
    as (Hlen & _ & Hlm & _ & H0 & _).
  split; [reflexivity|]. split; [exact Hlen|]. split; [exact Hlm|].
  split; [vm_compute; reflexivity|].
  apply (H0 Hset 0%nat); vm_compute; reflexivity.
Defined.

End BuilderStep.

(* ================================================================== *)
(** * Properties of the Inheritance Flattener *)
(* ================================================================== *)

Section Flattener.
Import PyText PyValue Tree JsonFlatten FlattenSpec Inputs.

(** [traverse] unfolded once, with the loop over the children named. *)
Lemma traverse_eq (node : Node) (chain : list Node) :
  traverse node chain =
  match make_doc node chain with
  | None => None
  | Some doc =>
      match traverse_each (children node) (chain ++ [node]) with
      | None => None
      | Some below => Some (doc :: below)
      end
  end.
Proof.
  destruct node as [a ns kids]. cbn [traverse children].
  destruct (make_doc (mkNode a ns kids) chain) as [doc|]; [|reflexivity].
  set (chain' := chain ++ [mkNode a ns kids]).
  match goal with
  | |- match ?inner kids with _ => _ end = _ =>
      assert (forall cs, inner cs = traverse_each cs chain') as ->
  end; [|reflexivity].
  induction cs as [|c cs IH]; [reflexivity|].
  cbn [traverse_each]. rewrite <- IH. reflexivity.
Qed.

Lemma traverse_all_each (data : list Node) :
  traverse_all data = traverse_each data [].
Proof.
  induction data as [|r data IH]; [reflexivity|].
  cbn. now rewrite IH.
Qed.

(** Every document of a child's traversal is among the documents of the
    loop over all the children. *)
Lemma traverse_each_member (cs : list Node) (chain : list Node)
      (below : list Doc) (child : Node) :
  traverse_each cs chain = Some below ->
  In child cs ->
  exists ds, traverse child chain = Some ds /\ forall d, In d ds -> In d below.
Proof.
  revert below. induction cs as [|c cs IH]; intros below Hrun Hin; [destruct Hin|].
  cbn in Hrun.
  destruct (traverse c chain) as [ds|] eqn:Ec; [|discriminate].
  destruct (traverse_each cs chain) as [ds'|] eqn:Ecs; [|discriminate].
  injection Hrun as <-.
  destruct Hin as [->|Hin].
  - exists ds. split; [exact Ec|]. intros d Hd. apply in_or_app. now left.
  - destruct (IH ds' eq_refl Hin) as (ds0 & H0 & Hsub).
    exists ds0. split; [exact H0|]. intros d Hd. apply in_or_app. right. auto.
Qed.

(** Every visited node has its document, built from the node and its
    chain, in the output. *)
Lemma traverse_emits (top : Node) (chain0 : list Node) (node : Node)
      (chain : list Node) :
  visits top chain0 node chain ->
  forall docs, traverse top chain0 = Some docs ->
  exists doc, make_doc node chain = Some doc /\ In doc docs.
Proof.
  induction 1 as [top chain0 | top chain0 child node chain Hin Hv IH];
    intros docs Hrun; rewrite traverse_eq in Hrun.
  - destruct (make_doc top chain0) as [doc|]; [|discriminate].
    destruct (traverse_each _ _); [|discriminate].
    injection Hrun as <-. exists doc. split; [reflexivity | now left].
  - destruct (make_doc top chain0) as [doc0|]; [|discriminate].
    destruct (traverse_each _ _) as [below|] eqn:Eb; [|discriminate].
    injection Hrun as <-.
    destruct (traverse_each_member _ _ _ _ Eb Hin) as (ds & Hds & Hsub).
    destruct (IH ds Hds) as (doc & Hdoc & Hmem).
    exists doc. split; [exact Hdoc|]. right. auto.
Qed.

Lemma flatten_emits (data : list Node) (docs : list Doc)
      (top node : Node) (chain : list Node) :
  flatten_hsn_json_with_inherited data = Some docs ->
  In top data ->
  visits top [] node chain ->
  exists doc, make_doc node chain = Some doc /\ In doc docs.
Proof.
  unfold flatten_hsn_json_with_inherited. rewrite traverse_all_each.
  intros Hrun Hin Hv.
  destruct (traverse_each_member _ _ _ _ Hrun Hin) as (ds & Hds & Hsub).
  destruct (traverse_emits _ _ _ _ Hv ds Hds) as (doc & Hdoc & Hmem).
  exists doc. split; [exact Hdoc | auto].
Qed.

(** ** Notes and breadcrumb *)

Lemma inherited_notes_spec (chain : list Node) :
  inherited_notes chain = ancestor_notes chain.
Proof.
  unfold ancestor_notes.
  induction chain as [|anc rest IH]; [reflexivity|].
  cbn [inherited_notes List.filter]. unfold qualifies at 1.
  destruct (in_0_1 (get anc "level")); cbn; now rewrite IH.
Qed.

Lemma mapM_as_str (path : list value) (parts : list string) :
  mapM as_str path = Some parts -> path = map VStr parts.
Proof.
  intros H. apply mapM_Some in H.
  induction H as [|v s path parts Hv _ IH]; [reflexivity|].
  cbn. rewrite <- IH. destruct v; try discriminate.
  now injection Hv as ->.
Qed.

Lemma join_path_spec (path : list value) (crumb : string) :
  join_path path = Some crumb ->
  exists parts, path = map VStr parts /\ crumb = join " > " parts.
Proof.
  unfold join_path. destruct (mapM as_str path) as [parts|] eqn:E; [|discriminate].
  intros [= <-]. exists parts. split; [now apply mapM_as_str | reflexivity].
Qed.

(** The inherited fields of an emitted document. *)
Lemma make_doc_fields (node : Node) (chain : list Node) (doc : Doc) :
  make_doc node chain = Some doc ->
  doc_notes doc = notes node ++ inherited_notes chain /\
  join_path (map (fun anc => get anc "item_description") chain
               ++ [get node "item_description"]) = Some (breadcrumb doc) /\
  import_policy doc = inherit_policy "import_policy_text" node chain /\
  export_policy doc = inherit_policy "export_policy_text" node chain.
Proof.
  unfold make_doc. destruct (join_path _) as [crumb|]; [|discriminate].
  intros [= <-]. cbn. auto.
Qed.

(** C6.  For every node that the flattener visits, with its chain of
    ancestors from the root down to its parent, the output holds the
    node's document; its notes are the node's own notes followed by the
    notes of every ancestor whose level is 0 or 1, in chain order and
    without removing duplicates; its breadcrumb is the descriptions of the
    ancestors and then of the node, joined by [" > "]. *)
Theorem flat_record_notes_and_breadcrumb
        (data : list Node) (docs : list Doc)
        (top node : Node) (chain : list Node) :
  flatten_hsn_json_with_inherited data = Some docs ->
  In top data ->
  visits top [] node chain ->
  exists doc descriptions,
    In doc docs /\
    make_doc node chain = Some doc /\
    doc_notes doc = notes node ++ ancestor_notes chain /\
    map (fun n => get n "item_description") (chain ++ [node])
      = map VStr descriptions /\
    breadcrumb doc = join " > " descriptions.
Proof.
  intros Hrun Hin Hv.
  destruct (flatten_emits _ _ _ _ _ Hrun Hin Hv) as (doc & Hdoc & Hmem).
  destruct (make_doc_fields _ _ _ Hdoc) as (Hnotes & Hcrumb & _).
  apply join_path_spec in Hcrumb as (parts & Hpath & Hjoin).
  exists doc, parts. split; [exact Hmem|]. split; [exact Hdoc|].
  split; [now rewrite Hnotes, inherited_notes_spec|].
  split; [|exact Hjoin].
  rewrite map_app. exact Hpath.
Qed.

(** The chain A > B > C: the record of C has the notes of A then B, and
    the breadcrumb "A > B > C". *)
Lemma flat_record_notes_and_breadcrumb_witness :
  exists doc,
    In doc (default [] (flatten_hsn_json_with_inherited [node_A])) /\
    make_doc node_C [node_A; node_B] = Some doc /\
    doc_notes doc = ["x"; "y"] /\
    breadcrumb doc = "A > B > C".
Proof.
  destruct (flat_record_notes_and_breadcrumb [node_A] _ node_A node_C
              [node_A; node_B] eq_refl (or_introl eq_refl))
    as (doc & ds & Hmem & Hdoc & Hnotes & Hds & Hcrumb).
  { apply visits_child with (child := node_B); [now left|].
    apply visits_child with (child := node_C); [now left|].
    apply visits_here. }
  exists doc. split; [exact Hmem|]. split; [exact Hdoc|].
  split; [exact Hnotes|].
  assert (ds = ["A"; "B"; "C"]) as ->; [|exact Hcrumb].
  cbn in Hds.
  destruct ds as [|a [|b [|c [|]]]]; try discriminate.
  now injection Hds as <- <- <-.
Defined.

(** ** Policy fields *)

Lemma scan_spec (key : string) (own : value) (l : list Node) :
  scan key own l =
  match List.find non_empty (map (fun anc => get anc key) l) with
  | Some v => v
  | None => own
  end.
Proof.
  induction l as [|anc rest IH]; [reflexivity|].
  cbn [scan map List.find]. unfold non_empty at 1.
  destruct (py_truthy (get anc key)); [reflexivity | exact IH].
Qed.

Lemma inherit_policy_spec (key : string) (node : Node) (chain : list Node) :
  inherit_policy key node chain = policy_rule key node chain.
Proof.
  unfold inherit_policy, policy_rule, non_empty.
  destruct (py_truthy (get node key)); cbn [negb]; [reflexivity|].
  rewrite scan_spec, map_rev. reflexivity.
Qed.

(** C7 (counterexample).  The root [empty_policy_node] holds the empty
    text as its own import policy and has no ancestor: its record carries
    the empty text, not the unset value. *)
Lemma empty_own_policy_is_kept :
  map import_policy <$> flatten_hsn_json_with_inherited [empty_policy_node]
  = Some [VStr ""] /\ VStr "" <> VNone.
Proof. split; [vm_compute; reflexivity | discriminate]. Qed.

(** C7 (amended).  For every node that the flattener visits and each of
    the two policy fields: the node's own value is used when it is present
    and non-empty; otherwise the first non-empty value met on the ancestor
    chain read nearest-to-farthest; and when there is none the record
    keeps what the node itself holds: unset ([None]) when the node has no
    value under the key, the node's own empty value otherwise. *)
Theorem flat_record_policies
        (data : list Node) (docs : list Doc)
        (top node : Node) (chain : list Node) :
  flatten_hsn_json_with_inherited data = Some docs ->
  In top data ->
  visits top [] node chain ->
  exists doc,
    In doc docs /\
    make_doc node chain = Some doc /\
    import_policy doc = policy_rule "import_policy_text" node chain /\
    export_policy doc = policy_rule "export_policy_text" node chain /\
    (forall key, assoc key (attrs node) = None ->
       List.find non_empty (map (fun anc => get anc key) (rev chain)) = None ->
       policy_rule key node chain = VNone).
Proof.
  intros Hrun Hin Hv.
  destruct (flatten_emits _ _ _ _ _ Hrun Hin Hv) as (doc & Hdoc & Hmem).
  destruct (make_doc_fields _ _ _ Hdoc) as (_ & _ & Himp & Hexp).
  exists doc. split; [exact Hmem|]. split; [exact Hdoc|].
  split; [now rewrite Himp, inherit_policy_spec|].
  split; [now rewrite Hexp, inherit_policy_spec|].
  intros key Hkey Hnone. unfold policy_rule. rewrite Hnone.
  replace (get node key) with VNone by (unfold get; now rewrite Hkey).
  reflexivity.
Qed.

(** In the chain A > B > C, C has no policy of its own and takes the one
    of B, the nearest ancestor, not the one of A. *)
Lemma flat_record_policies_witness :
  exists doc,
    In doc (default [] (flatten_hsn_json_with_inherited [node_A])) /\
    make_doc node_C [node_A; node_B] = Some doc /\
    import_policy doc = VStr "Free" /\
    export_policy doc = VNone.
Proof.
  destruct (flat_record_policies [node_A] _ node_A node_C
              [node_A; node_B] eq_refl (or_introl eq_refl))
    as (doc & Hmem & Hdoc & Himp & Hexp & _).
  { apply visits_child with (child := node_B); [now left|].
    apply visits_child with (child := node_C); [now left|].
    apply visits_here. }
  exists doc. split; [exact Hmem|]. split; [exact Hdoc|].
  split; [exact Himp | exact Hexp].
Defined.

End Flattener.

(* ================================================================== *)
(** * The builder's store is a forest *)
(* ================================================================== *)

Section BuilderInvariant.
Import PyText PyValue Tree ExcelToHierarchy BuilderSpec Pipeline.

(** The four shapes of the state after one iteration. *)
Lemma step_cases (cfg : Config) (cols : list string) (st : State) (row : Series) :
  (is_note_row cfg row = false /\
   exists d, step cfg cols st row =
     {| heap := heap st ++ [new_cell row];
        root := root st ++ [length (heap st)];
        level_nodes := <[d := length (heap st)]> (level_nodes st) |}) \/
  (is_note_row cfg row = false /\
   exists d k p, level_nodes st !! k = Some p /\
     step cfg cols st row =
     {| heap := alter (append_child (length (heap st))) p (heap st)
                  ++ [new_cell row];
        root := root st;
        level_nodes := <[d := length (heap st)]> (level_nodes st) |}) \/
  (is_note_row cfg row = true /\
   exists t ts, step cfg cols st row =
     {| heap := alter (append_notes ts) t (heap st);
        root := root st;
        level_nodes := level_nodes st |}) \/
  (is_note_row cfg row = true /\ step cfg cols st row = st).
Proof.
  destruct (is_note_row cfg row) eqn:Hnote.
  - right. right.
    destruct (note_target (level_nodes st)) as [t|] eqn:Et.
    + left. split; [reflexivity|]. exists t. eexists.
      now apply step_note_attach.
    + right. split; [reflexivity|]. now apply step_note_drop.
  - destruct (Z.eq_dec (row_depth cfg row) 0) as [Hz|Hnz].
    + left. split; [reflexivity|]. exists 0.
      now apply step_structural_zero.
    + destruct (nearest_or_none (level_nodes st) (row_depth cfg row))
        as [(k & p & Hn)|Hnone].
      * right. left. split; [reflexivity|].
        exists (row_depth cfg row), k, p. split; [apply Hn|].
        now apply (step_structural_child cfg cols st row k p).
      * left. split; [reflexivity|]. exists (row_depth cfg row).
        now apply step_structural_orphan.
Qed.

Lemma children_after_append_notes (ts : list string) (t : nat) (h : list Cell) :
  map c_children (alter (append_notes ts) t h) = map c_children h.
Proof.
  revert t. induction h as [|c h IH]; intros [|t]; cbn; try reflexivity.
  now rewrite IH.
Qed.

Lemma attrs_after_append_notes (ts : list string) (t : nat) (h : list Cell) :
  map c_attrs (alter (append_notes ts) t h) = map c_attrs h.
Proof.
  revert t. induction h as [|c h IH]; intros [|t]; cbn; try reflexivity.
  now rewrite IH.
Qed.

Lemma attrs_after_append_child (j p : nat) (h : list Cell) :
  map c_attrs (alter (append_child j) p h) = map c_attrs h.
Proof.
  revert p. induction h as [|c h IH]; intros [|p]; cbn; try reflexivity.
  now rewrite IH.
Qed.

Lemma children_after_append_child (j p : nat) (h : list Cell) :
  (p < length h)%nat ->
  concat (map c_children (alter (append_child j) p h))
    ≡ₚ j :: concat (map c_children h).
Proof.
  revert p. induction h as [|c h IH]; intros [|p] Hp; cbn in *; try lia.
  - rewrite <- app_assoc. cbn.
    rewrite <- Permutation_middle. reflexivity.
  - rewrite IH by lia. symmetry. apply Permutation_middle.
Qed.

Lemma forest_store_initial : forest_store initial.
Proof.
  split; [|split].
  - intros i c j Hi. cbn in Hi. now rewrite lookup_nil in Hi.
  - reflexivity.
  - intros d p Hp. cbn in Hp. now rewrite lookup_empty in Hp.
Qed.

Lemma forest_store_new_root (st : State) (c : Cell) (d : Z) :
  c_children c = [] ->
  forest_store st ->
  forest_store
    {| heap := heap st ++ [c];
       root := root st ++ [length (heap st)];
       level_nodes := <[d := length (heap st)]> (level_nodes st) |}.
Proof.
  intros Hc (Hyoung & Hperm & Hopen). split; [|split]; cbn [heap root level_nodes].
  - intros i c' j Hi Hj.
    apply lookup_app_Some in Hi as [Hi|[_ Hi]]; [now apply (Hyoung i c')|].
    apply list_lookup_singleton_Some in Hi as [_ <-].
    rewrite Hc in Hj. destruct Hj.
  - rewrite map_app, concat_app, length_app. cbn [map concat length].
    rewrite Hc. cbn [app]. rewrite app_nil_r, Nat.add_1_r, seq_S. cbn [Nat.add].
    rewrite <- Hperm, <- !app_assoc.
    apply Permutation_app_head, Permutation_app_comm.
  - intros d' p Hp. rewrite length_app. cbn [length].
    destruct (decide (d = d')) as [->|Hne].
    + rewrite lookup_insert_eq in Hp. injection Hp as <-. lia.
    + rewrite lookup_insert_ne in Hp by assumption.
      specialize (Hopen d' p Hp). lia.
Qed.

Lemma forest_store_new_child (st : State) (c : Cell) (d k : Z) (p : nat) :
  c_children c = [] ->
  level_nodes st !! k = Some p ->
  forest_store st ->
  forest_store
    {| heap := alter (append_child (length (heap st))) p (heap st) ++ [c];
       root := root st;
       level_nodes := <[d := length (heap st)]> (level_nodes st) |}.
Proof.
  intros Hc Hk (Hyoung & Hperm & Hopen).
  pose proof (Hopen k p Hk) as Hp.
  split; [|split]; cbn [heap root level_nodes].
  - intros i c' j Hi Hj.
    apply lookup_app_Some in Hi as [Hi|[_ Hi]].
    + destruct (decide (i = p)) as [->|Hne].
      * rewrite list_lookup_alter_eq in Hi.
        destruct (heap st !! p) as [c0|] eqn:E0; [|discriminate].
        injection Hi as <-. cbn in Hj.
        apply in_app_or in Hj as [Hj|[<-|[]]]; [now apply (Hyoung p c0) | exact Hp].
      * rewrite list_lookup_alter_ne in Hi by congruence.
        now apply (Hyoung i c').
    + apply list_lookup_singleton_Some in Hi as [_ <-].
      rewrite Hc in Hj. destruct Hj.
  - rewrite map_app, concat_app, length_app, length_alter.
    cbn [map concat length]. rewrite Hc. cbn [app].
    rewrite app_nil_r, Nat.add_1_r, seq_S.
    cbn [Nat.add]. rewrite children_after_append_child by exact Hp.
    rewrite <- Hperm. rewrite <- Permutation_middle.
    rewrite <- app_assoc. symmetry. rewrite <- !Permutation_middle.
    now rewrite app_nil_r.
  - intros d' q Hq. rewrite length_app, length_alter. cbn [length].
    destruct (decide (d = d')) as [->|Hne].
    + rewrite lookup_insert_eq in Hq. injection Hq as <-. lia.
    + rewrite lookup_insert_ne in Hq by assumption.
      specialize (Hopen d' q Hq). lia.
Qed.

Lemma forest_store_new_notes (st : State) (t : nat) (ts : list string) :
  forest_store st ->
  forest_store
    {| heap := alter (append_notes ts) t (heap st);
       root := root st;
       level_nodes := level_nodes st |}.
Proof.
  intros (Hyoung & Hperm & Hopen).
  split; [|split]; cbn [heap root level_nodes].
  - intros i c j Hi Hj.
    destruct (decide (i = t)) as [->|Hne].
    + rewrite list_lookup_alter_eq in Hi.
      destruct (heap st !! t) as [c0|] eqn:E0; [|discriminate].
      injection Hi as <-. now apply (Hyoung t c0).
    + rewrite list_lookup_alter_ne in Hi by congruence.
      now apply (Hyoung i c).
  - now rewrite children_after_append_notes, length_alter.
  - intros d p Hp. rewrite length_alter. now apply (Hopen d).
Qed.

(** One iteration keeps the store a forest, and the store grows by the
    node of the row exactly when the row is structural. *)
Lemma step_preserves (cfg : Config) (cols : list string) (st : State)
      (row : Series) (done : list Series) :
  forest_store st -> tracks st done ->
  forest_store (step cfg cols st row) /\
  tracks (step cfg cols st row)
         (done ++ if is_note_row cfg row then [] else [row]).
Proof.
  intros Hfs Htr. unfold tracks in *.
  destruct (step_cases cfg cols st row)
    as [(Hn & d & ->)|[(Hn & d & k & p & Hk & ->)|[(Hn & t & ts & ->)|(Hn & ->)]]];
    rewrite Hn; cbn [heap].
  - split; [now apply forest_store_new_root|].
    now rewrite !map_app, Htr.
  - split; [now apply (forest_store_new_child st _ d k p)|].
    now rewrite !map_app, attrs_after_append_child, Htr.
  - split; [now apply forest_store_new_notes|].
    now rewrite attrs_after_append_notes, app_nil_r.
  - split; [assumption | now rewrite app_nil_r].
Qed.

Lemma foldl_step_preserves (cfg : Config) (cols : list string)
      (rows : list Series) (st : State) (done : list Series) :
  forest_store st -> tracks st done ->
  forest_store (foldl (step cfg cols) st rows) /\
  tracks (foldl (step cfg cols) st rows)
         (done ++ List.filter (fun row => negb (is_note_row cfg row)) rows).
Proof.
  revert st done. induction rows as [|row rows IH]; intros st done Hfs Htr.
  - cbn. now rewrite app_nil_r.
  - cbn [foldl List.filter].
    destruct (step_preserves cfg cols st row done Hfs Htr) as [Hfs' Htr'].
    specialize (IH _ _ Hfs' Htr').
    destruct (is_note_row cfg row); cbn [negb] in *.
    + now rewrite app_nil_r in IH.
    + now rewrite <- app_assoc in IH.
Qed.

(** After the loop the store is a forest that holds one node per
    structural row, in table order. *)
Lemma run_forest_store (cfg : Config) (df : DataFrame) :
  forest_store (run cfg df) /\ tracks (run cfg df) (structural_rows cfg df).
Proof.
  unfold run, structural_rows.
  apply (foldl_step_preserves cfg (columns df) (iterrows df) initial []).
  - apply forest_store_initial.
  - reflexivity.
Qed.

End BuilderInvariant.

(* ================================================================== *)
(** * Walking a forest store *)
(* ================================================================== *)

Section StoreWalk.
Import PyText PyValue Tree ExcelToHierarchy BuilderSpec Pipeline.

Variable h : list Cell.

(** Children are younger than their parent and lie in the store. *)
Hypothesis children_younger :
  forall i j, In j (children_of h i) -> (i < j)%nat.
Hypothesis children_in_store :
  forall i j, In j (children_of h i) -> (j < length h)%nat.

Lemma flat_map_ext_in {A B : Type} (f g : A -> list B) (l : list A) :
  (forall a, In a l -> f a = g a) -> flat_map f l = flat_map g l.
Proof.
  induction l as [|a l IH]; intros Hfg; [reflexivity|].
  cbn. rewrite (Hfg a) by now left.
  rewrite IH; [reflexivity|]. intros b Hb. apply Hfg. now right.
Qed.

(** Enough fuel is enough: the walk from [i] needs [length h - i]. *)
Lemma preorder_fuel (f1 : nat) :
  forall f2 i, (i < length h)%nat ->
    (length h - i <= f1)%nat -> (length h - i <= f2)%nat ->
    preorder f1 h i = preorder f2 h i.
Proof.
  induction f1 as [|f1 IH]; intros f2 i Hi H1 H2; [lia|].
  destruct f2 as [|f2]; [lia|].
  cbn [preorder]. f_equal. apply flat_map_ext_in. intros j Hj.
  pose proof (children_younger i j Hj).
  pose proof (children_in_store i j Hj).
  apply IH; lia.
Qed.

(** The same for reading off the nested object: the result of
    [build_hierarchy] does not depend on the fuel, once there is enough. *)
Lemma reify_fuel (f1 : nat) :
  forall f2 i, (i < length h)%nat ->
    (length h - i <= f1)%nat -> (length h - i <= f2)%nat ->
    reify f1 h i = reify f2 h i.
Proof.
  induction f1 as [|f1 IH]; intros f2 i Hi H1 H2; [lia|].
  destruct f2 as [|f2]; [lia|].
  cbn [reify]. destruct (h !! i) as [c|] eqn:Ec; [|reflexivity].
  f_equal. apply map_ext_in. intros j Hj.
  assert (In j (children_of h i)) as Hj'
    by (unfold children_of; now rewrite Ec).
  pose proof (children_younger i j Hj').
  pose proof (children_in_store i j Hj').
  apply IH; lia.
Qed.

(** The walk with the fuel the builder's result is read with. *)
Lemma preorder_unfold (i : nat) :
  (i < length h)%nat ->
  preorder (length h) h i
  = i :: flat_map (preorder (length h) h) (children_of h i).
Proof.
  intros Hi.
  transitivity (preorder (S (length h)) h i); [|reflexivity].
  apply preorder_fuel; lia.
Qed.

Lemma preorder_list (l : list nat) :
  (forall i, In i l -> (i < length h)%nat) ->
  flat_map (preorder (length h) h) l
    ≡ₚ l ++ flat_map (preorder (length h) h) (flat_map (children_of h) l).
Proof.
  induction l as [|i l IH]; intros Hl; [reflexivity|].
  cbn [flat_map]. rewrite preorder_unfold by (apply Hl; now left).
  rewrite flat_map_app. cbn [app]. constructor.
  rewrite IH by (intros k Hk; apply Hl; now right).
  rewrite !app_assoc. apply Permutation_app_tail, Permutation_app_comm.
Qed.

Lemma map_lookup_seq {A : Type} (g : Cell -> A) (dflt : A) (h0 h1 : list Cell) :
  map (fun i => from_option g dflt ((h0 ++ h1) !! i))
      (seq (length h0) (length h1))
  = map g h1.
Proof.
  revert h0. induction h1 as [|c h1 IH]; intros h0; [reflexivity|].
  cbn [length seq map]. rewrite list_lookup_middle by reflexivity.
  cbn [from_option]. f_equal.
  specialize (IH (h0 ++ [c])).
  rewrite <- app_assoc, length_app, Nat.add_1_r in IH. exact IH.
Qed.

Lemma children_of_all :
  flat_map (children_of h) (seq 0 (length h)) = concat (map c_children h).
Proof.
  rewrite flat_map_concat_map. f_equal.
  exact (map_lookup_seq c_children [] [] h).
Qed.

(** The walk from the roots meets every address exactly once, when every
    address is held once by the root list or a [children] list. *)
Lemma preorder_covers (roots : list nat) :
  roots ++ concat (map c_children h) ≡ₚ seq 0 (length h) ->
  flat_map (preorder (length h) h) roots ≡ₚ seq 0 (length h).
Proof.
  intros Hperm.
  apply (Permutation_app_inv_r
           (flat_map (preorder (length h) h) (concat (map c_children h)))).
  rewrite <- flat_map_app.
  rewrite (Permutation_flat_map (preorder (length h) h) Hperm).
  rewrite preorder_list by (intros i Hi; now apply in_seq in Hi).
  now rewrite children_of_all.
Qed.

End StoreWalk.

(* ================================================================== *)
(** * Flattening the forest read from a store *)
(* ================================================================== *)

Section FlattenStore.
Import PyText PyValue Tree ExcelToHierarchy BuilderSpec Pipeline.

Variable h : list Cell.

Hypothesis children_younger :
  forall i j, In j (children_of h i) -> (i < j)%nat.
Hypothesis children_in_store :
  forall i j, In j (children_of h i) -> (j < length h)%nat.

(** Every node of the store carries a text as its description. *)
Hypothesis descriptions_are_text :
  forall i c, h !! i = Some c ->
    exists s, assoc "item_description" (c_attrs c) = Some (VStr s).

Lemma join_path_text (path : list value) :
  Forall (fun v => exists s, v = VStr s) path ->
  exists crumb, JsonFlatten.join_path path = Some crumb.
Proof.
  intros Hall. unfold JsonFlatten.join_path.
  assert (exists parts, mapM as_str path = Some parts) as [parts ->];
    [|eauto].
  induction Hall as [|v path [s ->] _ [parts IH]]; [now exists []|].
  exists (s :: parts). cbn. now rewrite IH.
Qed.

Lemma make_doc_text (node : Node) (chain : list Node) :
  Forall has_text_description chain ->
  has_text_description node ->
  exists doc, JsonFlatten.make_doc node chain = Some doc /\
              JsonFlatten.id doc = get node "hs_code".
Proof.
  intros Hchain Hnode. unfold JsonFlatten.make_doc.
  destruct (join_path_text
              (map (fun anc => get anc "item_description") chain
                 ++ [get node "item_description"])) as [crumb ->].
  - apply Forall_app. split.
    + apply Forall_map. exact Hchain.
    + constructor; [exact Hnode | constructor].
  - eexists. split; reflexivity.
Qed.

(** The loop over a list of addresses, given the result for each. *)
Lemma traverse_each_reify (f : nat) (js : list nat) (chain : list Node) :
  (forall j, In j js ->
     exists docs, JsonFlatten.traverse (reify f h j) chain = Some docs /\
       map JsonFlatten.id docs = map (cell_field "hs_code" h) (preorder f h j)) ->
  exists below,
    JsonFlatten.traverse_each (map (reify f h) js) chain = Some below /\
    map JsonFlatten.id below
      = map (cell_field "hs_code" h) (flat_map (preorder f h) js).
Proof.
  induction js as [|j js IH]; intros Hjs; [now exists []|].
  destruct (Hjs j) as (ds & Hds & Hid); [now left|].
  destruct IH as (ds' & Hds' & Hid'); [intros k Hk; apply Hjs; now right|].
  exists (ds ++ ds'). cbn. rewrite Hds, Hds'. split; [reflexivity|].
  now rewrite !map_app, Hid, Hid'.
Qed.

(** Flattening the object that an address stands for yields one document
    per address of its walk, carrying that node's code as id. *)
Lemma traverse_reify (f : nat) :
  forall i chain,
    (i < length h)%nat -> (length h - i <= f)%nat ->
    Forall has_text_description chain ->
    exists docs, JsonFlatten.traverse (reify f h i) chain = Some docs /\
      map JsonFlatten.id docs = map (cell_field "hs_code" h) (preorder f h i).
Proof.
  induction f as [|f IH]; intros i chain Hi Hf Hchain; [lia|].
  destruct (lookup_lt_is_Some_2 h i Hi) as [c Hc].
  cbn [reify preorder]. rewrite Hc.
  set (node := mkNode (c_attrs c) (c_notes c) (map (reify f h) (c_children c))).
  assert (has_text_description node) as Hnode.
  { destruct (descriptions_are_text i c Hc) as [s Hs].
    exists s. unfold get, node. cbn [attrs]. now rewrite Hs. }
  rewrite traverse_eq.
  destruct (make_doc_text node chain Hchain Hnode) as (doc & -> & Hid).
  assert (children_of h i = c_children c) as Hch
    by (unfold children_of; now rewrite Hc).
  destruct (traverse_each_reify f (c_children c) (chain ++ [node]))
    as (below & Hbelow & Hids).
  { intros j Hj. rewrite <- Hch in Hj.
    pose proof (children_younger i j Hj).
    pose proof (children_in_store i j Hj).
    apply IH; [lia | lia |].
    apply Forall_app. split; [exact Hchain | now constructor]. }
  unfold node at 1. cbn [children]. fold node. rewrite Hbelow.
  exists (doc :: below). split; [reflexivity|].
  cbn [map]. rewrite Hid, Hids, Hch. f_equal.
  unfold cell_field, get, node. now rewrite Hc.
Qed.

(** Flattening the forest read from the roots. *)
Lemma flatten_store (roots : list nat) :
  (forall r, In r roots -> (r < length h)%nat) ->
  exists docs,
    JsonFlatten.flatten_hsn_json_with_inherited
      (map (reify (length h) h) roots) = Some docs /\
    map JsonFlatten.id docs
      = map (cell_field "hs_code" h)
            (flat_map (preorder (length h) h) roots).
Proof.
  intros Hroots. unfold JsonFlatten.flatten_hsn_json_with_inherited.
  rewrite traverse_all_each. apply traverse_each_reify.
  intros r Hr. apply traverse_reify; [now apply Hroots | lia | constructor].
Qed.

End FlattenStore.

(* ================================================================== *)
(** * The table after the call, and the round trip *)
(* ================================================================== *)

Section RoundTrip.
Import PyText PyValue Tree ExcelToHierarchy BuilderSpec Pipeline Inputs.

(** ** The two assignments that open the call *)

Lemma filter_eqb_elem (key : string) (cols : list string) (c : string) :
  In c (List.filter (String.eqb key) cols) -> c = key /\ key ∈ cols.
Proof.
  intros Hc. apply filter_In in Hc as [Hc Heq].
  apply String.eqb_eq in Heq. subst c.
  split; [reflexivity | now apply list_elem_of_In].
Qed.

(** When the two assignments do not raise, exactly one normalised label
    is the code label, and the table is left with the normalised labels
    and the normalised code column. *)
Lemma normalize_table_Some (cfg : Config) (df df' : DataFrame) :
  normalize_table cfg df = Some df' ->
  hs_code_col cfg ∈ map normalize_header (columns df) /\
  List.filter (String.eqb (hs_code_col cfg))
              (map normalize_header (columns df)) = [hs_code_col cfg] /\
  df' = {| columns := map normalize_header (columns df);
           data := map (set_column (map normalize_header (columns df))
                          (hs_code_col cfg) normalize_hs_cell)
                       (data df) |}.
Proof.
  unfold normalize_table, assign_codes, rename_columns. cbn [columns data].
  destruct (List.filter (String.eqb (hs_code_col cfg))
                        (map normalize_header (columns df)))
    as [|c [|c' l]] eqn:E; try discriminate.
  intros [= <-].
  destruct (filter_eqb_elem (hs_code_col cfg)
              (map normalize_header (columns df)) c) as [-> Hin];
    [rewrite E; now left|].
  now split.
Qed.

(** The caller's table after a call that returns is the table that the
    loop has read. *)
Lemma table_after_returned (cfg : Config) (df df' : DataFrame)
      (forest : list Node) :
  build_hierarchy cfg df = Some (df', forest) -> table_after cfg df = df'.
Proof.
  unfold build_hierarchy, normalize_table, table_after.
  destruct (assign_codes cfg (rename_columns df)) as [e|df0];
    [discriminate | now intros [= <- _]].
Qed.

(** The labels of the caller's table are rewritten by every call, also by
    one that raises. *)
Lemma table_after_columns (cfg : Config) (df : DataFrame) :
  columns (table_after cfg df) = map normalize_header (columns df).
Proof.
  unfold table_after, assign_codes, rename_columns. cbn [columns data].
  now destruct (List.filter (String.eqb (hs_code_col cfg))
                            (map normalize_header (columns df)))
    as [|c [|c' l]].
Qed.

(** C9.  The call writes into the table it is given: on [raw_table] the
    caller's table object holds, after the call, rewritten column labels
    and a rewritten code cell, so it is not the table that was passed. *)
Lemma builder_changes_its_table :
  fst <$> build_hierarchy default_config raw_table =
    Some (mkDataFrame
            ["hs_code"; "item_description"; "level"; "remark"]
            [[VStr "25010010"; VStr "Common salt";
              VFloat (mkFloat 0 0 "0.0"); VStr "Tariff"]]) /\
  fst <$> build_hierarchy default_config raw_table <> Some raw_table.
Proof. split; [vm_compute; reflexivity | vm_compute; discriminate]. Qed.

(** ** Round trip *)

(** The node built from a row holds, under a scalar key, the row's cell
    with [nan] replaced by [None]. *)
Lemma assoc_new_cell (key : string) (row : Series) :
  is_list_key key = false ->
  assoc key (c_attrs (new_cell row)) = nan_to_none <$> assoc key row.
Proof.
  intros Hkey. cbn [new_cell c_attrs].
  induction row as [|[k v] row IH]; [reflexivity|].
  cbn [map List.filter fst snd assoc].
  destruct (String.eqb k key) eqn:E.
  - apply String.eqb_eq in E. subst k. rewrite Hkey. cbn [negb assoc].
    now rewrite String.eqb_refl.
  - destruct (is_list_key k); cbn [negb assoc]; [exact IH|].
    now rewrite E.
Qed.

Lemma node_field_row (key : string) (row : Series) :
  is_list_key key = false ->
  node_field key row = nan_to_none (row_get row key VNone).
Proof.
  intros Hkey. unfold node_field, row_get. rewrite assoc_new_cell by assumption.
  now destruct (assoc key row).
Qed.

(** In the table the loop reads, the cell under the code label is the
    normalised text of the cell the caller passed. *)
Lemma normalised_row_code (cols : list string) (key : string)
      (cells : list value) (dflt : value) :
  key ∈ cols ->
  (length cols <= length cells)%nat ->
  row_get (zip cols (set_column cols key normalize_hs_cell cells)) key dflt
  = normalize_hs_cell (row_get (zip cols cells) key dflt).
Proof.
  revert cells. induction cols as [|c cols IH]; intros cells Hin Hlen;
    [now apply elem_of_nil in Hin|].
  destruct cells as [|v cells]; [cbn in Hlen; lia|].
  cbn [set_column]. unfold row_get in *.
  destruct (String.eqb c key) eqn:E; cbn [zip zip_with assoc]; rewrite E;
    [reflexivity|].
  apply IH; [|cbn in Hlen; lia].
  apply elem_of_cons in Hin as [->|Hin]; [|exact Hin].
  now rewrite String.eqb_refl in E.
Qed.

(** With the code column under its default label, the node built from a
    row of the normalised table carries the normalised text of the code
    the caller passed: its [str] form with all whitespace removed. *)
Lemma built_code_normalised (cfg : Config) (df df' : DataFrame)
      (forest : list Node) (cells : list value) :
  build_hierarchy cfg df = Some (df', forest) ->
  hs_code_col cfg = "hs_code" ->
  (length (columns df) <= length cells)%nat ->
  node_field "hs_code"
    (zip (columns df')
         (set_column (columns df') "hs_code" normalize_hs_cell cells))
  = normalize_hs_cell (row_get (zip (columns df') cells) "hs_code" VNone).
Proof.
  unfold build_hierarchy. intros Hbuild Hcol Hlen.
  destruct (normalize_table cfg df) as [df0|] eqn:E; [|discriminate].
  injection Hbuild as <- _.
  apply normalize_table_Some in E as (Hin & _ & ->). cbn [columns].
  rewrite Hcol in Hin.
  rewrite node_field_row by reflexivity.
  rewrite normalised_row_code; [reflexivity | exact Hin |].
  now rewrite length_map.
Qed.

(** The three facts about the store that the walk lemmas need. *)
Lemma store_children_younger (st : State) :
  forest_store st ->
  forall i j, In j (children_of (heap st) i) -> (i < j)%nat.
Proof.
  intros (Hyoung & _ & _) i j Hj. unfold children_of in Hj.
  destruct (heap st !! i) as [c|] eqn:Ec; [|destruct Hj].
  now apply (Hyoung i c).
Qed.

Lemma store_children_in_store (st : State) :
  forest_store st ->
  forall i j, In j (children_of (heap st) i) -> (j < length (heap st))%nat.
Proof.
  intros (_ & Hperm & _) i j Hj. unfold children_of in Hj.
  destruct (heap st !! i) as [c|] eqn:Ec; [|destruct Hj].
  assert (In j (seq 0 (length (heap st)))) as Hin; [|now apply in_seq in Hin].
  apply (Permutation_in _ Hperm), in_or_app. right.
  apply in_concat. exists (c_children c). split; [|exact Hj].
  apply in_map, list_elem_of_In. now apply list_elem_of_lookup_2 with i.
Qed.

Lemma store_descriptions_are_text (st : State) (rows : list Series) :
  tracks st rows ->
  Forall (fun row => exists s, row_get row "item_description" VNone = VStr s)
         rows ->
  forall i c, heap st !! i = Some c ->
    exists s, assoc "item_description" (c_attrs c) = Some (VStr s).
Proof.
  intros Htr Hrows i c Hc.
  assert (In (c_attrs c) (map (fun row => c_attrs (new_cell row)) rows)) as Hin.
  { rewrite <- Htr. apply in_map, list_elem_of_In.
    now apply list_elem_of_lookup_2 with i. }
  apply in_map_iff in Hin as (row & Hattrs & Hrow).
  rewrite Forall_forall in Hrows.
  destruct (Hrows row) as [s Hs]; [now apply list_elem_of_In|].
  exists s. rewrite <- Hattrs, assoc_new_cell by reflexivity.
  unfold row_get in Hs.
  destruct (assoc "item_description" row) as [v|]; [|discriminate].
  cbn in Hs. subst v. reflexivity.
Qed.

Lemma store_codes (st : State) (rows : list Series) :
  tracks st rows ->
  map (cell_field "hs_code" (heap st)) (seq 0 (length (heap st)))
  = map (node_field "hs_code") rows.
Proof.
  intros Htr. unfold tracks in Htr.
  transitivity (map (fun attrs => default VNone (assoc "hs_code" attrs))
                    (map c_attrs (heap st))).
  - rewrite map_map.
    exact (map_lookup_seq
             (fun c => default VNone (assoc "hs_code" (c_attrs c)))
             VNone [] (heap st)).
  - rewrite Htr, map_map. reflexivity.
Qed.

(** C8 (counterexample).  The two structural rows of
    [spaced_codes_table] have distinct codes, ["2501 00"] and ["250100"],
    and the two records that the pipeline yields have the same id.  And
    on [blank_row_table], whose second structural row has no description,
    the flattener raises: there are no records at all. *)
Lemma distinct_codes_same_ids :
  VStr "2501 00" <> VStr "250100" /\
  length (structural_rows default_config spaced_codes_table) = 2%nat /\
  map JsonFlatten.id <$> pipeline default_config spaced_codes_table
    = Some [VStr "250100"; VStr "250100"] /\
  length (structural_rows default_config blank_row_table) = 2%nat /\
  pipeline default_config blank_row_table = None.
Proof.
  split; [discriminate|]. repeat split; vm_compute; reflexivity.
Qed.

(** C8 (amended).  For every table whose structural rows, as the builder
    reads them, all carry a text description: building the forest and
    flattening it yields exactly one record per structural row and none
    for the note rows; the ids of the records are, up to order, the codes
    that the nodes carry, that is the codes after the builder's
    normalisation; so the ids are pairwise distinct when these normalised
    codes are. *)
Theorem round_trip_records
        (cfg : Config) (df df' : DataFrame) (forest : list Node) :
  build_hierarchy cfg df = Some (df', forest) ->
  Forall (fun row => exists s, row_get row "item_description" VNone = VStr s)
         (structural_rows cfg df') ->
  exists docs,
    JsonFlatten.flatten_hsn_json_with_inherited forest = Some docs /\
    pipeline cfg df = Some docs /\
    length docs = length (structural_rows cfg df') /\
    map JsonFlatten.id docs
      ≡ₚ map (node_field "hs_code") (structural_rows cfg df') /\
    (NoDup (map (node_field "hs_code") (structural_rows cfg df')) ->
     NoDup (map JsonFlatten.id docs)).
Proof.
  intros Hbuild Htext. unfold pipeline. rewrite Hbuild.
  unfold build_hierarchy in Hbuild.
  destruct (normalize_table cfg df) as [df0|]; [|discriminate].
  injection Hbuild as <- <-.
  destruct (run_forest_store cfg df0) as [Hfs Htr].
  set (st := run cfg df0) in *.
  pose proof (store_children_younger st Hfs) as Hyoung.
  pose proof (store_children_in_store st Hfs) as Hin.
  pose proof (store_descriptions_are_text st _ Htr Htext) as Hdesc.
  destruct Hfs as (_ & Hperm & _).
  destruct (flatten_store (heap st) Hyoung Hin Hdesc (root st))
    as (docs & Hflat & Hids).
  { intros r Hr.
    assert (In r (seq 0 (length (heap st)))) as Hs; [|now apply in_seq in Hs].
    apply (Permutation_in _ Hperm), in_or_app. now left. }
  assert (map JsonFlatten.id docs
            ≡ₚ map (node_field "hs_code") (structural_rows cfg df0)) as Hp.
  { rewrite Hids, <- (store_codes st _ Htr).
    apply Permutation_map.
    now apply (preorder_covers (heap st) Hyoung Hin). }
  exists docs. split; [exact Hflat|]. split; [exact Hflat|].
  split; [|split; [exact Hp|]].
  - rewrite <- (length_map JsonFlatten.id docs), Hp. apply length_map.
  - intros Hnd. now rewrite Hp.
Qed.

(** A chapter, a note and a heading: two records, with the two codes. *)
Lemma round_trip_records_witness :
  exists docs,
    pipeline default_config noted_table = Some docs /\
    length docs = 2%nat /\
    NoDup (map JsonFlatten.id docs).
Proof.
  destruct (round_trip_records default_config noted_table _ _ eq_refl)
    as (docs & _ & Hpipe & Hlen & _ & Hnd).
  { repeat constructor; eexists; reflexivity. }
  exists docs. split; [exact Hpipe|]. split; [exact Hlen|].
  apply Hnd. vm_compute.
  repeat (constructor; [rewrite ?elem_of_cons, elem_of_nil; intuition discriminate|]).
  constructor.
Defined.

End RoundTrip.

(* ================================================================== *)
(** * Further properties of the Level Assigner *)
(* ================================================================== *)

Section LevelAssignerMore.
Import PyText PyValue CleanNorm LevelSpec.

Lemma hyphen_run_length (s : string) :
  fullmatch_hyphens s = true -> 1 <= len s.
Proof.
  destruct s as [|c s]; [discriminate|]. intros _. unfold len. cbn. lia.
Qed.

(** A tariff row with neither a 4-digit code nor a hyphen-run marker takes
    the fallback. *)
Lemma tariff_other_level (r : Row) :
  is_tariff r = true ->
  fullmatch_4digits (py_str (hs_code r)) = false ->
  fullmatch_hyphens (py_str (level r)) = false ->
  level_of_row r = Some 1.
Proof.
  intros Ht H4 Hh.
  unfold level_of_row, override_other, override_hyph, override_4d,
    mask_other, mask_hyph, mask_4d.
  now rewrite Ht, H4, Hh.
Qed.

(** Every tariff row gets a level, and it is at least 1. *)
Lemma tariff_level_positive (r : Row) :
  hyphen_run_is_text (level r) ->
  is_tariff r = true ->
  exists n, level_of_row r = Some n /\ 1 <= n.
Proof.
  intros Htext Ht.
  destruct (fullmatch_hyphens (py_str (level r))) eqn:Hh.
  - destruct (Htext Hh) as [s Hs]. rewrite Hs in Hh. cbn in Hh.
    exists (len (strip s) + 1).
    split; [now apply tariff_hyphen_run_level|].
    rewrite strip_hyphens by assumption.
    pose proof (hyphen_run_length s Hh). lia.
  - exists 1. split; [|lia].
    destruct (fullmatch_4digits (py_str (hs_code r))) eqn:H4.
    + now apply tariff_4d_no_run_level.
    + now apply tariff_other_level.
Qed.

(** The seed: 0 for a chapter, else the length of the marker run, else
    nothing. *)
Lemma seed_level_cases (r : Row) :
  seed_level (level r) r =
  if starts_chapter r then Some 0
  else if marker_run (level r)
       then match level r with
            | VStr s => Some (len (strip s))
            | _ => None
            end
       else None.
Proof.
  unfold seed_level, starts_chapter, marker_run.
  destruct (startswith "chapter" (desc_of r)); [reflexivity|].
  destruct (level r); reflexivity.
Qed.

(** X1.  The new level is left unset exactly for the rows that are not
    tariff rows, do not open a chapter, and whose raw marker is not a run
    of hyphens (possibly padded with whitespace). *)
Theorem level_unset_iff (r : Row) :
  hyphen_run_is_text (level r) ->
  level_of_row r = None <->
  is_tariff r = false /\ starts_chapter r = false /\
  marker_run (level r) = false.
Proof.
  intros Htext. destruct (is_tariff r) eqn:Ht.
  - destruct (tariff_level_positive r Htext Ht) as (n & -> & _).
    split; [discriminate | intros [H _]; discriminate H].
  - rewrite (non_tariff_keeps_seed r Ht), seed_level_cases.
    destruct (starts_chapter r); [split; [discriminate | intros (_ & H & _); discriminate H]|].
    destruct (marker_run (level r)) eqn:Hrun.
    + unfold marker_run in Hrun. destruct (level r); try discriminate.
      split; [discriminate | intros (_ & _ & H); discriminate H].
    + split; auto.
Qed.

Lemma level_unset_iff_witness :
  level_of_row {| item_description := VNaN; level := VNaN;
                  remark := VNaN; hs_code := VNaN |} = None.
Proof.
  apply (level_unset_iff {| item_description := VNaN; level := VNaN;
                            remark := VNaN; hs_code := VNaN |}).
  - intros H. vm_compute in H. discriminate H.
  - repeat split; reflexivity.
Defined.

(** X2.  No level is negative, and level 0 is given exactly to the rows
    that open a chapter and are not tariff rows. *)
Theorem level_zero_iff (r : Row) :
  hyphen_run_is_text (level r) ->
  (forall n, level_of_row r = Some n -> 0 <= n) /\
  (level_of_row r = Some 0 <->
   is_tariff r = false /\ starts_chapter r = true).
Proof.
  intros Htext. destruct (is_tariff r) eqn:Ht.
  - destruct (tariff_level_positive r Htext Ht) as (n & -> & Hn).
    split.
    + intros m [= <-]. lia.
    + split; [intros [= ->]; lia | intros [H _]; discriminate H].
  - rewrite (non_tariff_keeps_seed r Ht), seed_level_cases.
    destruct (starts_chapter r).
    + split; [intros n [= <-]; lia | split; auto].
    + destruct (marker_run (level r)) eqn:Hrun.
      * unfold marker_run in Hrun. destruct (level r); try discriminate.
        pose proof (hyphen_run_length _ Hrun) as Hlen.
        split; [intros n [= <-]; lia|].
        split; [intros [= H0]; lia | intros [_ Hc]; discriminate Hc].
      * split; [discriminate|].
        split; [discriminate | intros [_ H]; discriminate H].
Qed.

Lemma level_zero_iff_witness :
  level_of_row {| item_description := VStr "Chapter 1"; level := VStr "--";
                  remark := VStr "Heading"; hs_code := VNaN |} = Some 0.
Proof.
  apply (proj2 (level_zero_iff
                  {| item_description := VStr "Chapter 1"; level := VStr "--";
                     remark := VStr "Heading"; hs_code := VNaN |}
                  (fun _ => ex_intro _ "--" eq_refl))).
  split; reflexivity.
Defined.

(** X3.  A marker that is a run of [n] hyphens gives level [n + 1] on every
    tariff row, whatever its code and description, and level [n] on a row
    that is not a tariff row and does not open a chapter. *)
Theorem hyphen_run_levels (r : Row) (s : string) :
  level r = VStr s ->
  fullmatch_hyphens s = true ->
  (is_tariff r = true -> level_of_row r = Some (len s + 1)) /\
  (is_tariff r = false -> starts_chapter r = false ->
   level_of_row r = Some (len s)).
Proof.
  intros Hraw Hs. split.
  - intros Ht. rewrite (tariff_hyphen_run_level r s Ht Hraw Hs).
    now rewrite strip_hyphens.
  - intros Ht Hch. rewrite (non_tariff_keeps_seed r Ht), seed_level_cases, Hch.
    rewrite Hraw. cbn [marker_run]. rewrite (strip_hyphens s Hs), Hs.
    reflexivity.
Qed.

Lemma hyphen_run_levels_witness :
  level_of_row {| item_description := VStr "Chapter 9"; level := VStr "---";
                  remark := VStr "Tariff"; hs_code := VStr "0901" |} = Some 4 /\
  level_of_row {| item_description := VStr "Other"; level := VStr "--";
                  remark := VNaN; hs_code := VNaN |} = Some 2.
Proof.
  split.
  - apply (proj1 (hyphen_run_levels
                    {| item_description := VStr "Chapter 9";
                       level := VStr "---"; remark := VStr "Tariff";
                       hs_code := VStr "0901" |} "---" eq_refl eq_refl)).
    reflexivity.
  - apply (proj2 (hyphen_run_levels
                    {| item_description := VStr "Other"; level := VStr "--";
                       remark := VNaN; hs_code := VNaN |} "--"
                    eq_refl eq_refl)); reflexivity.
Defined.

(** X4.  Whitespace around the hyphens counts differently in the two
    passes: a padded run gives its length on a row that is not a tariff
    row and does not open a chapter, but on a tariff row the run is not
    recognised and the level is 1. *)
Theorem padded_run_levels (r : Row) (s : string) :
  level r = VStr s ->
  padded_run s ->
  (is_tariff r = true -> level_of_row r = Some 1) /\
  (is_tariff r = false -> starts_chapter r = false ->
   level_of_row r = Some (len (strip s))).
Proof.
  intros Hraw [Hrun Hpad].
  assert (fullmatch_hyphens s = false) as Hs.
  { destruct (fullmatch_hyphens s) eqn:E; [|reflexivity].
    now destruct Hpad; apply strip_hyphens. }
  split.
  - intros Ht.
    destruct (fullmatch_4digits (py_str (hs_code r))) eqn:H4.
    + apply tariff_4d_no_run_level; try assumption. now rewrite Hraw.
    + apply tariff_other_level; try assumption. now rewrite Hraw.
  - intros Ht Hch. rewrite (non_tariff_keeps_seed r Ht), seed_level_cases, Hch.
    rewrite Hraw. cbn [marker_run]. now rewrite Hrun.
Qed.

Lemma padded_run_levels_witness :
  level_of_row {| item_description := VStr "Salt"; level := VStr " -- ";
                  remark := VStr "Tariff"; hs_code := VStr "25010010" |}
    = Some 1 /\
  level_of_row {| item_description := VStr "Salt"; level := VStr " -- ";
                  remark := VNaN; hs_code := VNaN |} = Some 2.
Proof.
  assert (padded_run " -- ") as Hpad by (split; [reflexivity | discriminate]).
  split.
  - apply (proj1 (padded_run_levels
                    {| item_description := VStr "Salt"; level := VStr " -- ";
                       remark := VStr "Tariff"; hs_code := VStr "25010010" |}
                    " -- " eq_refl Hpad)).
    reflexivity.
  - apply (proj2 (padded_run_levels
                    {| item_description := VStr "Salt"; level := VStr " -- ";
                       remark := VNaN; hs_code := VNaN |}
                    " -- " eq_refl Hpad)); reflexivity.
Defined.

End LevelAssignerMore.

(* ================================================================== *)
(** * Properties of the policy links *)
(* ================================================================== *)

Section PolicyLinksFacts.
Import PyText PyValue PolicyLinks PolicySpec.

Lemma lstrip_chars_no_space (l : list ascii) :
  Forall (fun c => is_space c = false) l -> lstrip_chars l = l.
Proof.
  intros Hall. destruct Hall as [|c l Hc _]; [reflexivity|].
  cbn. now rewrite Hc.
Qed.

Lemma strip_no_space (s : string) :
  Forall (fun c => is_space c = false) (list_ascii_of_string s) ->
  strip s = s.
Proof.
  intros Hall. unfold strip.
  rewrite (lstrip_chars_no_space _ Hall).
  rewrite lstrip_chars_no_space by now apply List.Forall_rev.
  rewrite rev_involutive. apply string_of_list_ascii_of_string.
Qed.

Lemma list_ascii_of_string_app (a b : string) :
  list_ascii_of_string (a ++ b)%string
  = list_ascii_of_string a ++ list_ascii_of_string b.
Proof.
  induction a as [|c a IH]; [reflexivity|].
  change (String c a ++ b)%string with (String c (a ++ b)%string).
  cbn [list_ascii_of_string]. now rewrite IH.
Qed.

Lemma all_chars_Forall (p : ascii -> bool) (s : string) :
  all_chars p s = true <->
  Forall (fun c => p c = true) (list_ascii_of_string s).
Proof.
  induction s as [|c s IH]; cbn.
  - split; [constructor | reflexivity].
  - rewrite andb_true_iff, IH. split.
    + intros [Hc Hs]. now constructor.
    + intros H. inversion H; subst. now split.
Qed.

Lemma list_ascii_of_filter_chars (p : ascii -> bool) (s : string) :
  list_ascii_of_string (filter_chars p s)
  = List.filter p (list_ascii_of_string s).
Proof.
  induction s as [|c s IH]; cbn; [reflexivity|].
  destruct (p c); cbn; now rewrite IH.
Qed.

Lemma marker_not_space (c : ascii) : is_marker c = true -> is_space c = false.
Proof.
  destruct c as [[] [] [] [] [] [] [] []]; vm_compute; congruence.
Qed.

Lemma marker_cases (c : ascii) :
  is_marker c = true ->
  Ascii.eqb c "," = false ->
  c = "*"%char \/ is_digit c = true.
Proof.
  unfold is_marker. intros H Hc. rewrite Hc, orb_false_r in H.
  apply orb_true_iff in H as [H|H]; [left; now apply Ascii.eqb_eq | now right].
Qed.

(** ** The longest run *)

Lemma span_spec (p : ascii -> bool) (l : list ascii) :
  l = fst (span p l) ++ snd (span p l) /\
  Forall (fun c => p c = true) (fst (span p l)) /\
  match snd (span p l) with
  | c :: _ => p c = false
  | [] => True
  end.
Proof.
  induction l as [|c l (Hl & Hall & Hrest)]; cbn; [now repeat split|].
  destruct (p c) eqn:Hc; cbn.
  - split; [now rewrite <- Hl|]. split; [now constructor | exact Hrest].
  - now repeat split.
Qed.

Lemma span_app (p : ascii -> bool) (a b : list ascii) :
  Forall (fun c => p c = true) a ->
  match b with c :: _ => p c = false | [] => True end ->
  span p (a ++ b) = (a, b).
Proof.
  intros Ha Hb. induction Ha as [|c a Hc _ IH]; cbn.
  - destruct b as [|c b]; [reflexivity|]. cbn. now rewrite Hb.
  - now rewrite Hc, IH.
Qed.

(** ** The tokens *)

Lemma split_commas_parts (l : list ascii) :
  Forall (fun c => is_marker c = true) l ->
  split_commas l <> [] /\
  Forall (Forall (fun c => is_marker c = true /\ Ascii.eqb c "," = false))
         (split_commas l).
Proof.
  intros Hall. induction Hall as [|c l Hc _ [Hne IH]]; cbn.
  - split; [discriminate | repeat constructor].
  - destruct (Ascii.eqb c ",") eqn:E.
    + split; [discriminate | now constructor].
    + destruct (split_commas l) as [|part parts]; [now destruct Hne|].
      split; [discriminate|].
      inversion IH; subst. constructor; [|assumption].
      constructor; [now split | assumption].
Qed.

Lemma repeat_star (part : list ascii) :
  Forall (fun c => Ascii.eqb c "*" = true) part ->
  repeat "*"%string (length part)
  = map (fun c => String c EmptyString) part.
Proof.
  induction 1 as [|c part Hc _ IH]; [reflexivity|].
  cbn. apply Ascii.eqb_eq in Hc. subst c. now rewrite IH.
Qed.

Lemma length_string_of_list (l : list ascii) :
  String.length (string_of_list_ascii l) = length l.
Proof. induction l; cbn; congruence. Qed.

(** What one part contributes: its characters, one token each, in both
    branches of the loop body. *)
Lemma tokens_of_part_chars (part : list ascii) :
  Forall (fun c => is_marker c = true /\ Ascii.eqb c "," = false) part ->
  tokens_of_part (string_of_list_ascii part)
  = map (fun c => String c EmptyString) part.
Proof.
  intros Hall. destruct part as [|c part]; [reflexivity|].
  change (string_of_list_ascii (c :: part))
    with (String c (string_of_list_ascii part)).
  cbn [tokens_of_part].
  change (String c (string_of_list_ascii part))
    with (string_of_list_ascii (c :: part)).
  rewrite strip_no_space.
  2:{ rewrite list_ascii_of_string_of_list_ascii.
      eapply Forall_impl; [exact Hall|].
      intros a [Ha _]. now apply marker_not_space. }
  destruct (only_stars (string_of_list_ascii (c :: part))) eqn:Estar.
  - rewrite length_string_of_list. apply repeat_star.
    unfold only_stars in Estar. cbn [string_of_list_ascii] in Estar.
    apply all_chars_Forall in Estar.
    change (String c (string_of_list_ascii part))
      with (string_of_list_ascii (c :: part)) in Estar.
    now rewrite list_ascii_of_string_of_list_ascii in Estar.
  - unfold chars_of. now rewrite list_ascii_of_string_of_list_ascii.
Qed.

Lemma tokens_of_refs (l : list ascii) :
  Forall (fun c => is_marker c = true) l ->
  flat_map (fun part => tokens_of_part (string_of_list_ascii part))
           (split_commas l)
  = map (fun c => String c EmptyString)
        (List.filter (fun c => negb (Ascii.eqb c ",")) l).
Proof.
  intros Hall. induction Hall as [|c l Hc Hall IH]; [reflexivity|].
  destruct (split_commas_parts l Hall) as [Hne Hparts].
  cbn [split_commas List.filter].
  destruct (Ascii.eqb c ",") eqn:E; cbn [negb].
  - cbn [flat_map]. exact IH.
  - destruct (split_commas l) as [|part parts]; [now destruct Hne|].
    inversion Hparts as [|? ? Hpart Hrest]; subst.
    cbn [flat_map map] in *.
    rewrite tokens_of_part_chars by (constructor; [now split | assumption]).
    rewrite tokens_of_part_chars in IH by assumption.
    cbn [map]. rewrite <- IH. reflexivity.
Qed.

Lemma without_commas_chars (refs : string) :
  without_commas refs
  = map (fun c => String c EmptyString)
        (List.filter (fun c => negb (Ascii.eqb c ","))
                     (list_ascii_of_string refs)).
Proof.
  unfold without_commas, chars_of. now rewrite list_ascii_of_filter_chars.
Qed.

(** The result on a text cell whose trailing marker run was found. *)
Lemma extract_matched (c text refs : string) :
  match_trailing_refs (strip c) = Some (text, refs) ->
  all_chars is_marker refs = true /\
  extract_policy_links (VStr c) = (VStr (strip text), without_commas refs).
Proof.
  intros Hm.
  assert (all_chars is_marker refs = true) as Hrefs.
  { unfold match_trailing_refs in Hm.
    destruct (span_spec is_marker (rev (list_ascii_of_string (strip c))))
      as (_ & Hall & _).
    destruct (fst (span is_marker _)) as [|a run]; [discriminate|].
    destruct (existsb _ _); [discriminate|].
    injection Hm as _ <-. apply all_chars_Forall.
    rewrite list_ascii_of_string_of_list_ascii.
    change (rev run ++ [a]) with (rev (a :: run)).
    now apply List.Forall_rev. }
  split; [exact Hrefs|].
  cbn [extract_policy_links]. rewrite Hm. f_equal.
  rewrite without_commas_chars. apply tokens_of_refs.
  now apply all_chars_Forall.
Qed.

Lemma existsb_rev_eq (f : ascii -> bool) (l : list ascii) :
  existsb f (rev l) = existsb f l.
Proof.
  induction l as [|c l IH]; [reflexivity|].
  cbn. rewrite existsb_app, IH. cbn. now rewrite orb_false_r, orb_comm.
Qed.

(** X5.  Every token that [extract_policy_links] returns is a single
    character, an asterisk or a digit: runs of asterisks and multi-digit
    numbers are split into their characters, commas are dropped. *)
Theorem policy_tokens_are_single_markers (cell : value) :
  Forall single_marker (snd (extract_policy_links cell)).
Proof.
  destruct cell as [| | | | |c]; try constructor.
  destruct (match_trailing_refs (strip c)) as [[text refs]|] eqn:Hm.
  - destruct (extract_matched c text refs Hm) as [Hrefs ->].
    cbn [snd]. rewrite without_commas_chars.
    apply all_chars_Forall in Hrefs.
    induction Hrefs as [|a l Ha _ IH]; [constructor|].
    cbn [List.filter]. destruct (Ascii.eqb a ",") eqn:E; cbn [negb map];
      [exact IH|].
    constructor; [|exact IH].
    exists a. split; [reflexivity | now apply marker_cases].
  - cbn [extract_policy_links]. rewrite Hm. constructor.
Qed.

(** X6.  When the stripped cell is a text followed by a non-empty run of
    marker characters (asterisks, digits, commas), the text neither ending
    in a marker character nor holding a line feed, the result is the text,
    stripped again, and the characters of the run without the commas. *)
Theorem policy_links_split (c text refs : string) :
  strip c = (text ++ refs)%string ->
  refs <> EmptyString ->
  all_chars is_marker refs = true ->
  ends_with_marker text = false ->
  has_line_feed text = false ->
  extract_policy_links (VStr c) = (VStr (strip text), without_commas refs).
Proof.
  intros Hs Hne Hrefs Hend Hlf.
  apply extract_matched. unfold match_trailing_refs.
  rewrite Hs, list_ascii_of_string_app, rev_app_distr.
  rewrite span_app.
  - cbn [fst snd]. rewrite existsb_rev_eq.
    unfold has_line_feed in Hlf. rewrite Hlf, !rev_involutive.
    rewrite !string_of_list_ascii_of_string.
    destruct refs as [|a refs]; [now destruct Hne|].
    cbn [list_ascii_of_string rev].
    destruct (rev (list_ascii_of_string refs) ++ [a]) eqn:E; [|reflexivity].
    now apply app_eq_nil in E as [_ E].
  - apply List.Forall_rev. now apply all_chars_Forall.
  - unfold ends_with_marker in Hend.
    now destruct (rev (list_ascii_of_string text)).
Qed.

Lemma policy_links_split_witness :
  extract_policy_links (VStr " Restricted *1,22 ")
  = (VStr "Restricted", ["*"; "1"; "2"; "2"]).
Proof.
  apply (policy_links_split " Restricted *1,22 " "Restricted " "*1,22");
    (reflexivity || discriminate).
Defined.

(** X7.  A text cell that, once stripped, does not end in a marker
    character is returned stripped, with no tokens. *)
Theorem policy_links_without_markers (c : string) :
  ends_with_marker (strip c) = false ->
  extract_policy_links (VStr c) = (VStr (strip c), []).
Proof.
  intros Hend. cbn [extract_policy_links].
  assert (match_trailing_refs (strip c) = None) as ->; [|reflexivity].
  unfold match_trailing_refs, ends_with_marker in *.
  destruct (rev (list_ascii_of_string (strip c))) as [|a l]; [reflexivity|].
  cbn [span]. now rewrite Hend.
Qed.

Lemma policy_links_without_markers_witness :
  extract_policy_links (VStr "  Free ") = (VStr "Free", []).
Proof.
  apply (policy_links_without_markers "  Free "). reflexivity.
Defined.

End PolicyLinksFacts.

(* ================================================================== *)
(** * The in-place normalisation of [build_hierarchy] *)
(* ================================================================== *)

Section TableNormalisation.
Import PyText PyValue Tree ExcelToHierarchy BuilderSpec Pipeline ForestSpec.

Lemma map_chars_compose (f g : ascii -> ascii) (s : string) :
  map_chars f (map_chars g s) = map_chars (fun c => f (g c)) s.
Proof. induction s as [|c s IH]; cbn; [reflexivity | now rewrite IH]. Qed.

Lemma map_chars_ext (f g : ascii -> ascii) (s : string) :
  (forall c, f c = g c) -> map_chars f s = map_chars g s.
Proof.
  intros Hfg. induction s as [|c s IH]; cbn; [reflexivity|].
  now rewrite Hfg, IH.
Qed.

Lemma list_ascii_of_map_chars (f : ascii -> ascii) (s : string) :
  list_ascii_of_string (map_chars f s) = map f (list_ascii_of_string s).
Proof. induction s as [|c s IH]; cbn; [reflexivity | now rewrite IH]. Qed.

Lemma normalize_header_chars (c : string) :
  normalize_header c = map_chars header_char (strip c).
Proof.
  unfold normalize_header, nonword_to_underscores, spaces_to_underscores,
    lower.
  now rewrite !map_chars_compose.
Qed.

(** A normalised character is not whitespace and is left alone by a second
    normalisation. *)
Lemma header_char_fixed (c : ascii) :
  is_space (header_char c) = false /\
  header_char (header_char c) = header_char c.
Proof.
  destruct c as [[] [] [] [] [] [] [] []]; vm_compute; split; reflexivity.
Qed.

(** Normalising a label twice is normalising it once. *)
Lemma normalize_header_idempotent (c : string) :
  normalize_header (normalize_header c) = normalize_header c.
Proof.
  rewrite (normalize_header_chars (normalize_header c)).
  rewrite strip_no_space.
  - rewrite normalize_header_chars, map_chars_compose.
    apply map_chars_ext. intros a. apply header_char_fixed.
  - rewrite normalize_header_chars, list_ascii_of_map_chars.
    apply Forall_map, Forall_forall. intros a _. apply header_char_fixed.
Qed.

Lemma filter_chars_idempotent (p : ascii -> bool) (s : string) :
  filter_chars p (filter_chars p s) = filter_chars p s.
Proof.
  induction s as [|c s IH]; cbn; [reflexivity|].
  destruct (p c) eqn:E; cbn; [now rewrite E, IH | exact IH].
Qed.

Lemma normalize_hs_cell_idempotent (v : value) :
  normalize_hs_cell (normalize_hs_cell v) = normalize_hs_cell v.
Proof.
  unfold normalize_hs_cell. cbn [py_str]. unfold remove_whitespace.
  now rewrite filter_chars_idempotent.
Qed.

Lemma set_column_twice (cols : list string) (key : string)
      (f : value -> value) (cells : list value) :
  (forall v, f (f v) = f v) ->
  set_column cols key f (set_column cols key f cells)
  = set_column cols key f cells.
Proof.
  intros Hf. revert cells.
  induction cols as [|c cols IH]; intros [|v cells]; cbn [set_column];
    try reflexivity.
  destruct (String.eqb c key) eqn:E; cbn [set_column]; rewrite ?E.
  - now rewrite Hf.
  - now rewrite IH.
Qed.

(** The table that a call leaves behind is left as it is by another
    call. *)
Lemma normalize_table_idempotent (cfg : Config) (df df' : DataFrame) :
  normalize_table cfg df = Some df' -> normalize_table cfg df' = Some df'.
Proof.
  intros E. apply normalize_table_Some in E as (_ & Hone & ->).
  unfold normalize_table, assign_codes, rename_columns. cbn [columns data].
  assert (map normalize_header (map normalize_header (columns df))
          = map normalize_header (columns df)) as ->.
  { rewrite map_map. apply map_ext. intros c.
    apply normalize_header_idempotent. }
  rewrite Hone. do 2 f_equal. rewrite map_map. apply map_ext.
  intros cells. apply set_column_twice, normalize_hs_cell_idempotent.
Qed.

(** X9.  The code column is looked up by the name given in
    [hs_code_col], as it is, among the normalised labels: when that name
    is not itself in normalised form (for instance the raw header
    ["HS Code"]), [build_hierarchy] raises [KeyError] on every table. *)
Theorem unnormalised_code_label_raises (cfg : Config) (df : DataFrame) :
  normalize_header (hs_code_col cfg) <> hs_code_col cfg ->
  build_hierarchy cfg df = None.
Proof.
  intros Hne. unfold build_hierarchy.
  destruct (normalize_table cfg df) as [df0|] eqn:E; [|reflexivity].
  apply normalize_table_Some in E as (Hin & _).
  apply list_elem_of_In, in_map_iff in Hin as (c & Hc & _).
  destruct Hne. rewrite <- Hc. apply normalize_header_idempotent.
Qed.

Lemma unnormalised_code_label_raises_witness :
  build_hierarchy
    {| level_col := "level"; remark_col := "remark";
       note_text_cols := None; hs_code_col := "HS Code" |}
    (mkDataFrame ["HS Code"; "Level"] [[VStr "2501"; VInt 1]]) = None.
Proof.
  apply unnormalised_code_label_raises. vm_compute. discriminate.
Defined.

(** X10.  Calling [build_hierarchy] again on the table that a first call
    left behind changes nothing more and returns the same forest. *)
Theorem build_hierarchy_idempotent
        (cfg : Config) (df df' : DataFrame) (forest : list Node) :
  build_hierarchy cfg df = Some (df', forest) ->
  build_hierarchy cfg df' = Some (df', forest).
Proof.
  unfold build_hierarchy.
  destruct (normalize_table cfg df) as [df0|] eqn:E; [|discriminate].
  intros [= <- <-]. now rewrite (normalize_table_idempotent cfg df df0 E).
Qed.

Lemma build_hierarchy_idempotent_witness :
  exists df' forest,
    build_hierarchy default_config Inputs.raw_table = Some (df', forest) /\
    build_hierarchy default_config df' = Some (df', forest).
Proof.
  eexists. eexists. split; [reflexivity|].
  apply (build_hierarchy_idempotent default_config Inputs.raw_table).
  reflexivity.
Defined.

End TableNormalisation.

(* ================================================================== *)
(** * Further properties of the builder's loop *)
(* ================================================================== *)

Section BuilderLoopMore.
Import PyText PyValue Tree ExcelToHierarchy BuilderSpec Pipeline ForestSpec.
Import Inputs MoreInputs.

(** Note rows that come before any node leave the loop in its initial
    state. *)
Lemma foldl_notes_initial (cfg : Config) (cols : list string)
      (rows : list Series) :
  Forall (fun row => is_note_row cfg row = true) rows ->
  foldl (step cfg cols) initial rows = initial.
Proof.
  induction 1 as [|row rows Hrow _ IH]; [reflexivity|].
  cbn [foldl]. rewrite step_note_drop; [exact IH | exact Hrow | reflexivity].
Qed.

Lemma normalize_table_app (cfg : Config) (cols : list string)
      (d1 d2 : list (list value)) :
  normalize_table cfg (mkDataFrame cols (d1 ++ d2))
  = match normalize_table cfg (mkDataFrame cols d2) with
    | Some df2 =>
        Some (mkDataFrame (columns df2)
                (map (set_column (columns df2) (hs_code_col cfg)
                        normalize_hs_cell) d1 ++ data df2))
    | None => None
    end.
Proof.
  unfold normalize_table, assign_codes, rename_columns. cbn [columns data].
  destruct (List.filter (String.eqb (hs_code_col cfg))
                        (map normalize_header cols)) as [|c [|c' l]];
    try reflexivity.
  cbn [columns data]. now rewrite map_app.
Qed.

(** X11.  Note rows at the top of the table, before any structural row,
    are dropped without a trace: the forest is the one built from the
    table without them. *)
Theorem leading_notes_are_dropped
        (cfg : Config) (cols : list string) (notes rest : list (list value)) :
  Forall (fun cells => is_note_row cfg (read_row cfg cols cells) = true)
         notes ->
  snd <$> build_hierarchy cfg (mkDataFrame cols (notes ++ rest))
  = snd <$> build_hierarchy cfg (mkDataFrame cols rest).
Proof.
  intros Hnotes. unfold build_hierarchy.
  rewrite normalize_table_app.
  destruct (normalize_table cfg (mkDataFrame cols rest)) as [df2|] eqn:E;
    [|reflexivity].
  cbn [fmap option_fmap option_map snd]. f_equal.
  assert (columns df2 = map normalize_header cols) as Hcols.
  { apply normalize_table_Some in E as (_ & _ & ->). reflexivity. }
  unfold run, iterrows. cbn [columns data].
  rewrite map_app, foldl_app, foldl_notes_initial.
  - destruct df2 as [cols2 data2]. reflexivity.
  - rewrite map_map, Forall_map, Hcols.
    eapply Forall_impl; [exact Hnotes|]. intros cells Hc. exact Hc.
Qed.

Lemma leading_notes_are_dropped_witness :
  snd <$> build_hierarchy default_config
            (mkDataFrame cols4 ([note_cells] ++ [chapter_cells; heading_cells]))
  = snd <$> build_hierarchy default_config
              (mkDataFrame cols4 [chapter_cells; heading_cells]).
Proof.
  apply (leading_notes_are_dropped default_config cols4 [note_cells]).
  repeat constructor.
Defined.

(** ** Open depths are never closed *)

Lemma step_keeps_open (cfg : Config) (cols : list string) (st : State)
      (row : Series) (d : Z) :
  is_Some (level_nodes st !! d) ->
  is_Some (level_nodes (step cfg cols st row) !! d).
Proof.
  intros Hd.
  destruct (step_cases cfg cols st row)
    as [(_ & d' & ->)|[(_ & d' & k & p & _ & ->)|[(_ & t & ts & ->)|(_ & ->)]]];
    cbn [level_nodes]; try assumption;
    (destruct (decide (d' = d)) as [->|Hne];
     [rewrite lookup_insert_eq; eauto
     | now rewrite lookup_insert_ne]).
Qed.

Lemma foldl_keeps_open (cfg : Config) (cols : list string)
      (rows : list Series) (st : State) (d : Z) :
  is_Some (level_nodes st !! d) ->
  is_Some (level_nodes (foldl (step cfg cols) st rows) !! d).
Proof.
  revert st. induction rows as [|row rows IH]; intros st Hd; [exact Hd|].
  cbn [foldl]. apply IH. now apply step_keeps_open.
Qed.

(** X12.  A depth that has been opened stays open for the rest of the
    pass.  So once a node has been opened at depth 1, every later note row
    is appended to the node open at depth 1 at that time, never to a
    depth-0 node, also when depth-0 rows came in between. *)
Theorem notes_follow_the_heading
        (cfg : Config) (cols : list string) (st : State)
        (rows : list Series) (row : Series) :
  is_Some (level_nodes st !! 1) ->
  is_note_row cfg row = true ->
  exists t,
    level_nodes (foldl (step cfg cols) st rows) !! 1 = Some t /\
    step cfg cols (foldl (step cfg cols) st rows) row =
    {| heap := alter (append_notes
                        (note_texts cols (prepared_note_cols cfg) row))
                     t (heap (foldl (step cfg cols) st rows));
       root := root (foldl (step cfg cols) st rows);
       level_nodes := level_nodes (foldl (step cfg cols) st rows) |}.
Proof.
  intros Hopen Hnote.
  destruct (foldl_keeps_open cfg cols rows st 1 Hopen) as [t Ht].
  exists t. split; [exact Ht|].
  apply step_note_attach; [exact Hnote|].
  unfold note_target. now rewrite Ht.
Qed.

(** After a chapter and a heading, a second chapter comes, then a note:
    the note goes to the heading (address 1), not to the new chapter. *)
Lemma notes_follow_the_heading_witness :
  exists t,
    level_nodes (foldl (step default_config cols4) heading_open
                   [zip cols4 chapter26_cells]) !! 1 = Some t /\
    t = 1%nat.
Proof.
  destruct (notes_follow_the_heading default_config cols4 heading_open
              [zip cols4 chapter26_cells] (zip cols4 note_cells))
    as (t & Ht & _).
  - exists 1%nat. reflexivity.
  - reflexivity.
  - exists t. split; [exact Ht|].
    vm_compute in Ht. now injection Ht as <-.
Defined.

(** X13.  A structural row of depth 0 directly followed by one of depth 2,
    while a node [b] opened earlier at depth 1 is still in the table: the
    depth-2 node is appended to the children of that older node [b], not to
    the depth-0 node that has just been created. *)
Theorem depth_two_attaches_to_stale_depth_one
        (cfg : Config) (cols : list string) (st : State) (r0 r2 : Series)
        (b : nat) :
  is_note_row cfg r0 = false ->
  is_note_row cfg r2 = false ->
  row_depth cfg r0 = 0 ->
  row_depth cfg r2 = 2 ->
  level_nodes st !! 1 = Some b ->
  step cfg cols (step cfg cols st r0) r2 =
  {| heap := alter (append_child (S (length (heap st)))) b
                   (heap st ++ [new_cell r0]) ++ [new_cell r2];
     root := root st ++ [length (heap st)];
     level_nodes :=
       <[2 := S (length (heap st))]>
         (<[0 := length (heap st)]> (level_nodes st)) |}.
Proof.
  intros Hn0 Hn2 Hd0 Hd2 Hb.
  rewrite (step_structural_zero cfg cols st r0 Hn0 Hd0).
  rewrite (step_structural_child cfg cols _ r2 1 b Hn2).
  - cbn [heap root level_nodes]. rewrite Hd2, length_app. cbn [length].
    now rewrite Nat.add_1_r.
  - rewrite Hd2. discriminate.
  - rewrite Hd2. cbn [level_nodes]. split.
    + rewrite lookup_insert_ne by discriminate. exact Hb.
    + split; [lia|]. intros d' _ Hlt. lia.
Qed.

Lemma depth_two_attaches_to_stale_depth_one_witness :
  c_children <$> heap (step default_config cols4
                         (step default_config cols4 heading_open
                               (zip cols4 chapter26_cells))
                         (zip cols4 deep_cells))
  = [[1%nat]; [3%nat]; []; []].
Proof.
  rewrite (depth_two_attaches_to_stale_depth_one default_config cols4
             heading_open (zip cols4 chapter26_cells) (zip cols4 deep_cells)
             1%nat); reflexivity.
Defined.

End BuilderLoopMore.

(* ================================================================== *)
(** * The nodes of the forest and the cells of the store *)
(* ================================================================== *)

Section ForestNodes.
Import PyText PyValue Tree ExcelToHierarchy BuilderSpec Pipeline ForestSpec.

Variable h : list Cell.

Hypothesis children_younger :
  forall i j, In j (children_of h i) -> (i < j)%nat.
Hypothesis children_in_store :
  forall i j, In j (children_of h i) -> (j < length h)%nat.

Lemma attrs_reify (f i : nat) :
  attrs (reify (S f) h i) = cell_attrs h i.
Proof.
  unfold cell_attrs. cbn [reify]. now destruct (h !! i).
Qed.

Lemma Forall_flat_map_intro {A B : Type} (P : B -> Prop) (g : A -> list B)
      (l : list A) :
  (forall a, In a l -> Forall P (g a)) -> Forall P (flat_map g l).
Proof.
  induction l as [|a l IH]; intros Hg; [constructor|].
  cbn. apply Forall_app. split; [apply Hg; now left|].
  apply IH. intros b Hb. apply Hg. now right.
Qed.

(** Every node read off the store is the image of a cell. *)
Lemma nodes_of_reify (f : nat) :
  forall i, (i < length h)%nat -> (length h - i <= f)%nat ->
    Forall (fun node => exists j c, h !! j = Some c /\ node_of_cell h node c)
           (nodes_of (reify f h i)).
Proof.
  induction f as [|f IH]; intros i Hi Hf; [lia|].
  destruct (lookup_lt_is_Some_2 h i Hi) as [c Hc].
  cbn [reify]. rewrite Hc. cbn [nodes_of].
  assert (children_of h i = c_children c) as Hch
    by (unfold children_of; now rewrite Hc).
  constructor.
  - exists i, c. split; [exact Hc|]. split; [reflexivity|].
    split; [reflexivity|]. cbn [children]. rewrite map_map.
    apply map_ext_in. intros j Hj. rewrite <- Hch in Hj.
    pose proof (children_younger i j Hj).
    pose proof (children_in_store i j Hj).
    destruct f as [|f]; [lia|]. apply attrs_reify.
  - rewrite flat_map_concat_map, map_map, <- flat_map_concat_map.
    apply Forall_flat_map_intro. intros j Hj. rewrite <- Hch in Hj.
    pose proof (children_younger i j Hj).
    pose proof (children_in_store i j Hj).
    apply IH; lia.
Qed.

Lemma forest_nodes_reify (roots : list nat) :
  (forall r, In r roots -> (r < length h)%nat) ->
  Forall (fun node => exists j c, h !! j = Some c /\ node_of_cell h node c)
         (forest_nodes (map (reify (length h) h) roots)).
Proof.
  intros Hroots. unfold forest_nodes.
  rewrite flat_map_concat_map, map_map, <- flat_map_concat_map.
  apply Forall_flat_map_intro. intros r Hr.
  apply nodes_of_reify; [now apply Hroots | lia].
Qed.

Lemma roots_attrs (roots : list nat) :
  (forall r, In r roots -> (r < length h)%nat) ->
  map attrs (map (reify (length h) h) roots) = map (cell_attrs h) roots.
Proof.
  intros Hroots. rewrite map_map. apply map_ext_in. intros r Hr.
  specialize (Hroots r Hr). destruct (length h) as [|n]; [lia|].
  apply attrs_reify.
Qed.

End ForestNodes.

(* ================================================================== *)
(** * What the returned forest is made of *)
(* ================================================================== *)

Section ForestContents.
Import PyText PyValue Tree ExcelToHierarchy BuilderSpec Pipeline ForestSpec.
Import Inputs MoreInputs.

(** Induction over the loop. *)
Lemma foldl_step_ind (P : State -> Prop) (Q : Series -> Prop)
      (cfg : Config) (cols : list string) (rows : list Series) (st : State) :
  Forall Q rows ->
  (forall st row, Q row -> P st -> P (step cfg cols st row)) ->
  P st -> P (foldl (step cfg cols) st rows).
Proof.
  intros Hrows Hstep. revert st.
  induction Hrows as [|row rows Hrow _ IH]; intros st Hst; [exact Hst|].
  cbn [foldl]. apply IH. now apply Hstep.
Qed.

Lemma sublist_map {A B : Type} (f : A -> B) (l1 l2 : list A) :
  sublist l1 l2 -> sublist (map f l1) (map f l2).
Proof.
  induction 1; cbn; [constructor | now constructor | now constructor].
Qed.

Lemma seq_snoc (n : nat) : seq 0 (S n) = seq 0 n ++ [n].
Proof. now rewrite seq_S. Qed.

(** ** Addresses are listed in increasing order *)

Lemma step_ordered (cfg : Config) (cols : list string) (st : State)
      (row : Series) :
  ordered_store st -> ordered_store (step cfg cols st row).
Proof.
  intros [Hroot Hkids].
  destruct (step_cases cfg cols st row)
    as [(_ & d & ->)|[(_ & d & k & p & _ & ->)|[(_ & t & ts & ->)|(_ & ->)]]];
    [| | |now split]; split; cbn [heap root];
    rewrite ?length_app, ?length_alter; cbn [length];
    rewrite ?Nat.add_1_r, ?seq_snoc.
  - apply sublist_app; [exact Hroot | reflexivity].
  - intros i c Hi. apply lookup_app_Some in Hi as [Hi|[_ Hi]].
    + apply sublist_inserts_r. now apply (Hkids i).
    + apply list_lookup_singleton_Some in Hi as [_ <-]. apply sublist_nil_l.
  - now apply sublist_inserts_r.
  - intros i c Hi. apply lookup_app_Some in Hi as [Hi|[_ Hi]].
    + destruct (decide (i = p)) as [->|Hne].
      * rewrite list_lookup_alter_eq in Hi.
        destruct (heap st !! p) as [c0|] eqn:E0; [|discriminate].
        injection Hi as <-. cbn [append_child c_children].
        apply sublist_app; [now apply (Hkids p) | reflexivity].
      * rewrite list_lookup_alter_ne in Hi by congruence.
        apply sublist_inserts_r. now apply (Hkids i).
    + apply list_lookup_singleton_Some in Hi as [_ <-]. apply sublist_nil_l.
  - exact Hroot.
  - intros i c Hi. destruct (decide (i = t)) as [->|Hne].
    + rewrite list_lookup_alter_eq in Hi.
      destruct (heap st !! t) as [c0|] eqn:E0; [|discriminate].
      injection Hi as <-. cbn [append_notes c_children]. now apply (Hkids t).
    + rewrite list_lookup_alter_ne in Hi by congruence. now apply (Hkids i).
Qed.

Lemma run_ordered (cfg : Config) (df : DataFrame) : ordered_store (run cfg df).
Proof.
  unfold run.
  apply (foldl_step_ind ordered_store (fun _ => True)).
  - apply Forall_forall. trivial.
  - intros st row _. apply step_ordered.
  - split; [reflexivity|]. intros i c Hi. cbn in Hi.
    now rewrite lookup_nil in Hi.
Qed.

(** The attributes stored at all the addresses are those of the nodes
    built from the structural rows. *)
Lemma store_attrs (st : State) (rows : list Series) :
  tracks st rows ->
  map (cell_attrs (heap st)) (seq 0 (length (heap st)))
  = map (fun row => c_attrs (new_cell row)) rows.
Proof.
  intros Htr. rewrite <- Htr.
  exact (map_lookup_seq c_attrs [] [] (heap st)).
Qed.

Lemma store_roots_in_store (st : State) :
  forest_store st -> forall r, In r (root st) -> (r < length (heap st))%nat.
Proof.
  intros (_ & Hperm & _) r Hr.
  assert (In r (seq 0 (length (heap st)))) as Hs; [|now apply in_seq in Hs].
  apply (Permutation_in _ Hperm), in_or_app. now left.
Qed.

(** The nodes of the forest returned for a table, with the facts about the
    final store. *)
Lemma built_forest_nodes (cfg : Config) (df df' : DataFrame)
      (forest : list Node) :
  build_hierarchy cfg df = Some (df', forest) ->
  forest = forest_of (run cfg df') /\
  forest_store (run cfg df') /\
  tracks (run cfg df') (structural_rows cfg df') /\
  Forall (fun node => exists j c, heap (run cfg df') !! j = Some c /\
                        node_of_cell (heap (run cfg df')) node c)
         (forest_nodes forest).
Proof.
  unfold build_hierarchy.
  destruct (normalize_table cfg df) as [df0|]; [|discriminate].
  intros [= <- <-].
  destruct (run_forest_store cfg df0) as [Hfs Htr].
  repeat split; try assumption; try apply Hfs.
  apply forest_nodes_reify.
  - apply (store_children_younger _ Hfs).
  - apply (store_children_in_store _ Hfs).
  - apply (store_roots_in_store _ Hfs).
Qed.

(** X14.  Siblings keep the order of their rows: the roots of the forest,
    and the children of every node, carry attributes of structural rows in
    table order. *)
Theorem siblings_in_row_order
        (cfg : Config) (df df' : DataFrame) (forest : list Node) :
  build_hierarchy cfg df = Some (df', forest) ->
  in_row_order cfg df' forest /\
  forall node, In node (forest_nodes forest) ->
    in_row_order cfg df' (children node).
Proof.
  intros Hbuild.
  destruct (built_forest_nodes cfg df df' forest Hbuild)
    as (-> & Hfs & Htr & Hnodes).
  destruct (run_ordered cfg df') as [Hroot Hkids].
  unfold in_row_order, row_nodes. rewrite <- (store_attrs _ _ Htr).
  split.
  - unfold forest_of.
    rewrite roots_attrs
      by first [ exact (store_roots_in_store _ Hfs)
               | exact (store_children_in_store _ Hfs)
               | exact (store_children_younger _ Hfs) ].
    now apply sublist_map.
  - intros node Hnode. rewrite Forall_forall in Hnodes.
    destruct (Hnodes node) as (j & c & Hc & _ & _ & ->);
      [now apply list_elem_of_In|].
    apply sublist_map. now apply (Hkids j).
Qed.

Lemma siblings_in_row_order_witness :
  build_hierarchy default_config two_chapter_table
  = Some (two_chapter_table, two_chapter_forest) /\
  in_row_order default_config two_chapter_table two_chapter_forest.
Proof.
  assert (build_hierarchy default_config two_chapter_table
          = Some (two_chapter_table, two_chapter_forest)) as Hbuild
    by (vm_compute; reflexivity).
  split; [exact Hbuild|].
  apply (siblings_in_row_order default_config two_chapter_table
           two_chapter_table two_chapter_forest Hbuild).
Defined.

(** X15.  Every node of the forest is built from a structural row of the
    table: it carries that row's cells, none of which is [nan] (missing
    cells are [None]) and none under the keys "notes" or "children". *)
Theorem nodes_come_from_rows
        (cfg : Config) (df df' : DataFrame) (forest : list Node) (node : Node) :
  build_hierarchy cfg df = Some (df', forest) ->
  In node (forest_nodes forest) ->
  (exists row, In row (structural_rows cfg df') /\
               attrs node = c_attrs (new_cell row)) /\
  (forall k v, In (k, v) (attrs node) ->
     v <> VNaN /\ is_list_key k = false).
Proof.
  intros Hbuild Hnode.
  destruct (built_forest_nodes cfg df df' forest Hbuild)
    as (_ & _ & Htr & Hnodes).
  rewrite Forall_forall in Hnodes.
  destruct (Hnodes node) as (j & c & Hc & Hattrs & _);
    [now apply list_elem_of_In|].
  assert (exists row, In row (structural_rows cfg df') /\
                      attrs node = c_attrs (new_cell row)) as Hrow.
  { assert (In (c_attrs c)
               (map (fun row => c_attrs (new_cell row))
                    (structural_rows cfg df'))) as Hin.
    { rewrite <- Htr. apply in_map, list_elem_of_In.
      now apply list_elem_of_lookup_2 with j. }
    apply in_map_iff in Hin as (row & Hr & Hin).
    exists row. split; [exact Hin | congruence]. }
  split; [exact Hrow|].
  destruct Hrow as (row & _ & ->). intros k v Hkv.
  cbn [new_cell c_attrs] in Hkv.
  apply filter_In in Hkv as [Hkv Hkey]. cbn [fst] in Hkey.
  apply in_map_iff in Hkv as ([k0 v0] & [= -> <-] & _).
  split; [|now apply negb_true_iff in Hkey].
  unfold nan_to_none. now destruct v0.
Qed.

Lemma nodes_come_from_rows_witness :
  exists row,
    In row (structural_rows default_config skip_level_table) /\
    attrs (hd (mkNode [] [] []) skip_level_forest) = c_attrs (new_cell row).
Proof.
  refine (proj1 (nodes_come_from_rows default_config skip_level_table
                   skip_level_table skip_level_forest
                   (hd (mkNode [] [] []) skip_level_forest) _ _)).
  - vm_compute. reflexivity.
  - vm_compute. left. reflexivity.
Defined.

(** ** Notes are stripped texts *)

Lemma lstrip_chars_head_ok (l : list ascii) : head_ok (lstrip_chars l).
Proof.
  induction l as [|c l IH]; cbn; [exact I|].
  destruct (is_space c) eqn:E; [exact IH | exact E].
Qed.

Lemma lstrip_chars_fixed (l : list ascii) :
  head_ok l -> lstrip_chars l = l.
Proof. destruct l as [|c l]; cbn; [reflexivity | now intros ->]. Qed.

Lemma lstrip_chars_suffix (l : list ascii) :
  exists ws, l = ws ++ lstrip_chars l.
Proof.
  induction l as [|c l [ws IH]]; cbn; [now exists []|].
  destruct (is_space c); [|now exists []].
  exists (c :: ws). cbn. now rewrite <- IH.
Qed.

(** Stripping the right end of a list that does not begin with whitespace
    gives a list that does not begin with whitespace. *)
Lemma rstrip_head_ok (a : list ascii) :
  head_ok a -> head_ok (rev (lstrip_chars (rev a))).
Proof.
  intros Ha. destruct (lstrip_chars_suffix (rev a)) as [ws Hws].
  apply (f_equal (@rev ascii)) in Hws.
  rewrite rev_involutive, rev_app_distr in Hws.
  destruct (rev (lstrip_chars (rev a))) as [|c b]; [exact I|].
  rewrite Hws in Ha. exact Ha.
Qed.

(** [strip] is idempotent. *)
Lemma strip_idempotent (s : string) : strip (strip s) = strip s.
Proof.
  unfold strip. rewrite list_ascii_of_string_of_list_ascii.
  set (a := lstrip_chars (list_ascii_of_string s)).
  rewrite (lstrip_chars_fixed (rev (lstrip_chars (rev a)))).
  - rewrite rev_involutive.
    now rewrite (lstrip_chars_fixed _ (lstrip_chars_head_ok (rev a))).
  - apply rstrip_head_ok, lstrip_chars_head_ok.
Qed.

Lemma note_texts_stripped (cols note_cols : list string) (row : Series) :
  Forall (fun t => strip t = t) (note_texts cols note_cols row).
Proof.
  unfold note_texts. apply Forall_flat_map_intro. intros col _.
  destruct (bool_decide (col ∈ cols)); [|constructor].
  destruct (is_float_nan (row_get row col VNone)); [constructor|].
  constructor; [apply strip_idempotent | constructor].
Qed.

Lemma step_stripped (cfg : Config) (cols : list string) (st : State)
      (row : Series) :
  stripped_store st -> stripped_store (step cfg cols st row).
Proof.
  unfold stripped_store. intros Hst.
  destruct (is_note_row cfg row) eqn:Hnote.
  - destruct (note_target (level_nodes st)) as [t|] eqn:Et.
    + rewrite (step_note_attach cfg cols st row t Hnote Et). cbn [heap].
      apply Forall_alter; [exact Hst|]. intros c _ Hc.
      cbn [append_notes c_notes]. apply Forall_app. split; [exact Hc|].
      apply note_texts_stripped.
    + now rewrite step_note_drop.
  - destruct (step_cases cfg cols st row)
      as [(_ & d & ->)|[(_ & d & k & p & _ & ->)|[(Hn & _)|(Hn & _)]]];
      try congruence; cbn [heap]; apply Forall_app; split;
      try (constructor; [constructor | constructor]); try exact Hst.
    apply Forall_alter; [exact Hst|]. now intros c _ Hc.
Qed.

Lemma run_stripped (cfg : Config) (df : DataFrame) : stripped_store (run cfg df).
Proof.
  unfold run. apply (foldl_step_ind stripped_store (fun _ => True)).
  - apply Forall_forall. trivial.
  - intros st row _. apply step_stripped.
  - constructor.
Qed.

(** X16.  Every note held by a node of the forest is a stripped text: it
    has no whitespace at either end. *)
Theorem notes_are_stripped
        (cfg : Config) (df df' : DataFrame) (forest : list Node) (node : Node) :
  build_hierarchy cfg df = Some (df', forest) ->
  In node (forest_nodes forest) ->
  Forall (fun t => strip t = t) (notes node).
Proof.
  intros Hbuild Hnode.
  destruct (built_forest_nodes cfg df df' forest Hbuild)
    as (_ & _ & _ & Hnodes).
  rewrite Forall_forall in Hnodes.
  destruct (Hnodes node) as (j & c & Hc & _ & -> & _);
    [now apply list_elem_of_In|].
  pose proof (run_stripped cfg df') as Hst. unfold stripped_store in Hst.
  rewrite Forall_forall in Hst. apply Hst.
  now apply list_elem_of_lookup_2 with j.
Qed.

Lemma notes_are_stripped_witness :
  Forall (fun node => Forall (fun t => strip t = t) (notes node))
         (forest_nodes noted_forest).
Proof.
  apply Forall_forall. intros node Hnode.
  apply (notes_are_stripped default_config noted_table noted_normalised
           noted_forest node).
  - vm_compute. reflexivity.
  - now apply list_elem_of_In.
Defined.

End ForestContents.

(* ================================================================== *)
(** * The flattener follows the walk of the forest *)
(* ================================================================== *)

Section FlattenerWalk.
Import PyText PyValue Tree JsonFlatten FlattenSpec Pipeline ForestSpec.
Import WalkSpec Inputs.

(** Induction on nested objects: a property holds of every node when it
    passes from the children to the parent. *)
Lemma Node_induction (P : Node -> Prop) :
  (forall a ns kids, Forall P kids -> P (mkNode a ns kids)) ->
  forall n, P n.
Proof.
  intros Hstep. fix IH 1. intros [a ns kids]. apply Hstep.
  induction kids as [|k kids IHkids]; constructor; [apply IH | exact IHkids].
Qed.

Lemma calls_nodes (n : Node) :
  forall chain, map fst (calls n chain) = nodes_of n.
Proof.
  induction n as [a ns kids IH] using Node_induction. intros chain.
  cbn [calls nodes_of map fst]. f_equal.
  generalize (chain ++ [mkNode a ns kids]). intros ch.
  induction IH as [|k kids Hk _ IHkids]; [reflexivity|].
  cbn [flat_map]. now rewrite map_app, Hk, IHkids.
Qed.

Lemma forest_calls_nodes (data : list Node) :
  map fst (forest_calls data) = forest_nodes data.
Proof.
  unfold forest_calls, forest_nodes.
  induction data as [|r data IH]; [reflexivity|].
  cbn [flat_map]. now rewrite map_app, calls_nodes, IH.
Qed.

Lemma traverse_each_calls (kids : list Node) :
  Forall (fun k => forall chain docs, traverse k chain = Some docs ->
                     Forall2 emitted_by docs (calls k chain)) kids ->
  forall chain below, traverse_each kids chain = Some below ->
    Forall2 emitted_by below (flat_map (fun k => calls k chain) kids).
Proof.
  induction 1 as [|k kids Hk _ IH]; intros chain below Hrun; cbn in Hrun.
  - injection Hrun as <-. constructor.
  - destruct (traverse k chain) as [ds|] eqn:Ek; [|discriminate].
    destruct (traverse_each kids chain) as [ds'|] eqn:Eks; [|discriminate].
    injection Hrun as <-. cbn [flat_map].
    apply Forall2_app; [now apply Hk | now apply IH].
Qed.

(** The documents of a call are those of the calls it leads to, in the
    order of the calls. *)
Lemma traverse_calls (n : Node) :
  forall chain docs, traverse n chain = Some docs ->
    Forall2 emitted_by docs (calls n chain).
Proof.
  induction n as [a ns kids IH] using Node_induction.
  intros chain docs Hrun. rewrite traverse_eq in Hrun.
  destruct (make_doc (mkNode a ns kids) chain) as [doc|] eqn:Ed;
    [|discriminate].
  cbn [children] in Hrun.
  destruct (traverse_each kids (chain ++ [mkNode a ns kids]))
    as [below|] eqn:Eb; [|discriminate].
  injection Hrun as <-. cbn [calls]. constructor; [exact Ed|].
  now apply (traverse_each_calls kids IH).
Qed.

Lemma emitted_copies (doc : Doc) (call : Node * list Node) :
  emitted_by doc call -> copies doc (fst call).
Proof.
  unfold emitted_by, make_doc. destruct (join_path _); [|discriminate].
  intros [= <-]. unfold copies. cbn. tauto.
Qed.

(** X17.  The flattener returns exactly one document per node of the
    forest, in the order of a depth-first walk that meets a parent before
    its children and the children in their order; each document is the one
    built from its node and the chain of its ancestors, and copies the
    node's code, description, level, unit, remark and six duty texts. *)
Theorem one_record_per_node (data : list Node) (docs : list Doc) :
  flatten_hsn_json_with_inherited data = Some docs ->
  Forall2 emitted_by docs (forest_calls data) /\
  Forall2 copies docs (forest_nodes data).
Proof.
  unfold flatten_hsn_json_with_inherited. rewrite traverse_all_each.
  intros Hrun.
  assert (Forall2 emitted_by docs (forest_calls data)) as Hcalls.
  { apply (traverse_each_calls data); [|exact Hrun].
    apply Forall_forall. intros k _. apply traverse_calls. }
  split; [exact Hcalls|].
  rewrite <- forest_calls_nodes. apply Forall2_fmap_r.
  apply (Forall2_impl _ _ _ _ Hcalls). intros doc call. apply emitted_copies.
Qed.

Lemma one_record_per_node_witness :
  Forall2 copies chain_docs (forest_nodes [node_A]).
Proof.
  apply (one_record_per_node [node_A] chain_docs).
  vm_compute. reflexivity.
Defined.

(** ** When the flattener returns *)

Lemma map_texts {A : Type} (g : A -> value) (l : list A) :
  forall parts, map g l = map VStr parts ->
    Forall (fun x => exists s, g x = VStr s) l.
Proof.
  induction l as [|x l IH]; intros parts Hmap; [constructor|].
  destruct parts as [|s parts]; [discriminate|].
  injection Hmap as Hx Hl. constructor; [now exists s | now apply (IH parts)].
Qed.

(** A document can be built exactly when the node and all its ancestors
    carry a text as description. *)
Lemma make_doc_returns_iff (node : Node) (chain : list Node) :
  is_Some (make_doc node chain) <->
  Forall has_text_description (chain ++ [node]).
Proof.
  split.
  - intros [doc Hdoc].
    destruct (make_doc_fields _ _ _ Hdoc) as (_ & Hcrumb & _).
    apply join_path_spec in Hcrumb as (parts & Hpath & _).
    change [get node "item_description"]
      with (map (fun anc => get anc "item_description") [node]) in Hpath.
    rewrite <- map_app in Hpath. exact (map_texts _ _ _ Hpath).
  - intros Hall. apply Forall_app in Hall as [Hchain Hnode].
    apply Forall_cons in Hnode as [Hnode _].
    destruct (make_doc_text node chain Hchain Hnode) as (doc & Hdoc & _).
    now exists doc.
Qed.

Lemma traverse_each_returns_iff (kids : list Node) :
  Forall (fun k => forall chain, Forall has_text_description chain ->
            (is_Some (traverse k chain) <->
             Forall has_text_description (nodes_of k))) kids ->
  forall chain, Forall has_text_description chain ->
    (is_Some (traverse_each kids chain) <->
     Forall has_text_description (flat_map nodes_of kids)).
Proof.
  induction 1 as [|k kids Hk _ IH]; intros chain Hchain.
  - cbn. split; [constructor | now eexists].
  - cbn [traverse_each flat_map].
    rewrite Forall_app, <- (Hk chain Hchain), <- (IH chain Hchain).
    destruct (traverse k chain) as [ds|];
      destruct (traverse_each kids chain) as [ds'|]; split; intros Hs;
      first [ solve [destruct Hs as [? [=]]]
            | solve [destruct Hs as [[? [=]] _]]
            | solve [destruct Hs as [_ [? [=]]]]
            | solve [split; eexists; reflexivity]
            | solve [eexists; reflexivity] ].
Qed.

Lemma traverse_returns_iff (n : Node) :
  forall chain, Forall has_text_description chain ->
    (is_Some (traverse n chain) <->
     Forall has_text_description (nodes_of n)).
Proof.
  induction n as [a ns kids IH] using Node_induction.
  intros chain Hchain. rewrite traverse_eq.
  cbn [nodes_of children]. rewrite Forall_cons.
  pose proof (make_doc_returns_iff (mkNode a ns kids) chain) as Hdoc.
  rewrite Forall_app, Forall_singleton in Hdoc.
  destruct (make_doc (mkNode a ns kids) chain) as [doc|].
  - assert (has_text_description (mkNode a ns kids)) as Hnode
      by (apply Hdoc; now eexists).
    assert (Forall has_text_description (chain ++ [mkNode a ns kids]))
      as Hchain'
      by (apply Forall_app; split; [exact Hchain | now constructor]).
    rewrite <- (traverse_each_returns_iff kids IH _ Hchain').
    destruct (traverse_each kids (chain ++ [mkNode a ns kids])) as [below|];
      split; intros Hs;
      first [ solve [destruct Hs as [? [=]]]
            | solve [destruct Hs as [_ [? [=]]]]
            | solve [split; [exact Hnode | eexists; reflexivity]]
            | solve [eexists; reflexivity] ].
  - split; [intros [? [=]]|]. intros [Hnode _].
    destruct Hdoc as [_ Hdoc]. destruct Hdoc as [? [=]]. now split.
Qed.

(** X18.  The flattener returns (rather than raising from the breadcrumb
    join) exactly when every node of the forest carries a text under
    "item_description". *)
Theorem flatten_returns_iff (data : list Node) :
  is_Some (flatten_hsn_json_with_inherited data) <->
  Forall has_text_description (forest_nodes data).
Proof.
  unfold flatten_hsn_json_with_inherited. rewrite traverse_all_each.
  apply traverse_each_returns_iff; [|constructor].
  apply Forall_forall. intros k _. apply traverse_returns_iff.
Qed.

(** ** A document and the document of the parent *)

Lemma visits_snoc (top : Node) (chain0 : list Node) (parent : Node)
      (chain : list Node) (child : Node) :
  visits top chain0 parent chain ->
  In child (children parent) ->
  visits top chain0 child (chain ++ [parent]).
Proof.
  induction 1 as [top chain0 | top chain0 kid node chain Hin Hv IH];
    intros Hchild.
  - apply visits_child with (child := child); [exact Hchild|].
    apply visits_here.
  - apply visits_child with (child := kid); [exact Hin | now apply IH].
Qed.

Lemma string_app_assoc (a b c : string) :
  ((a ++ b) ++ c = a ++ (b ++ c))%string.
Proof.
  induction a as [|x a IH]; [reflexivity|].
  change (String x a ++ b)%string with (String x (a ++ b)%string).
  change (String x (a ++ b) ++ c)%string
    with (String x ((a ++ b) ++ c)%string).
  change (String x a ++ (b ++ c))%string
    with (String x (a ++ (b ++ c))%string).
  now rewrite IH.
Qed.

Lemma join_snoc (sep : string) (ps : list string) (s : string) :
  ps <> [] -> join sep (ps ++ [s]) = (join sep ps ++ sep ++ s)%string.
Proof.
  induction ps as [|p ps IH]; [congruence|]. intros _.
  destruct ps as [|q ps]; [reflexivity|].
  change (join sep ((p :: q :: ps) ++ [s]))
    with (p ++ sep ++ join sep ((q :: ps) ++ [s]))%string.
  rewrite IH by discriminate.
  change (join sep (p :: q :: ps))
    with (p ++ sep ++ join sep (q :: ps))%string.
  now rewrite !string_app_assoc.
Qed.

Lemma map_texts_snoc (a : list string) (v : value) :
  forall b, map VStr a ++ [v] = map VStr b ->
    exists s, v = VStr s /\ b = a ++ [s].
Proof.
  induction a as [|x a IH]; intros b Hb.
  - destruct b as [|s [|t b]]; try discriminate.
    injection Hb as ->. now exists s.
  - destruct b as [|y b]; [discriminate|].
    injection Hb as <- Hb. destruct (IH b Hb) as (s & -> & ->).
    now exists s.
Qed.

(** The breadcrumb of a path with one more item. *)
Lemma join_path_snoc (path : list value) (v : value) (crumb crumb' : string) :
  path <> [] ->
  join_path path = Some crumb ->
  join_path (path ++ [v]) = Some crumb' ->
  exists s, v = VStr s /\ crumb' = (crumb ++ " > " ++ s)%string.
Proof.
  intros Hne Hp Hc.
  apply join_path_spec in Hp as (parts & -> & ->).
  apply join_path_spec in Hc as (parts' & Hparts & ->).
  apply map_texts_snoc in Hparts as (s & -> & ->).
  exists s. split; [reflexivity|]. apply join_snoc.
  intros ->. now apply Hne.
Qed.

(** The fields of a document that name the node and its parent. *)
Lemma make_doc_names (node : Node) (chain : list Node) (doc : Doc) :
  make_doc node chain = Some doc ->
  id doc = get node "hs_code" /\
  text doc = get node "item_description" /\
  parent_id doc = parent_field chain "hs_code" /\
  parent_text doc = parent_field chain "item_description".
Proof.
  unfold make_doc. destruct (join_path _); [|discriminate].
  intros [= <-]. cbn. tauto.
Qed.

(** The documents of a visited node and of one of its children. *)
Lemma parent_and_child_emitted (data : list Node) (docs : list Doc)
      (top parent : Node) (chain : list Node) (child : Node) :
  flatten_hsn_json_with_inherited data = Some docs ->
  In top data ->
  visits top [] parent chain ->
  In child (children parent) ->
  exists pdoc doc,
    In pdoc docs /\ In doc docs /\
    make_doc parent chain = Some pdoc /\
    make_doc child (chain ++ [parent]) = Some doc.
Proof.
  intros Hrun Hin Hv Hchild.
  destruct (flatten_emits _ _ _ _ _ Hrun Hin Hv) as (pdoc & Hpdoc & Hpmem).
  destruct (flatten_emits _ _ _ _ _ Hrun Hin (visits_snoc _ _ _ _ _ Hv Hchild))
    as (doc & Hdoc & Hmem).
  now exists pdoc, doc.
Qed.

(** X19.  The document of a child names its parent's document: its
    [parent_id] and [parent_text] are the [id] and [text] of the document
    of the node one level up, and its breadcrumb is the parent's
    breadcrumb, then [" > "], then its own description. *)
Theorem child_record_extends_parent
        (data : list Node) (docs : list Doc)
        (top parent : Node) (chain : list Node) (child : Node) :
  flatten_hsn_json_with_inherited data = Some docs ->
  In top data ->
  visits top [] parent chain ->
  In child (children parent) ->
  exists pdoc doc s,
    In pdoc docs /\ In doc docs /\
    make_doc parent chain = Some pdoc /\
    make_doc child (chain ++ [parent]) = Some doc /\
    parent_id doc = id pdoc /\
    parent_text doc = text pdoc /\
    text doc = VStr s /\
    breadcrumb doc = (breadcrumb pdoc ++ " > " ++ s)%string.
Proof.
  intros Hrun Hin Hv Hchild.
  destruct (parent_and_child_emitted _ _ _ _ _ _ Hrun Hin Hv Hchild)
    as (pdoc & doc & Hpmem & Hmem & Hpdoc & Hdoc).
  destruct (make_doc_names _ _ _ Hpdoc) as (Hpid & Hptext & _).
  destruct (make_doc_names _ _ _ Hdoc) as (_ & Htext & Hparent & Hparent').
  destruct (make_doc_fields _ _ _ Hpdoc) as (_ & Hpcrumb & _).
  destruct (make_doc_fields _ _ _ Hdoc) as (_ & Hcrumb & _).
  rewrite map_app in Hcrumb. cbn [map] in Hcrumb.
  assert (map (fun anc => get anc "item_description") chain
            ++ [get parent "item_description"] <> []) as Hne
    by (destruct (map _ chain); discriminate).
  destruct (join_path_snoc _ _ _ _ Hne Hpcrumb Hcrumb) as (s & Hs & Hjoin).
  exists pdoc, doc, s. unfold parent_field in Hparent, Hparent'.
  rewrite last_snoc in Hparent, Hparent'.
  repeat (split; [assumption || congruence|]). exact Hjoin.
Qed.

Lemma child_record_extends_parent_witness :
  exists pdoc doc s,
    In pdoc chain_docs /\ In doc chain_docs /\
    make_doc node_B [node_A] = Some pdoc /\
    make_doc node_C ([node_A] ++ [node_B]) = Some doc /\
    parent_id doc = id pdoc /\
    parent_text doc = text pdoc /\
    text doc = VStr s /\
    breadcrumb doc = (breadcrumb pdoc ++ " > " ++ s)%string.
Proof.
  apply (child_record_extends_parent [node_A] chain_docs node_A node_B
           [node_A] node_C).
  - vm_compute. reflexivity.
  - now left.
  - apply visits_child with (child := node_B); [now left | apply visits_here].
  - now left.
Defined.

(** X20.  The document of a root has no parent: [parent_id] and
    [parent_text] are unset, the breadcrumb is the root's own description,
    the notes are its own notes, and the two policy fields are what the
    root itself holds. *)
Theorem root_record (data : list Node) (docs : list Doc) (top : Node) :
  flatten_hsn_json_with_inherited data = Some docs ->
  In top data ->
  exists doc s,
    In doc docs /\
    make_doc top [] = Some doc /\
    parent_id doc = VNone /\
    parent_text doc = VNone /\
    text doc = VStr s /\
    breadcrumb doc = s /\
    doc_notes doc = notes top /\
    import_policy doc = get top "import_policy_text" /\
    export_policy doc = get top "export_policy_text".
Proof.
  intros Hrun Hin.
  destruct (flatten_emits _ _ _ _ _ Hrun Hin (visits_here top []))
    as (doc & Hdoc & Hmem).
  destruct (make_doc_names _ _ _ Hdoc) as (_ & Htext & Hpid & Hptext).
  destruct (make_doc_fields _ _ _ Hdoc) as (Hnotes & Hcrumb & Himp & Hexp).
  cbn [map app] in Hcrumb.
  apply join_path_spec in Hcrumb as (parts & Hparts & Hjoin).
  destruct parts as [|s [|t parts]]; try discriminate.
  injection Hparts as Hs. cbn in Hjoin.
  exists doc, s. rewrite Htext, Hnotes, Himp, Hexp.
  cbn [inherited_notes]. rewrite app_nil_r.
  unfold inherit_policy.
  destruct (py_truthy (get top "import_policy_text"));
    destruct (py_truthy (get top "export_policy_text")); cbn; tauto.
Qed.

Lemma root_record_witness :
  exists doc s,
    In doc chain_docs /\
    make_doc node_A [] = Some doc /\
    parent_id doc = VNone /\
    parent_text doc = VNone /\
    text doc = VStr s /\
    breadcrumb doc = s /\
    doc_notes doc = notes node_A /\
    import_policy doc = get node_A "import_policy_text" /\
    export_policy doc = get node_A "export_policy_text".
Proof.
  apply (root_record [node_A] chain_docs node_A).
  - vm_compute. reflexivity.
  - now left.
Defined.

(** ** Policies are handed down level by level *)

Lemma scan_default (key : string) (own other : value) (l : list Node) :
  py_truthy other = false ->
  scan key own l
  = if py_truthy (scan key other l) then scan key other l else own.
Proof.
  intros Hother. induction l as [|anc l IH]; cbn [scan].
  - now rewrite Hother.
  - destruct (py_truthy (get anc key)) eqn:E; [now rewrite E | exact IH].
Qed.

Lemma inherit_policy_snoc (key : string) (child parent : Node)
      (chain : list Node) :
  inherit_policy key child (chain ++ [parent])
  = own_or_parent (get child key) (inherit_policy key parent chain).
Proof.
  unfold inherit_policy, own_or_parent.
  destruct (py_truthy (get child key)) eqn:Ec; cbn [negb]; [reflexivity|].
  rewrite rev_unit. cbn [scan].
  destruct (py_truthy (get parent key)) eqn:Ep; cbn [negb].
  - now rewrite Ep.
  - now apply scan_default.
Qed.

(** X21.  Policies are handed down one level at a time: the policy of a
    child's document is the child's own value when that is non-empty,
    else the policy shown by its parent's document when that is
    non-empty, else the child's own (empty or unset) value. *)
Theorem policy_comes_from_parent_record
        (data : list Node) (docs : list Doc)
        (top parent : Node) (chain : list Node) (child : Node) :
  flatten_hsn_json_with_inherited data = Some docs ->
  In top data ->
  visits top [] parent chain ->
  In child (children parent) ->
  exists pdoc doc,
    In pdoc docs /\ In doc docs /\
    make_doc parent chain = Some pdoc /\
    make_doc child (chain ++ [parent]) = Some doc /\
    import_policy doc
      = own_or_parent (get child "import_policy_text") (import_policy pdoc) /\
    export_policy doc
      = own_or_parent (get child "export_policy_text") (export_policy pdoc).
Proof.
  intros Hrun Hin Hv Hchild.
  destruct (parent_and_child_emitted _ _ _ _ _ _ Hrun Hin Hv Hchild)
    as (pdoc & doc & Hpmem & Hmem & Hpdoc & Hdoc).
  destruct (make_doc_fields _ _ _ Hpdoc) as (_ & _ & Hpimp & Hpexp).
  destruct (make_doc_fields _ _ _ Hdoc) as (_ & _ & Himp & Hexp).
  exists pdoc, doc. rewrite Himp, Hexp, Hpimp, Hpexp.
  rewrite !inherit_policy_snoc. tauto.
Qed.

Lemma policy_comes_from_parent_record_witness :
  exists pdoc doc,
    In pdoc chain_docs /\ In doc chain_docs /\
    make_doc node_B [node_A] = Some pdoc /\
    make_doc node_C ([node_A] ++ [node_B]) = Some doc /\
    import_policy doc
      = own_or_parent (get node_C "import_policy_text") (import_policy pdoc) /\
    export_policy doc
      = own_or_parent (get node_C "export_policy_text") (export_policy pdoc).
Proof.
  apply (policy_comes_from_parent_record [node_A] chain_docs node_A node_B
           [node_A] node_C).
  - vm_compute. reflexivity.
  - now left.
  - apply visits_child with (child := node_B); [now left | apply visits_here].
  - now left.
Defined.

End FlattenerWalk.

(* ================================================================== *)
(** * The nodes of the forest and the rows of the table *)
(* ================================================================== *)

Section ForestWalk.
Import PyText PyValue Tree ExcelToHierarchy BuilderSpec Pipeline ForestSpec.

Variable h : list Cell.

Hypothesis children_younger :
  forall i j, In j (children_of h i) -> (i < j)%nat.
Hypothesis children_in_store :
  forall i j, In j (children_of h i) -> (j < length h)%nat.

(** The nodes of the object read at an address carry the attributes of
    the cells met by the walk from that address, in the same order. *)
Lemma nodes_attrs_reify (f : nat) :
  forall i, (i < length h)%nat -> (length h - i <= f)%nat ->
    map attrs (nodes_of (reify f h i)) = map (cell_attrs h) (preorder f h i).
Proof.
  induction f as [|f IH]; intros i Hi Hf; [lia|].
  destruct (lookup_lt_is_Some_2 h i Hi) as [c Hc].
  assert (children_of h i = c_children c) as Hch
    by (unfold children_of; now rewrite Hc).
  cbn [reify preorder]. rewrite Hc, <- Hch. cbn [nodes_of map attrs].
  f_equal; [unfold cell_attrs; now rewrite Hc|].
  assert (forall js, (forall j, In j js -> In j (children_of h i)) ->
            map attrs (flat_map nodes_of (map (reify f h) js))
            = map (cell_attrs h) (flat_map (preorder f h) js)) as Hjs.
  { induction js as [|j js IHjs]; intros Hin; [reflexivity|].
    cbn [map flat_map]. rewrite !map_app.
    pose proof (children_younger i j (Hin j (or_introl eq_refl))).
    pose proof (children_in_store i j (Hin j (or_introl eq_refl))).
    rewrite IH by lia. rewrite IHjs; [reflexivity|].
    intros k Hk. apply Hin. now right. }
  now apply Hjs.
Qed.

Lemma forest_attrs_reify (roots : list nat) :
  (forall r, In r roots -> (r < length h)%nat) ->
  map attrs (forest_nodes (map (reify (length h) h) roots))
  = map (cell_attrs h) (flat_map (preorder (length h) h) roots).
Proof.
  intros Hroots. unfold forest_nodes.
  induction roots as [|r roots IH]; [reflexivity|].
  cbn [map flat_map]. rewrite !map_app.
  rewrite (nodes_attrs_reify (length h) r)
    by first [apply Hroots; now left | lia].
  rewrite IH by (intros k Hk; apply Hroots; now right). reflexivity.
Qed.

End ForestWalk.

Section RowsAndNodes.
Import PyText PyValue Tree ExcelToHierarchy BuilderSpec Pipeline ForestSpec.
Import WalkSpec Inputs MoreInputs FlatInputs.

(** The attributes of the nodes of the returned forest are, up to order,
    those of the nodes built from the structural rows. *)
Lemma built_forest_attrs (cfg : Config) (df df' : DataFrame)
      (forest : list Node) :
  build_hierarchy cfg df = Some (df', forest) ->
  map attrs (forest_nodes forest) ≡ₚ row_nodes cfg df'.
Proof.
  unfold build_hierarchy.
  destruct (normalize_table cfg df) as [df0|]; [|discriminate].
  intros [= <- <-].
  destruct (run_forest_store cfg df0) as [Hfs Htr].
  pose proof (store_children_younger _ Hfs) as Hyoung.
  pose proof (store_children_in_store _ Hfs) as Hin.
  unfold forest_of, row_nodes.
  rewrite (forest_attrs_reify _ Hyoung Hin)
    by exact (store_roots_in_store _ Hfs).
  rewrite <- (store_attrs _ _ Htr).
  apply Permutation_map. apply (preorder_covers _ Hyoung Hin). apply Hfs.
Qed.

Lemma built_normalised (cfg : Config) (df df' : DataFrame)
      (forest : list Node) :
  build_hierarchy cfg df = Some (df', forest) ->
  normalize_table cfg df = Some df'.
Proof.
  unfold build_hierarchy.
  destruct (normalize_table cfg df) as [df0|]; [|discriminate].
  now intros [= <- _].
Qed.

(** X22.  The forest holds exactly one node per structural row of the
    table and none for a note row: the attributes of its nodes, at all
    depths, are those of the nodes built from the structural rows, each
    once. *)
Theorem forest_nodes_are_the_rows
        (cfg : Config) (df df' : DataFrame) (forest : list Node) :
  build_hierarchy cfg df = Some (df', forest) ->
  map attrs (forest_nodes forest) ≡ₚ row_nodes cfg df' /\
  length (forest_nodes forest) = length (structural_rows cfg df').
Proof.
  intros Hbuild. pose proof (built_forest_attrs _ _ _ _ Hbuild) as Hperm.
  split; [exact Hperm|].
  apply Permutation_length in Hperm. unfold row_nodes in Hperm.
  now rewrite !length_map in Hperm.
Qed.

Lemma forest_nodes_are_the_rows_witness :
  map attrs (forest_nodes noted_forest)
    ≡ₚ row_nodes default_config noted_normalised /\
  length (forest_nodes noted_forest)
  = length (structural_rows default_config noted_normalised).
Proof.
  apply (forest_nodes_are_the_rows default_config noted_table
           noted_normalised noted_forest).
  vm_compute. reflexivity.
Defined.

(** ** When the pipeline returns *)

Lemma nan_to_none_text (v : value) (s : string) :
  nan_to_none v = VStr s <-> v = VStr s.
Proof. destruct v; cbn; split; congruence. Qed.

Lemma row_text_iff (row : Series) :
  text_attrs (c_attrs (new_cell row)) <->
  exists s, row_get row "item_description" VNone = VStr s.
Proof.
  unfold text_attrs. fold (node_field "item_description" row).
  rewrite node_field_row by reflexivity.
  split; intros [s Hs]; exists s; now apply nan_to_none_text.
Qed.

Lemma forest_text_iff (cfg : Config) (df df' : DataFrame)
      (forest : list Node) :
  build_hierarchy cfg df = Some (df', forest) ->
  Forall has_text_description (forest_nodes forest) <->
  Forall (fun row => exists s, row_get row "item_description" VNone = VStr s)
         (structural_rows cfg df').
Proof.
  intros Hbuild. pose proof (built_forest_attrs _ _ _ _ Hbuild) as Hperm.
  transitivity (Forall text_attrs (map attrs (forest_nodes forest))).
  { rewrite List.Forall_map. reflexivity. }
  rewrite Hperm. unfold row_nodes. rewrite List.Forall_map.
  apply Forall_proper; [|reflexivity]. intros row. apply row_text_iff.
Qed.

(** X23.  A structural row whose description is not a text (a blank
    separator row, a number) makes the chain of the two stages raise: the
    builder returns its forest, and the flattener fails on the breadcrumb
    of the node of that row, whatever the other rows hold. *)
Theorem non_text_description_raises
        (cfg : Config) (df df' : DataFrame) (forest : list Node)
        (row : Series) :
  build_hierarchy cfg df = Some (df', forest) ->
  In row (structural_rows cfg df') ->
  (forall s, row_get row "item_description" VNone <> VStr s) ->
  pipeline cfg df = None.
Proof.
  intros Hbuild Hrow Hdesc. unfold pipeline. rewrite Hbuild.
  destruct (JsonFlatten.flatten_hsn_json_with_inherited forest)
    as [docs|] eqn:Hflat; [|reflexivity].
  assert (Forall (fun row => exists s,
                    row_get row "item_description" VNone = VStr s)
                 (structural_rows cfg df')) as Hrows.
  { apply (forest_text_iff _ _ _ _ Hbuild), flatten_returns_iff.
    rewrite Hflat. now eexists. }
  rewrite Forall_forall in Hrows.
  destruct (Hrows row) as [s Hs]; [now apply list_elem_of_In|].
  now destruct (Hdesc s).
Qed.

Lemma non_text_description_raises_witness :
  pipeline default_config blank_row_table = None.
Proof.
  apply (non_text_description_raises default_config blank_row_table
           blank_row_normalised blank_row_forest
           (zip Inputs.cols4 [VStr "nan"; VNaN; VNaN; VNaN])).
  - vm_compute. reflexivity.
  - vm_compute. right. left. reflexivity.
  - intros s. vm_compute. discriminate.
Defined.

(** ** Tables without depth *)

Lemma Forall_filter_impl {A : Type} (P : A -> Prop) (f : A -> bool)
      (l : list A) :
  Forall P (List.filter f l) -> Forall (fun x => f x = true -> P x) l.
Proof.
  induction l as [|x l IH]; intros Hall; [constructor|].
  cbn [List.filter] in Hall. destruct (f x) eqn:E.
  - apply Forall_cons in Hall as [Hx Hall].
    constructor; [now intros _ | now apply IH].
  - constructor; [congruence | now apply IH].
Qed.

Lemma step_flat (cfg : Config) (cols : list string) (st : State)
      (row : Series) :
  (negb (is_note_row cfg row) = true -> row_depth cfg row = 0) ->
  flat_store st -> flat_store (step cfg cols st row).
Proof.
  intros Hdepth [Hroot Hkids].
  destruct (is_note_row cfg row) eqn:Hnote.
  - destruct (note_target (level_nodes st)) as [t|] eqn:Et.
    + rewrite (step_note_attach cfg cols st row t Hnote Et).
      split; cbn [heap root].
      * now rewrite length_alter.
      * apply Forall_alter; [exact Hkids|]. now intros c _ Hc.
    + rewrite step_note_drop by assumption. now split.
  - rewrite (step_structural_zero cfg cols st row Hnote (Hdepth eq_refl)).
    split; cbn [heap root].
    + rewrite length_app. cbn [length].
      now rewrite Nat.add_1_r, seq_snoc, <- Hroot.
    + apply Forall_app. split; [exact Hkids | now repeat constructor].
Qed.

(** When every structural row has depth 0, every node is a root and none
    has a child. *)
Lemma run_flat (cfg : Config) (df : DataFrame) :
  Forall (fun row => row_depth cfg row = 0) (structural_rows cfg df) ->
  flat_store (run cfg df).
Proof.
  intros Hrows. unfold run.
  apply (foldl_step_ind flat_store
           (fun row => negb (is_note_row cfg row) = true ->
                       row_depth cfg row = 0)).
  - now apply Forall_filter_impl.
  - intros st row. apply step_flat.
  - split; [reflexivity | constructor].
Qed.

Lemma flat_forest (cfg : Config) (df df' : DataFrame) (forest : list Node) :
  build_hierarchy cfg df = Some (df', forest) ->
  flat_store (run cfg df') ->
  map attrs forest = row_nodes cfg df' /\
  Forall (fun n => children n = []) forest.
Proof.
  intros Hbuild [Hroot Hkids].
  destruct (built_forest_nodes cfg df df' forest Hbuild)
    as (-> & Hfs & Htr & _).
  unfold forest_of. split.
  - rewrite roots_attrs
      by first [ exact (store_roots_in_store _ Hfs)
               | exact (store_children_in_store _ Hfs)
               | exact (store_children_younger _ Hfs) ].
    rewrite Hroot. exact (store_attrs _ _ Htr).
  - apply List.Forall_map. apply Forall_forall. intros r _.
    destruct (length (heap (run cfg df'))) as [|n]; [reflexivity|].
    cbn [reify]. destruct (heap (run cfg df') !! r) as [c|] eqn:Hc;
      [|reflexivity].
    cbn [children]. rewrite Forall_forall in Hkids.
    rewrite (Hkids c); [reflexivity|].
    now apply list_elem_of_lookup_2 with r.
Qed.

(** X24.  When every structural row has depth 0 (its level cell is 0,
    missing, or not a number), the forest is a flat list: its roots are
    the nodes of the structural rows in table order, and no node has a
    child. *)
Theorem depth_zero_rows_give_flat_forest
        (cfg : Config) (df df' : DataFrame) (forest : list Node) :
  build_hierarchy cfg df = Some (df', forest) ->
  Forall (fun row => row_depth cfg row = 0) (structural_rows cfg df') ->
  map attrs forest = row_nodes cfg df' /\
  Forall (fun n => children n = []) forest.
Proof.
  intros Hbuild Hrows.
  apply (flat_forest cfg df df' forest Hbuild). now apply run_flat.
Qed.

Lemma depth_zero_rows_give_flat_forest_witness :
  map attrs blank_row_forest = row_nodes default_config blank_row_normalised /\
  Forall (fun n => children n = []) blank_row_forest.
Proof.
  apply (depth_zero_rows_give_flat_forest default_config blank_row_table
           blank_row_normalised blank_row_forest).
  - vm_compute. reflexivity.
  - vm_compute. repeat constructor.
Defined.

Lemma assoc_zip_missing (key : string) (cols : list string) :
  key ∉ cols -> forall cells, assoc key (zip cols cells) = None.
Proof.
  induction cols as [|c cols IH]; intros Hkey cells; [reflexivity|].
  apply not_elem_of_cons in Hkey as [Hne Hkey].
  destruct cells as [|v cells]; [reflexivity|].
  cbn [zip_with assoc].
  destruct (String.eqb c key) eqn:E;
    [apply String.eqb_eq in E; congruence | now apply IH].
Qed.

(** X25.  A table without a column under the level label does not make
    the builder raise: every row is read at depth 0, so the forest is the
    flat list of the structural rows' nodes, in table order, without any
    child. *)
Theorem missing_level_column_gives_flat_forest
        (cfg : Config) (df df' : DataFrame) (forest : list Node) :
  build_hierarchy cfg df = Some (df', forest) ->
  level_col cfg ∉ columns df' ->
  map attrs forest = row_nodes cfg df' /\
  Forall (fun n => children n = []) forest.
Proof.
  intros Hbuild Hcol.
  apply (flat_forest cfg df df' forest Hbuild). apply run_flat.
  apply Forall_forall. intros row Hrow.
  apply list_elem_of_In, filter_In in Hrow as [Hrow _].
  apply in_map_iff in Hrow as (cells & <- & _).
  unfold row_depth, row_get. now rewrite assoc_zip_missing.
Qed.

Lemma missing_level_column_gives_flat_forest_witness :
  map attrs no_level_forest = row_nodes default_config no_level_normalised /\
  Forall (fun n => children n = []) no_level_forest.
Proof.
  apply (missing_level_column_gives_flat_forest default_config no_level_table
           no_level_normalised no_level_forest).
  - vm_compute. reflexivity.
  - apply (bool_decide_eq_true_1
             (level_col default_config ∉ columns no_level_normalised)).
    vm_compute. reflexivity.
Defined.

(** ** The codes that the nodes carry *)

Lemma forest_node_row (cfg : Config) (df df' : DataFrame)
      (forest : list Node) (node : Node) :
  build_hierarchy cfg df = Some (df', forest) ->
  In node (forest_nodes forest) ->
  exists row, In row (structural_rows cfg df') /\
              attrs node = c_attrs (new_cell row).
Proof.
  intros Hbuild Hnode.
  pose proof (built_forest_attrs _ _ _ _ Hbuild) as Hperm.
  apply (in_map attrs) in Hnode.
  apply (Permutation_in _ Hperm) in Hnode.
  apply in_map_iff in Hnode as (row & Hattrs & Hrow). now exists row.
Qed.

(** X26.  In a table whose rows have a cell for every column, every node
    of the forest carries, under the code label, a text without any
    whitespace: the text form of the cell the caller passed (a missing
    code becomes the text "nan"), with all whitespace removed. *)
Theorem node_codes_are_clean
        (cfg : Config) (df df' : DataFrame) (forest : list Node)
        (node : Node) :
  build_hierarchy cfg df = Some (df', forest) ->
  is_list_key (hs_code_col cfg) = false ->
  Forall (fun cells => (length (columns df) <= length cells)%nat) (data df) ->
  In node (forest_nodes forest) ->
  clean_code (get node (hs_code_col cfg)).
Proof.
  intros Hbuild Hkey Hrect Hnode.
  destruct (forest_node_row _ _ _ _ _ Hbuild Hnode) as (row & Hrow & Hattrs).
  apply built_normalised in Hbuild.
  apply normalize_table_Some in Hbuild as (Hin & _ & ->).
  apply filter_In in Hrow as [Hrow _]. unfold iterrows in Hrow.
  cbn [columns data] in Hrow.
  apply in_map_iff in Hrow as (cells' & <- & Hcells').
  apply in_map_iff in Hcells' as (cells & <- & Hcells).
  rewrite Forall_forall in Hrect.
  pose proof (Hrect cells (proj2 (list_elem_of_In _ _) Hcells)) as Hlen.
  unfold get. rewrite Hattrs.
  fold (node_field (hs_code_col cfg)
          (zip (map normalize_header (columns df))
               (set_column (map normalize_header (columns df))
                  (hs_code_col cfg) normalize_hs_cell cells))).
  rewrite node_field_row by exact Hkey.
  rewrite normalised_row_code by (rewrite ?length_map; assumption).
  unfold normalize_hs_cell. cbn [nan_to_none is_float_nan].
  eexists. split; [reflexivity|]. unfold remove_whitespace.
  apply filter_chars_idempotent.
Qed.

Lemma node_codes_are_clean_witness :
  Forall (fun node => clean_code (get node "hs_code"))
         (forest_nodes noted_forest).
Proof.
  apply Forall_forall. intros node Hnode.
  apply (node_codes_are_clean default_config noted_table noted_normalised
           noted_forest node).
  - vm_compute. reflexivity.
  - reflexivity.
  - repeat constructor.
  - now apply list_elem_of_In.
Defined.

End RowsAndNodes.

(* ================================================================== *)
(** * Depths along the forest *)
(* ================================================================== *)

Section DepthInvariant.
Import PyText PyValue Tree ExcelToHierarchy BuilderSpec Pipeline ForestSpec.
Import DepthSpec.

Variable cfg : Config.

(** The level label is not one of the two keys that the builder
    overwrites with lists. *)
Hypothesis level_is_scalar : is_list_key (level_col cfg) = false.

Lemma depth_of_nan_to_none (v : value) :
  depth_of (nan_to_none v) = depth_of v.
Proof. now destruct v. Qed.

(** The node built from a row holds the level cell the depth was read
    from. *)
Lemma new_cell_depth (row : Series) :
  cell_depth cfg (new_cell row) = row_depth cfg row.
Proof.
  unfold cell_depth, row_depth, row_get.
  rewrite assoc_new_cell by exact level_is_scalar.
  destruct (assoc (level_col cfg) row) as [v|];
    [exact (depth_of_nan_to_none v) | reflexivity].
Qed.

Lemma lookup_alter_attrs (f : Cell -> Cell) (p : nat) (h : list Cell)
      (i : nat) (c' : Cell) :
  alter f p h !! i = Some c' ->
  exists c, h !! i = Some c /\ (c' = c \/ (i = p /\ c' = f c)).
Proof.
  intros Hi. destruct (decide (i = p)) as [->|Hne].
  - rewrite list_lookup_alter_eq in Hi.
    destruct (h !! p) as [c|]; [|discriminate]. injection Hi as <-.
    exists c. split; [reflexivity|]. right. now split.
  - rewrite list_lookup_alter_ne in Hi by congruence.
    exists c'. split; [exact Hi | now left].
Qed.

Lemma kids_in_store (st : State) :
  forest_store st ->
  forall i c j, heap st !! i = Some c -> In j (c_children c) ->
    (j < length (heap st))%nat.
Proof.
  intros Hfs i c j Hi Hj. apply (store_children_in_store st Hfs i).
  unfold children_of. now rewrite Hi.
Qed.

Lemma deepening_initial : deepening cfg initial.
Proof.
  split; [|split]; cbn [initial heap level_nodes].
  - intros d p Hp. now rewrite lookup_empty in Hp.
  - intros i c j cj Hi. now rewrite lookup_nil in Hi.
  - intros i c Hi. now rewrite lookup_nil in Hi.
Qed.

Lemma deepening_new_root (st : State) (row : Series) (d : Z) (r : list nat) :
  d = row_depth cfg row ->
  forest_store st -> deepening cfg st ->
  deepening cfg
    {| heap := heap st ++ [new_cell row];
       root := r;
       level_nodes := <[d := length (heap st)]> (level_nodes st) |}.
Proof.
  intros -> Hfs (D1 & D2 & D3). split; [|split]; cbn [heap level_nodes].
  - intros d p Hp.
    destruct (decide (row_depth cfg row = d)) as [<-|Hne].
    + rewrite lookup_insert_eq in Hp. injection Hp as <-.
      exists (new_cell row). split; [apply lookup_snoc_new | apply new_cell_depth].
    + rewrite lookup_insert_ne in Hp by assumption.
      destruct (D1 d p Hp) as (c & Hc & Hd). exists c.
      split; [now apply lookup_app_l_Some | exact Hd].
  - intros i c j cj Hi Hj Hcj.
    apply lookup_app_Some in Hi as [Hi|[_ Hi]].
    + apply lookup_app_Some in Hcj as [Hcj|[Hlen _]];
        [exact (D2 i c j cj Hi Hj Hcj)|].
      pose proof (kids_in_store st Hfs i c j Hi Hj). lia.
    + apply list_lookup_singleton_Some in Hi as [_ <-].
      cbn in Hj. destruct Hj.
  - intros i c Hi Hn.
    apply lookup_app_Some in Hi as [Hi|[_ Hi]]; [exact (D3 i c Hi Hn)|].
    apply list_lookup_singleton_Some in Hi as [_ <-]. now destruct Hn.
Qed.

Lemma deepening_new_child (st : State) (row : Series) (d : Z) (p : nat) :
  nearest_open (level_nodes st) (row_depth cfg row) d p ->
  forest_store st -> deepening cfg st ->
  deepening cfg
    {| heap := alter (append_child (length (heap st))) p (heap st)
                 ++ [new_cell row];
       root := root st;
       level_nodes :=
         <[row_depth cfg row := length (heap st)]> (level_nodes st) |}.
Proof.
  intros (Hp & Hlt & _) Hfs (D1 & D2 & D3).
  destruct (D1 d p Hp) as (cp & Hcp & Hdp).
  split; [|split]; cbn [heap level_nodes].
  - intros d' q Hq.
    destruct (decide (row_depth cfg row = d')) as [<-|Hne].
    + rewrite lookup_insert_eq in Hq. injection Hq as <-.
      exists (new_cell row).
      split; [apply lookup_snoc_alter | apply new_cell_depth].
    + rewrite lookup_insert_ne in Hq by assumption.
      destruct (D1 d' q Hq) as (c & Hc & Hd).
      destruct (decide (q = p)) as [->|Hqp].
      * exists (append_child (length (heap st)) c). split; [|exact Hd].
        apply lookup_app_l_Some. now rewrite list_lookup_alter_eq, Hc.
      * exists c. split; [|exact Hd].
        apply lookup_app_l_Some.
        now rewrite list_lookup_alter_ne by congruence.
  - intros i c j cj Hi Hj Hcj.
    apply lookup_app_Some in Hi as [Hi|[_ Hi]].
    2:{ apply list_lookup_singleton_Some in Hi as [_ <-].
        cbn in Hj. destruct Hj. }
    apply lookup_alter_attrs in Hi as (c0 & Hi0 & Hc).
    apply lookup_app_Some in Hcj as [Hcj|[Hlen Hcj]].
    + apply lookup_alter_attrs in Hcj as (cj0 & Hj0 & Hcj).
      assert (cell_depth cfg cj = cell_depth cfg cj0) as ->
        by (destruct Hcj as [->|[_ ->]]; reflexivity).
      pose proof (lookup_lt_Some _ _ _ Hj0) as Hjlt.
      destruct Hc as [->|[-> ->]]; [exact (D2 i c0 j cj0 Hi0 Hj Hj0)|].
      cbn [append_child c_children] in Hj.
      apply in_app_or in Hj as [Hj|[<-|[]]];
        [exact (D2 p c0 j cj0 Hi0 Hj Hj0) | lia].
    + rewrite length_alter in Hlen.
      apply list_lookup_singleton_Some in Hcj as [_ <-].
      destruct Hc as [->|[-> ->]].
      * pose proof (kids_in_store st Hfs i c0 j Hi0 Hj). lia.
      * rewrite Hcp in Hi0. injection Hi0 as <-.
        rewrite new_cell_depth.
        change (cell_depth cfg (append_child (length (heap st)) cp))
          with (cell_depth cfg cp).
        lia.
  - intros i c Hi Hn.
    apply lookup_app_Some in Hi as [Hi|[_ Hi]].
    + apply lookup_alter_attrs in Hi as (c0 & Hi0 & [->|[-> ->]]);
        exact (D3 _ c0 Hi0 Hn).
    + apply list_lookup_singleton_Some in Hi as [_ <-]. now destruct Hn.
Qed.

Lemma deepening_new_notes (st : State) (t : nat) (ts : list string) :
  note_target (level_nodes st) = Some t ->
  deepening cfg st ->
  deepening cfg
    {| heap := alter (append_notes ts) t (heap st);
       root := root st;
       level_nodes := level_nodes st |}.
Proof.
  intros Ht (D1 & D2 & D3). split; [|split]; cbn [heap level_nodes].
  - intros d p Hp. destruct (D1 d p Hp) as (c & Hc & Hd).
    destruct (decide (p = t)) as [->|Hne].
    + exists (append_notes ts c). split; [|exact Hd].
      now rewrite list_lookup_alter_eq, Hc.
    + exists c. split; [|exact Hd].
      now rewrite list_lookup_alter_ne by congruence.
  - intros i c j cj Hi Hj Hcj.
    apply lookup_alter_attrs in Hi as (c0 & Hi0 & Hc).
    apply lookup_alter_attrs in Hcj as (cj0 & Hj0 & Hcj).
    assert (cell_depth cfg cj = cell_depth cfg cj0) as ->
      by (destruct Hcj as [->|[_ ->]]; reflexivity).
    destruct Hc as [->|[_ ->]]; exact (D2 i c0 j cj0 Hi0 Hj Hj0).
  - intros i c Hi Hn.
    apply lookup_alter_attrs in Hi as (c0 & Hi0 & [->|[-> ->]]);
      [exact (D3 i c0 Hi0 Hn)|].
    change (cell_depth cfg (append_notes ts c0)) with (cell_depth cfg c0).
    unfold note_target in Ht.
    destruct (level_nodes st !! 1) as [t1|] eqn:E1.
    + injection Ht as ->. destruct (D1 1 t E1) as (c1 & Hc1 & Hd1).
      rewrite Hi0 in Hc1. injection Hc1 as <-. now right.
    + destruct (D1 0 t Ht) as (c1 & Hc1 & Hd1).
      rewrite Hi0 in Hc1. injection Hc1 as <-. now left.
Qed.

Lemma step_deepening (cols : list string) (st : State) (row : Series) :
  forest_store st -> deepening cfg st ->
  deepening cfg (step cfg cols st row).
Proof.
  intros Hfs Hd. destruct (is_note_row cfg row) eqn:Hnote.
  - destruct (note_target (level_nodes st)) as [t|] eqn:Et.
    + rewrite (step_note_attach cfg cols st row t Hnote Et).
      now apply deepening_new_notes.
    + now rewrite step_note_drop.
  - destruct (decide (row_depth cfg row = 0)) as [Hz|Hnz].
    + rewrite (step_structural_zero cfg cols st row Hnote Hz).
      now apply deepening_new_root.
    + destruct (nearest_or_none (level_nodes st) (row_depth cfg row))
        as [(d & p & Hnear)|Hnone].
      * rewrite (step_structural_child cfg cols st row d p Hnote Hnz Hnear).
        now apply (deepening_new_child st row d p).
      * rewrite (step_structural_orphan cfg cols st row Hnote Hnone).
        now apply deepening_new_root.
Qed.

Lemma run_deepening (df : DataFrame) : deepening cfg (run cfg df).
Proof.
  unfold run.
  assert ((exists done, forest_store (foldl (step cfg (columns df)) initial
                                        (iterrows df)) /\
                        tracks (foldl (step cfg (columns df)) initial
                                  (iterrows df)) done) /\
          deepening cfg (foldl (step cfg (columns df)) initial (iterrows df)))
    as [_ Hd]; [|exact Hd].
  apply (foldl_step_ind
           (fun st => (exists done, forest_store st /\ tracks st done) /\
                      deepening cfg st)
           (fun _ => True)).
  - apply Forall_forall. trivial.
  - intros st row _ [(done & Hfs & Htr) Hd]. split.
    + destruct (step_preserves cfg (columns df) st row done Hfs Htr)
        as [Hfs' Htr'].
      eexists. split; [exact Hfs' | exact Htr'].
    + now apply step_deepening.
  - split; [|apply deepening_initial].
    exists []. split; [apply forest_store_initial | reflexivity].
Qed.

End DepthInvariant.

Section ForestDepths.
Import PyText PyValue Tree ExcelToHierarchy BuilderSpec Pipeline ForestSpec.
Import DepthSpec Inputs MoreInputs.

(** X27.  Depth grows along every branch: in the returned forest every
    child holds a level cell that reads strictly deeper than the one of
    its parent. *)
Theorem children_are_deeper
        (cfg : Config) (df df' : DataFrame) (forest : list Node)
        (node child : Node) :
  build_hierarchy cfg df = Some (df', forest) ->
  is_list_key (level_col cfg) = false ->
  In node (forest_nodes forest) ->
  In child (children node) ->
  node_depth cfg node < node_depth cfg child.
Proof.
  intros Hbuild Hkey Hnode Hchild.
  destruct (built_forest_nodes cfg df df' forest Hbuild)
    as (_ & Hfs & _ & Hnodes).
  destruct (run_deepening cfg Hkey df') as (_ & D2 & _).
  rewrite Forall_forall in Hnodes.
  destruct (Hnodes node) as (i & c & Hc & Hattrs & _ & Hkids);
    [now apply list_elem_of_In|].
  apply (in_map attrs) in Hchild. rewrite Hkids in Hchild.
  apply in_map_iff in Hchild as (j & Hj & Hin).
  pose proof (kids_in_store _ Hfs i c j Hc Hin) as Hlt.
  destruct (lookup_lt_is_Some_2 _ _ Hlt) as [cj Hcj].
  unfold cell_attrs in Hj. rewrite Hcj in Hj. cbn [from_option] in Hj.
  unfold node_depth, get. rewrite Hattrs, <- Hj.
  exact (D2 i c j cj Hc Hin Hcj).
Qed.

Lemma children_are_deeper_witness :
  node_depth default_config skip_chapter
  < node_depth default_config skip_child.
Proof.
  apply (children_are_deeper default_config skip_level_table
           skip_level_table skip_level_forest skip_chapter skip_child).
  - vm_compute. reflexivity.
  - reflexivity.
  - vm_compute. left. reflexivity.
  - vm_compute. left. reflexivity.
Defined.

(** X28.  Only nodes of depth 0 or 1 carry notes: a node of the returned
    forest whose note list is not empty holds a level cell that reads as
    depth 0 or depth 1. *)
Theorem notes_only_at_depth_0_or_1
        (cfg : Config) (df df' : DataFrame) (forest : list Node)
        (node : Node) :
  build_hierarchy cfg df = Some (df', forest) ->
  is_list_key (level_col cfg) = false ->
  In node (forest_nodes forest) ->
  notes node <> [] ->
  node_depth cfg node = 0 \/ node_depth cfg node = 1.
Proof.
  intros Hbuild Hkey Hnode Hnotes.
  destruct (built_forest_nodes cfg df df' forest Hbuild)
    as (_ & _ & _ & Hnodes).
  destruct (run_deepening cfg Hkey df') as (_ & _ & D3).
  rewrite Forall_forall in Hnodes.
  destruct (Hnodes node) as (i & c & Hc & Hattrs & Hn & _);
    [now apply list_elem_of_In|].
  unfold node_depth, get. rewrite Hattrs.
  apply (D3 i c Hc). now rewrite <- Hn.
Qed.

Lemma notes_only_at_depth_0_or_1_witness :
  node_depth default_config noted_chapter = 0 \/
  node_depth default_config noted_chapter = 1.
Proof.
  apply (notes_only_at_depth_0_or_1 default_config noted_table
           noted_normalised noted_forest noted_chapter).
  - vm_compute. reflexivity.
  - reflexivity.
  - vm_compute. left. reflexivity.
  - vm_compute. discriminate.
Defined.

End ForestDepths.

(* ================================================================== *)
(** * The columns of [attach_policy_links] *)
(* ================================================================== *)

Section PolicyColumns.
Import PyText PyValue PolicyLinks PolicySpec.

(** The text that [extract_policy_links] returns for a text cell is a
    stripped text, also when markers have been split off its end. *)
Lemma extracted_text_is_stripped (c : string) :
  exists s, fst (extract_policy_links (VStr c)) = VStr s /\ strip s = s.
Proof.
  cbn [extract_policy_links].
  destruct (match_trailing_refs (strip c)) as [[text refs]|]; cbn [fst];
    eexists; (split; [reflexivity | apply strip_idempotent]).
Qed.

(** X8.  The text column that [attach_policy_links] computes has one
    entry per row of the policy column: [None] for a cell that is not a
    text, and for a text cell a text without whitespace at either end,
    also when markers were split off behind a blank. *)
Theorem policy_texts_are_stripped
        (col texts : list value) (refs : list (list string)) :
  policy_columns col = Some (texts, refs) ->
  Forall2 (fun cell t =>
             match cell with
             | VStr _ => exists s, t = VStr s /\ strip s = s
             | _ => t = VNone
             end)
          col texts.
Proof.
  intros Hcols.
  assert (texts = map (fun cell => fst (extract_policy_links cell)) col)
    as ->.
  { destruct col as [|c col]; [discriminate|].
    unfold policy_columns in Hcols. now injection Hcols as <- _. }
  clear Hcols. induction col as [|cell col IH]; [constructor|].
  cbn [map]. constructor; [|exact IH].
  destruct cell as [| | | | |c]; try reflexivity.
  apply extracted_text_is_stripped.
Qed.

Lemma policy_texts_are_stripped_witness :
  Forall2 (fun cell t =>
             match cell with
             | VStr _ => exists s, t = VStr s /\ strip s = s
             | _ => t = VNone
             end)
          [VStr " Restricted *1,22 "; VNaN]
          [VStr "Restricted"; VNone].
Proof.
  apply (policy_texts_are_stripped
           [VStr " Restricted *1,22 "; VNaN]
           [VStr "Restricted"; VNone]
           [["*"; "1"; "2"; "2"]; []]).
  vm_compute. reflexivity.
Defined.

End PolicyColumns.
